(** * VIA (Vulkan Installation Analyzer): discovery and resolution engine

    A shallow embedding of the discovery logic of [via/via.cpp] (the
    GNU/Linux build, i.e. the [#else] / [#elif __GNUC__] branches) and
    the properties of its specification that concern path resolution,
    driver verdicts, implicit-layer enablement and expiration, the
    settings-file reader, the ordering of explicit-layer discovery and
    the propagation of verdicts to the exit status.

    Conventions.
    - [char] buffers and [const char *] arguments are [list ascii]: the
      characters before the terminating NUL.  A [NULL] pointer is [None].
    - [std::string] is [string]; [c_str] gives the C view of it.
    - A by-reference argument is an input and a component of the result.
    - A call that throws (a jsoncpp accessor applied to a value of the
      wrong type) is [None] in the [option] monad; nothing in [via.cpp]
      catches, so [None] is a run with no verdict at all.
    - The HTML writer is modelled by the rows it is handed: a row is the
      list of cells passed to [PrintTableElement] between
      [PrintBeginTableRow] and [PrintEndTableRow]. *)

From Stdlib Require Import ZArith Ascii String List Bool Lia.
From stdpp Require Import base option list strings gmap pretty sorting.

Local Open Scope Z_scope.
Local Open Scope list_scope.
Local Set Warnings "-register-all".

(** ** C strings *)

Module CString.

(** The characters of a string literal, as a [char] buffer. *)
Definition buf (s : string) : list ascii := list_ascii_of_string s.

(** [std::string::c_str], seen through [strlen], [strncpy], [atoi]
    and [getenv]: the characters before the first NUL. *)
Fixpoint c_str (s : string) : list ascii :=
  match s with
  | EmptyString => []
  | String a r => if decide (a = "000"%char) then [] else a :: c_str r
  end.

(** Building a [std::string] from a [char] buffer. *)
Definition to_string (b : list ascii) : string := string_of_list_ascii b.

(** [s[i]]; the terminator (and, in this model, whatever lies behind
    it) reads as NUL. *)
Definition char_at (s : list ascii) (i : nat) : ascii := nth i s "000"%char.

Definition strlen (s : list ascii) : nat := length s.

(** [strrchr (s, c)] for a non-NUL [c]: offset of the last [c]. *)
Fixpoint strrchr (s : list ascii) (c : ascii) : option nat :=
  match s with
  | [] => None
  | a :: r =>
      match strrchr r c with
      | Some i => Some (S i)
      | None => if decide (a = c) then Some 0%nat else None
      end
  end.

(** [strchr (s, c)] for a non-NUL [c]: offset of the first [c]. *)
Fixpoint strchr (s : list ascii) (c : ascii) : option nat :=
  match s with
  | [] => None
  | a :: r => if decide (a = c) then Some 0%nat else S <$> strchr r c
  end.

(** [strncpy (dst, src, n)] into a buffer read back as a C string.
    When [strlen src >= n] the C call writes no terminator; the model
    keeps the [n] characters that were copied. *)
Definition strncpy (src : list ascii) (n : nat) : list ascii := take n src.

(** [strncat (dst, src, n)]. *)
Definition strncat (dst src : list ascii) (n : nat) : list ascii :=
  dst ++ take n src.

Definition isspace (c : ascii) : bool := Ascii.is_space c.

Definition digit (c : ascii) : option Z := Z.of_nat <$> Ascii.is_nat c.

(** The digit loop of [strtol] in base 10. *)
Fixpoint digits (s : list ascii) (acc : Z) : Z :=
  match s with
  | [] => acc
  | c :: r =>
      match digit c with
      | Some d => digits r (10 * acc + d)
      | None => acc
      end
  end.

Fixpoint skip_space (s : list ascii) : list ascii :=
  match s with
  | c :: r => if isspace c then skip_space r else s
  | [] => []
  end.

(** Conversion to a [w]-bit two's complement [int]. *)
Definition wrap_signed (w : Z) (z : Z) : Z :=
  (z + 2 ^ (w - 1)) mod 2 ^ w - 2 ^ (w - 1).

(** Conversion to a [w]-bit unsigned integer ([uint8_t], [uint16_t]). *)
Definition wrap_unsigned (w : Z) (z : Z) : Z := z mod 2 ^ w.

(** [atoi]: leading white space, an optional sign, decimal digits;
    anything else ends the number, and no digits at all give 0.  The
    value is [(int) strtol (s, NULL, 10)]; every buffer handed to it
    here holds at most 31 characters, and the narrowing to [int] is
    the 32-bit wrap-around of the GNU C library. *)
Definition atoi (s : list ascii) : Z :=
  let s := skip_space s in
  wrap_signed 32
    match s with
    | c :: r =>
        if decide (c = "-"%char) then - digits r 0
        else if decide (c = "+"%char) then digits r 0
        else digits s 0
    | [] => 0
    end.

(** [strtok (s, ":")] called until it returns [NULL]: the maximal
    runs of characters other than the delimiter, empty runs dropped. *)
Fixpoint strtok_go (delim : ascii) (s : list ascii) (cur : list ascii)
  : list (list ascii) :=
  match s with
  | [] => match cur with [] => [] | _ => [rev cur] end
  | c :: r =>
      if decide (c = delim)
      then match cur with
           | [] => strtok_go delim r []
           | _ => rev cur :: strtok_go delim r []
           end
      else strtok_go delim r (c :: cur)
  end.

Definition strtok_all (s : list ascii) (delim : ascii) : list (list ascii) :=
  strtok_go delim s [].

(** [strstr (hay, needle) != NULL]. *)
Fixpoint is_prefix (p s : list ascii) : bool :=
  match p, s with
  | [], _ => true
  | a :: p', b :: s' => if decide (a = b) then is_prefix p' s' else false
  | _ :: _, [] => false
  end.

Fixpoint strstr (hay needle : list ascii) : bool :=
  is_prefix needle hay ||
  match hay with
  | [] => false
  | _ :: r => strstr r needle
  end.

End CString.

Import CString.

(** ** Error codes and table rows *)

Inductive ErrorResults : Set :=
| SUCCESSFUL
| UNKNOWN_ERROR
| SYSTEM_CALL_FAILURE
| MISSING_DRIVER_REGISTRY
| MISSING_DRIVER_JSON
| DRIVER_JSON_PARSING_ERROR
| MISSING_DRIVER_LIB
| MISSING_LAYER_JSON
| LAYER_JSON_PARSING_ERROR
| MISSING_LAYER_LIB
| VULKAN_CANT_FIND_RUNTIME
| VULKAN_CANT_FIND_DRIVER
| VULKAN_CANT_FIND_EXTENSIONS
| VULKAN_FAILED_CREATE_INSTANCE
| VULKAN_FAILED_CREATE_DEVICE
| VULKAN_FAILED_OUT_OF_MEM
| TEST_FAILED.

(** The numeric value of each enumerator; [main] returns it. *)
Definition error_code (r : ErrorResults) : Z :=
  match r with
  | SUCCESSFUL => 0
  | UNKNOWN_ERROR => -1
  | SYSTEM_CALL_FAILURE => -2
  | MISSING_DRIVER_REGISTRY => -20
  | MISSING_DRIVER_JSON => -21
  | DRIVER_JSON_PARSING_ERROR => -22
  | MISSING_DRIVER_LIB => -23
  | MISSING_LAYER_JSON => -24
  | LAYER_JSON_PARSING_ERROR => -25
  | MISSING_LAYER_LIB => -26
  | VULKAN_CANT_FIND_RUNTIME => -40
  | VULKAN_CANT_FIND_DRIVER => -41
  | VULKAN_CANT_FIND_EXTENSIONS => -42
  | VULKAN_FAILED_CREATE_INSTANCE => -43
  | VULKAN_FAILED_CREATE_DEVICE => -44
  | VULKAN_FAILED_OUT_OF_MEM => -45
  | TEST_FAILED => -60
  end.

Global Instance ErrorResults_eq_dec : EqDecision ErrorResults.
Proof. solve_decision. Defined.

Inductive ElementAlign : Set := ALIGN_LEFT | ALIGN_CENTER | ALIGN_RIGHT.

Global Instance ElementAlign_eq_dec : EqDecision ElementAlign.
Proof. solve_decision. Defined.

(** One [PrintTableElement (element, align)]. *)
Definition Cell : Set := string * ElementAlign.

(** One [PrintBeginTableRow] ... [PrintEndTableRow]. *)
Definition Row : Set := list Cell.

Definition el (s : string) : Cell := (s, ALIGN_LEFT).
Definition el_right (s : string) : Cell := (s, ALIGN_RIGHT).

Definition MAX_STRING_LENGTH : nat := 1024.

(** [snprintf (dst, n, ...)] keeps at most [n - 1] characters. *)
Definition snprintf (n : nat) (formatted : string) : string :=
  String.substring 0 (n - 1) formatted.

(** ** PathResolver: [GenerateLibraryPath] *)

Module PathResolver.

Definition is_separator (c : ascii) : bool :=
  bool_decide (c = "\"%char) || bool_decide (c = "/"%char).

(** The block at lines 575-582, repeated at lines 596-603:
    [p = strrchr (final_path, '\\'); if (!p) p = strrchr (final_path, '/');
     if (p) { p++; *p = '\0'; }]. *)
Definition terminate_after_last_separator (final_path : list ascii)
  : list ascii :=
  let working_string_ptr :=
    match strrchr final_path "\"%char with
    | Some p => Some p
    | None => strrchr final_path "/"%char
    end in
  match working_string_ptr with
  | Some p => take (S p) final_path
  | None => final_path
  end.

(** The first [while]: [library_info] stands for [&library_info[i]];
    each round is [i += 3] and one "go up a folder" block. *)
Fixpoint skip_parent_segments (library_info final_path : list ascii)
  : list ascii * list ascii :=
  match library_info with
  | c0 :: c1 :: c2 :: rest =>
      if bool_decide (c0 = "."%char) && bool_decide (c1 = "."%char)
         && is_separator c2
      then skip_parent_segments rest
             (terminate_after_last_separator final_path)
      else (library_info, final_path)
  | _ => (library_info, final_path)
  end.

(** The second [while]: each round is [i += 2]. *)
Fixpoint skip_current_segments (library_info : list ascii) : list ascii :=
  match library_info with
  | c0 :: c1 :: rest =>
      if bool_decide (c0 = "."%char) && is_separator c1
      then skip_current_segments rest
      else library_info
  | _ => library_info
  end.

(** [GenerateLibraryPath]: [None] is [return false], [Some p] is
    [return true] with [p] left in [library_location] (which both
    callers pass as a local array, never [NULL]). *)
Definition GenerateLibraryPath (json_location library_info : option (list ascii))
    (max_length : nat) : option (list ascii) :=
  let len := if (MAX_STRING_LENGTH <? max_length)%nat
             then MAX_STRING_LENGTH else max_length in
  match json_location, library_info with
  | Some json_location, Some library_info =>
      let final_path :=
        terminate_after_last_separator (strncpy json_location len) in
      if is_separator (char_at library_info 0)
         || bool_decide (char_at library_info 1 = ":"%char)
      then Some (strncpy library_info len)
      else
        let '(rest, final_path) :=
          skip_parent_segments library_info final_path in
        let rest := skip_current_segments rest in
        Some (strncat (strncpy final_path (MAX_STRING_LENGTH - 1)) rest len)
  | _, _ => None
  end.

(** [resolve m r] on [std::string]s, as [ReadDriverJson] calls it. *)
Definition resolve (m r : string) : option string :=
  to_string <$>
    GenerateLibraryPath (Some (c_str m)) (Some (c_str r)) MAX_STRING_LENGTH.

End PathResolver.


(** ** The manifest documents: [Json::Value]

    The part of jsoncpp that [via.cpp] uses.  An object is the list of
    its members in iteration order (jsoncpp keeps them in a [std::map],
    so this is the order of the member names); a number of type real
    carries the text [asString] gives for it. *)

Module Json.

Inductive Value : Type :=
| nullValue
| intValue (z : Z)
| realValue (shown : string)
| stringValue (s : string)
| booleanValue (b : bool)
| arrayValue (elements : list Value)
| objectValue (members : list (string * Value)).

Definition isNull (v : Value) : bool :=
  match v with nullValue => true | _ => false end.

Definition isArray (v : Value) : bool :=
  match v with arrayValue _ => true | _ => false end.

Fixpoint find_member (key : string) (members : list (string * Value))
  : Value :=
  match members with
  | [] => nullValue
  | (k, v) :: r => if decide (k = key) then v else find_member key r
  end.

(** [v[key]].  On a null value and on an object without that member
    the result is null; on any other type jsoncpp fails its assertion
    ("requires objectValue"). *)
Definition member (v : Value) (key : string) : option Value :=
  match v with
  | nullValue => Some nullValue
  | objectValue members => Some (find_member key members)
  | _ => None
  end.

(** [v.asString ()]; arrays and objects are "not convertible to
    string". *)
Definition asString (v : Value) : option string :=
  match v with
  | nullValue => Some ""
  | intValue z => Some (pretty z)
  | realValue shown => Some shown
  | stringValue s => Some s
  | booleanValue b => Some (if b then "true" else "false")
  | arrayValue _ | objectValue _ => None
  end.

(** [v.size ()]. *)
Definition size (v : Value) : nat :=
  match v with
  | arrayValue elements => length elements
  | objectValue members => length members
  | _ => 0%nat
  end.

(** The values met between [v.begin ()] and [v.end ()]. *)
Definition elements (v : Value) : list Value :=
  match v with
  | arrayValue elements => elements
  | objectValue members => snd <$> members
  | _ => []
  end.

(** [it.key ()] for each iterator position: the member name in an
    object, the index in an array. *)
Definition keys (v : Value) : list Value :=
  match v with
  | arrayValue elements => (λ i, intValue (Z.of_nat i)) <$> seq 0 (length elements)
  | objectValue members => (λ m, stringValue (fst m)) <$> members
  | _ => []
  end.

(** [!v.isNull () ? v.asString () : "MISSING!"], the cell printed for
    a field of a manifest. *)
Definition shown_or_missing (v : Value) : option string :=
  if isNull v then Some "MISSING!" else asString v.

End Json.

Import Json.

(** ** The host system

    What the program reads from its surroundings during one run. *)

(** [new std::ifstream (path)] followed by [reader.parse]. *)
Inductive JsonFile : Type :=
| Unreadable                       (* [stream->fail ()] *)
| Malformed (messages : string)    (* [!reader.parse (...)] *)
| Document (root : Value).         (* parsed; [root] may still be null *)

(** [struct tm], the fields [checkExpiration] reads. *)
Record tm : Set := {
  tm_year : Z; tm_mon : Z; tm_mday : Z; tm_hour : Z; tm_min : Z
}.

Record System : Type := {
  (** the build: [__x86_64__ || __ppc64__] *)
  lib64 : bool;
  (** [opendir] + [readdir] until [NULL]: [None] if the folder cannot
      be opened, else the entry names in the order they are returned *)
  readdir_all : string → option (list string);
  (** opening and parsing a manifest *)
  json_file : string → JsonFile;
  (** [access (path, R_OK) != -1] *)
  access_R_OK : string → bool;
  (** [dlopen (path, RTLD_NOW | RTLD_LOCAL)]: [None] on success, else
      [dlerror ()] *)
  dlopen_error : string → option string;
  (** [popen (command, "r")] and one [fgets]: [None] if the pipe cannot
      be opened, else the first line of its output, if there is one *)
  popen_first_line : string → option (option string);
  (** [std::ifstream] on a text file: its content, if it opens *)
  text_file : string → option string;
  (** [*localtime (&t)] for [t = time (NULL)]; one reading serves the
      whole run *)
  localtime_now : tm
}.

(** The environment block.  [getenv] returns a pointer into it, so the
    NULs that [strtok] writes into a value stay there for every later
    [getenv] of the same variable: the block is threaded through the
    run as state. *)
Abbreviation Environ := (gmap string string).

Definition getenv (env : Environ) (name : string) : option (list ascii) :=
  c_str <$> env !! name.

(** What is left of a value once [strtok (value, delim)] has been
    called until [NULL]: the first token, with the delimiters that
    precede it (the first delimiter after it was overwritten by NUL). *)
Fixpoint up_to_delim (delim : ascii) (s : list ascii) : list ascii :=
  match s with
  | [] => []
  | c :: r => if decide (c = delim) then [] else c :: up_to_delim delim r
  end.

Fixpoint after_strtok (delim : ascii) (s : list ascii) : list ascii :=
  match s with
  | [] => []
  | c :: r =>
      if decide (c = delim) then c :: after_strtok delim r
      else up_to_delim delim s
  end.

(** [strtok (value, delim)] until [NULL] on the value of [name]: the
    tokens, and the environment it leaves. *)
Definition strtok_env (env : Environ) (name : string) (delim : ascii)
  : list (list ascii) * Environ :=
  match getenv env name with
  | Some value =>
      (strtok_all value delim,
       <[name := to_string (after_strtok delim value)]> env)
  | None => ([], env)
  end.

(** [VerifyOpen]: the result and the [error] it leaves. *)
Definition VerifyOpen (sys : System) (library_file : string) (error : string)
  : bool * string :=
  match dlopen_error sys library_file with
  | Some e => (false, e)
  | None => (true, error)
  end.

(** The rows for [device_extensions] / [instance_extensions] (lines
    3143-3194 for a driver, 4528-4578 for a layer); [pad] is the run of
    empty cells that starts each row.  The counter ([j], [ext]) is set
    to 0 and never incremented. *)
Definition extension_rows (pad : list Cell) (title : string) (exts : Value)
  : option (list Row) :=
  if negb (isNull exts) && isArray exts then
    let j := 0%nat in
    rows ← mapM (λ ext : Value,
                   ext_name ← member ext "name";
                   if negb (isNull ext_name) then
                     name ← asString ext_name;
                     Some [pad ++ [el_right ("[" +:+ pretty j +:+ "]"); el name]]
                   else Some [])
                (elements exts);
    Some ((pad ++ [el title; el (pretty (size exts))]) :: concat rows)
  else Some [].

(** ** LibraryProbe and the driver manifests *)

Module Drivers.

(** [std::string::find (c) != npos]. *)
Fixpoint contains_char (c : ascii) (s : string) : bool :=
  match s with
  | EmptyString => false
  | String a r => bool_decide (a = c) || contains_char c r
  end.

Fixpoint last_char (s : string) : ascii :=
  match s with
  | EmptyString => "000"%char
  | String a EmptyString => a
  | String _ r => last_char r
  end.

(** [CheckDriver] (lines 2629-2640). *)
Definition CheckDriver (sys : System) (folder_loc object_name : string) : bool :=
  let full_name :=
    if bool_decide (last_char folder_loc ≠ "/"%char)
    then folder_loc +:+ "/" else folder_loc in
  access_R_OK sys (full_name +:+ object_name).

(** The [switch] of [FindLinuxSystemObject]: [path_to_check] for
    [iii = 0 .. 4]. *)
Definition system_library_folders (sys : System) : list string :=
  [ "/usr/lib";
    if lib64 sys then "/usr/lib/x86_64-linux-gnu" else "/usr/lib/i386-linux-gnu";
    if lib64 sys then "/usr/lib64" else "/usr/lib32";
    "/usr/local/lib";
    if lib64 sys then "/usr/local/lib64" else "/usr/local/lib32" ].

(** The [for] loop over the five folders; the last component is true
    when the loop was left by [goto out]. *)
Fixpoint find_in_folders (func : string → string → bool) (object_name : string)
    (break_on_first : bool) (folders : list string)
    (found_one : bool) (location : string) : bool * string * bool :=
  match folders with
  | [] => (found_one, location, false)
  | path_to_check :: rest =>
      if func path_to_check object_name then
        let location := path_to_check +:+ "/" +:+ object_name in
        if break_on_first then (true, location, true)
        else find_in_folders func object_name break_on_first rest true location
      else
        find_in_folders func object_name break_on_first rest found_one location
  end.

(** The [while] loop over the tokens of [LD_LIBRARY_PATH]; a token is
    never empty, so [strlen (tok) > 0] always holds. *)
Fixpoint find_in_tokens (func : string → string → bool) (object_name : string)
    (tokens : list (list ascii)) (found_one : bool) (location : string)
  : bool * string :=
  match tokens with
  | [] => (found_one, location)
  | tok :: rest =>
      let path_to_check := to_string tok in
      if (0 <? strlen tok)%nat && func path_to_check object_name then
        find_in_tokens func object_name rest true
          (path_to_check +:+ "/" +:+ object_name)
      else find_in_tokens func object_name rest found_one location
  end.

(** [FindLinuxSystemObject] (lines 2645-2714): the result, [location]
    and the environment it leaves. *)
Definition FindLinuxSystemObject (sys : System) (env : Environ)
    (object_name : string) (location : string)
    (func : string → string → bool) (break_on_first : bool)
  : bool * string * Environ :=
  let '(found_one, location, left_early) :=
    find_in_folders func object_name break_on_first
      (system_library_folders sys) false location in
  if left_early then (found_one, location, env)
  else
    let '(tokens, env) := strtok_env env "LD_LIBRARY_PATH" ":"%char in
    let '(found_one, location) :=
      find_in_tokens func object_name tokens found_one location in
    (found_one, location, env).

(** Whether the call gets to [strtok (env_value, ":")] (line 2697): the
    loop over the five folders was not left by [goto out], and
    [LD_LIBRARY_PATH] is set.  [strtok] keeps one pointer for the whole
    process; once the [while] loop of lines 2698-2709 has run to its
    end that pointer stands at the end of the value of
    [LD_LIBRARY_PATH], and a [strtok (NULL, ":")] of a caller that was
    in the middle of another text returns [NULL]. *)
Definition restarts_strtok (sys : System) (env : Environ)
    (object_name : string) (func : string → string → bool)
    (break_on_first : bool) : bool :=
  let '(_, _, left_early) :=
    find_in_folders func object_name break_on_first
      (system_library_folders sys) false "" in
  negb left_early && bool_decide (is_Some (getenv env "LD_LIBRARY_PATH")).

(** Lines 3089-3100: the generated path, then the system folders.
    Result: [found_lib], [could_load], [load_error], the environment,
    and whether [strtok] has been started on another text. *)
Definition locate_library (sys : System) (env : Environ)
    (cur_driver_json driver_name : string) (found_lib : bool)
  : bool * bool * string * Environ * bool :=
  match PathResolver.GenerateLibraryPath
          (Some (c_str cur_driver_json)) (Some (c_str driver_name))
          MAX_STRING_LENGTH with
  | Some full_driver_path =>
      let full_driver_path := to_string full_driver_path in
      if access_R_OK sys full_driver_path then
        let '(could_load, load_error) := VerifyOpen sys full_driver_path "" in
        (true, could_load, load_error, env, false)
      else if negb (contains_char "/"%char driver_name) then
        let restarted :=
          restarts_strtok sys env driver_name (CheckDriver sys) true in
        let '(found, location, env) :=
          FindLinuxSystemObject sys env driver_name "" (CheckDriver sys) true in
        if found then
          let '(could_load, load_error) := VerifyOpen sys location "" in
          (true, could_load, load_error, env, restarted)
        else (found_lib, true, "", env, restarted)
      else (found_lib, true, "", env, false)
  | None => (found_lib, true, "", env, false)
  end.

Definition ldconfig_command (driver_name : string) : string :=
  "/sbin/ldconfig -v -N -p | grep " +:+ to_string (c_str driver_name)
  +:+ " | awk '{ print $4 }'".

(** Lines 3101-3137: the [ldconfig] fallback when no library has been
    found, else the row for a library that does not load. *)
Definition ldconfig_fallback (sys : System)
    (cur_driver_json driver_name : string)
    (found_lib could_load : bool) (load_error : string) : bool * list Row :=
  if negb found_lib then
    match popen_first_line sys (ldconfig_command driver_name) with
    | None =>
        (found_lib,
         [[el ""; el "";
           el (snprintf (MAX_STRING_LENGTH - 1)
                 ("Failed to find driver " +:+ to_string (c_str driver_name)
                  +:+ " referenced by JSON "
                  +:+ to_string (c_str cur_driver_json)))]])
    | Some (Some query_res) =>
        (true, [[el ""; el ""; el ("Found at " +:+ query_res)]])
    | Some None => (found_lib, [])
    end
  else if negb could_load then
    (found_lib, [[el ""; el "FAILED TO LOAD!"; el load_error]])
  else (found_lib, []).

(** The row printed when the manifest has no ["ICD"] member. *)
Definition missing_ICD_section_row : Row :=
  [el ""; el "ICD Section"; el "MISSING!"].

(** [ReadDriverJson] (lines 3017-3205).  Result: the returned
    [found_json], [found_lib] as the call leaves it, the environment,
    whether [strtok] has been started on another text, and the rows
    written. *)
Definition ReadDriverJson (sys : System) (env : Environ)
    (cur_driver_json : string) (found_lib : bool)
  : option (bool * bool * Environ * bool * list Row) :=
  match json_file sys cur_driver_json with
  | Unreadable =>
      Some (false, found_lib, env, false,
            [[el ""; el "Error reading JSON file"; el cur_driver_json]])
  | Malformed messages =>
      Some (false, found_lib, env, false,
            [[el ""; el "Error reading JSON file"; el messages]])
  | Document root =>
      if isNull root then
        Some (false, found_lib, env, false,
              [[el ""; el "Error reading JSON file"; el ""]])
      else
        file_format_version ← member root "file_format_version";
        version ← shown_or_missing file_format_version;
        let version_row := [el ""; el "JSON File Version"; el version] in
        ICD ← member root "ICD";
        if isNull ICD then
          Some (false, found_lib, env, false,
                [version_row; missing_ICD_section_row])
        else
          api_version ← member ICD "api_version";
          api ← shown_or_missing api_version;
          let api_row := [el ""; el "API Version"; el api] in
          library_path ← member ICD "library_path";
          '(found_lib, env, restarted, library_rows) ←
            (if negb (isNull library_path) then
               driver_name ← asString library_path;
               let '(found_lib, could_load, load_error, env, restarted) :=
                 locate_library sys env cur_driver_json driver_name found_lib in
               let '(found_lib, rows) :=
                 ldconfig_fallback sys cur_driver_json driver_name
                   found_lib could_load load_error in
               Some (found_lib, env, restarted,
                     [el ""; el "Library Path"; el driver_name] :: rows)
             else
               Some (found_lib, env, false,
                     [[el ""; el "Library Path"; el "MISSING!"]]));
          dev_exts ← member ICD "device_extensions";
          dev_rows ← extension_rows [el ""] "Device Extensions" dev_exts;
          inst_exts ← member ICD "instance_extensions";
          inst_rows ← extension_rows [el ""] "Instance Extensions" inst_exts;
          Some (true, found_lib, env, restarted,
                [version_row; api_row] ++ library_rows ++ dev_rows ++ inst_rows)
  end.

(** The locals of [PrintDriverInfo] that its loops update, the
    environment, and [strtok_left]: whether [strtok] has been started
    on another text since the loop under way made its own call. *)
Record DriverScan : Type := {
  found_json : bool;
  found_lib : bool;
  found_this_lib : bool;
  scan_env : Environ;
  strtok_left : bool;
  scan_rows : list Row
}.

(** [if (ReadDriverJson (json, found_this_lib)) { found_json = true;
    found_lib |= found_this_lib; }] (lines 3307-3310, 3335-3338 and
    3355-3358). *)
Definition read_driver (sys : System) (json : string) (st : DriverScan)
  : option DriverScan :=
  match ReadDriverJson sys (scan_env st) json (found_this_lib st) with
  | Some (ok, this_lib, env, restarted, rows) =>
      Some {| found_json := if ok then true else found_json st;
              found_lib := if ok then found_lib st || this_lib else found_lib st;
              found_this_lib := this_lib;
              scan_env := env;
              strtok_left := strtok_left st || restarted;
              scan_rows := scan_rows st ++ rows |}
  | None => None
  end.

Definition add_rows (rows : list Row) (st : DriverScan) : DriverScan :=
  {| found_json := found_json st; found_lib := found_lib st;
     found_this_lib := found_this_lib st; scan_env := scan_env st;
     strtok_left := strtok_left st;
     scan_rows := scan_rows st ++ rows |}.

(** The state once [strtok (icd_env_value, ":")] has been called (line
    3327): the environment that the call leaves, and [strtok] in the
    value of [VK_ICD_FILENAMES]. *)
Definition strtok_begun (env : Environ) (st : DriverScan) : DriverScan :=
  {| found_json := found_json st; found_lib := found_lib st;
     found_this_lib := found_this_lib st; scan_env := env;
     strtok_left := false;
     scan_rows := scan_rows st |}.

(** The [while ((cur_ent = readdir (driver_dir)) != NULL)] loop of one
    folder (lines 3296-3312); [i] numbers the manifests of the folder. *)
Fixpoint scan_entries (sys : System) (folder : string) (entries : list string)
    (i : nat) (st : DriverScan) : option DriverScan :=
  match entries with
  | [] => Some st
  | d_name :: rest =>
      if strstr (buf d_name) (buf ".json") then
        let generic_string := "[" +:+ pretty i +:+ "]" in
        let cur_vulkan_driver_json :=
          snprintf (MAX_STRING_LENGTH - 1) (folder +:+ "/" +:+ d_name) in
        st ← read_driver sys cur_vulkan_driver_json
               (add_rows [[el_right generic_string; el d_name; el ""]] st);
        scan_entries sys folder rest (S i) st
      else scan_entries sys folder rest i st
  end.

(** The [for] loop over [driver_paths] (lines 3259-3313); [dir] is the
    index of the first folder of [folders]. *)
Fixpoint scan_folders (sys : System) (drivers_path_index : option nat)
    (drivers_env_value : string) (folders : list string) (dir : nat)
    (st : DriverScan) : option DriverScan :=
  match folders with
  | [] => Some st
  | folder :: rest =>
      let st :=
        if bool_decide (dir = 0%nat) then
          add_rows [[el "Standard Paths"; el ""; el ""]] st
        else if bool_decide (drivers_path_index = Some dir) then
          add_rows [[el "VK_DRIVERS_PATH"; el drivers_env_value; el ""]] st
        else st in
      st ←
        match readdir_all sys folder with
        | None =>
            Some (add_rows [[el_right folder; el "No such folder"; el ""]] st)
        | Some entries =>
            scan_entries sys folder entries 0
              (add_rows [[el_right folder; el ""; el ""]] st)
        end;
      scan_folders sys drivers_path_index drivers_env_value rest (S dir) st
  end.

(** One file named by [VK_ICD_FILENAMES] (lines 3329-3345, 3349-3365). *)
Definition scan_icd_file (sys : System) (tok : string) (st : DriverScan)
  : option DriverScan :=
  if access_R_OK sys tok then
    read_driver sys tok (add_rows [[el_right tok; el ""; el ""]] st)
  else Some (add_rows [[el_right tok; el "No such file"; el ""]] st).

(** The [while (tok != NULL)] loop of lines 3329-3347 over the tokens
    that are still to come.  [tok = strtok (NULL, ":")] at its end
    gives the next of them as long as [strtok] is still in the value
    of [VK_ICD_FILENAMES]; once [ReadDriverJson] has started [strtok]
    on [LD_LIBRARY_PATH] it gives [NULL], and the files that follow
    are not looked at. *)
Fixpoint scan_icd_files (sys : System) (toks : list string) (st : DriverScan)
  : option DriverScan :=
  match toks with
  | [] => Some st
  | tok :: rest =>
      st ← scan_icd_file sys tok st;
      if strtok_left st then Some st else scan_icd_files sys rest st
  end.

(** The folders of [driver_paths] before [VK_DRIVERS_PATH] is looked at. *)
Definition standard_driver_paths (env : Environ) : list string :=
  [ "/etc/vulkan/icd.d"; "/usr/share/vulkan/icd.d";
    "/usr/local/etc/vulkan/icd.d"; "/usr/local/share/vulkan/icd.d";
    match getenv env "HOME" with
    | None => "~/.local/share/vulkan/icd.d"
    | Some home_env_value =>
        to_string home_env_value +:+ "/.local/share/vulkan/icd.d"
    end ].

(** The tokens of a path list, or the value itself when [strtok] finds
    no token in it. *)
Definition tokens_or_value (value : list ascii) (tokens : list (list ascii))
  : list string :=
  match tokens with
  | [] => [to_string value]
  | _ => to_string <$> tokens
  end.

Definition driver_verdict (found_json found_lib : bool) : ErrorResults :=
  if negb found_json then MISSING_DRIVER_JSON
  else if negb found_lib then MISSING_DRIVER_LIB
  else SUCCESSFUL.

(** Lines 3225-3256: [driver_paths], [drivers_path_index], and the
    environment once [VK_DRIVERS_PATH] has been tokenised. *)
Definition driver_search_paths (env : Environ)
  : option nat * list string * Environ :=
  let driver_paths := standard_driver_paths env in
  match getenv env "VK_DRIVERS_PATH" with
  | Some drivers_env_value =>
      let '(tokens, env) := strtok_env env "VK_DRIVERS_PATH" ":"%char in
      (Some (length driver_paths),
       driver_paths ++ tokens_or_value drivers_env_value tokens, env)
  | None => (None, driver_paths, env)
  end.

(** Lines 3315-3367: the files named by [VK_ICD_FILENAMES].  [tokens]
    are what [strtok] gives one call after the other as long as it
    stays in that value, which nothing else writes to. *)
Definition scan_icd_filenames (sys : System) (st : DriverScan)
  : option DriverScan :=
  match getenv (scan_env st) "VK_ICD_FILENAMES" with
  | Some icd_env_value =>
      let st :=
        add_rows [[el "VK_ICD_FILENAMES"; el (to_string icd_env_value); el ""]]
          st in
      let '(tokens, env) :=
        strtok_env (scan_env st) "VK_ICD_FILENAMES" ":"%char in
      scan_icd_files sys (tokens_or_value icd_env_value tokens)
        (strtok_begun env st)
  | None => Some st
  end.

(** [PrintDriverInfo] (lines 3209-3378).  The header row of
    [VK_DRIVERS_PATH] shows the value as [strtok] has left it. *)
Definition PrintDriverInfo (sys : System) (env : Environ)
  : option (ErrorResults * Environ * list Row) :=
  let '(drivers_path_index, driver_paths, env) := driver_search_paths env in
  let drivers_env_value :=
    default "" (to_string <$> getenv env "VK_DRIVERS_PATH") in
  st ← scan_folders sys drivers_path_index drivers_env_value driver_paths 0
         {| found_json := false; found_lib := false; found_this_lib := false;
            scan_env := env; strtok_left := false; scan_rows := [] |};
  st ← scan_icd_filenames sys st;
  Some (driver_verdict (found_json st) (found_lib st), scan_env st, scan_rows st).

End Drivers.

(** ** Layer manifests and the EnablementEvaluator *)

Module Layers.

(** [PrintExplicitLayerJsonInfo] (lines 4449-4623, without the
    [_WIN32] block). *)
Definition PrintExplicitLayerJsonInfo (layer_json_filename : list ascii)
    (root : Value) : option (list Row) :=
  layer ← member root "layer";
  if negb (isNull layer) then
    name ← member layer "name" ≫= shown_or_missing;
    description ← member layer "description" ≫= shown_or_missing;
    api_version ← member layer "api_version" ≫= shown_or_missing;
    file_format_version ← member root "file_format_version" ≫= shown_or_missing;
    let head :=
      [ [el ""; el ""; el "Name"; el name];
        [el ""; el ""; el "Description"; el description];
        [el ""; el ""; el "API Version"; el api_version];
        [el ""; el ""; el "JSON File Version"; el file_format_version] ] in
    component_layers ← member layer "component_layers";
    library_path ← member layer "library_path";
    rows ←
      (if negb (isNull component_layers) && negb (isNull library_path) then
         Some [[el ""; el ""; el "Library Path / Component Layers";
                el "BOTH DEFINED!"]]
       else if negb (isNull library_path) then
         path ← asString library_path;
         dev_exts ← member layer "device_extensions";
         dev_rows ← extension_rows [el ""; el ""] "Device Extensions" dev_exts;
         inst_exts ← member layer "instance_extensions";
         inst_rows ←
           extension_rows [el ""; el ""] "Instance Extensions" inst_exts;
         Some ([el ""; el ""; el "Library Path"; el path]
               :: dev_rows ++ inst_rows)
       else if negb (isNull component_layers) then
         if isArray component_layers then
           names ← mapM asString (elements component_layers);
           Some ([el ""; el ""; el "Component Layers";
                  el (pretty (size component_layers))]
                 :: ((λ n, [el ""; el ""; el ""; el_right n]) <$> names))
         else
           Some [[el ""; el ""; el "Component Layers"; el "NOT AN ARRAY!"]]
       else
         Some [[el ""; el ""; el "Library Path / Component Layers";
                el "MISSING!"]]);
    Some (head ++ rows)
  else
    Some [[el ""; el "Layer Section"; el "MISSING!"; el ""]].

(** [struct override_expiration]: a [uint16_t] and four [uint8_t]. *)
Record override_expiration : Set := {
  year : Z; month : Z; day : Z; hour : Z; minute : Z
}.

(** [checkExpiration] (lines 4633-4665, the [#else] branch); the
    result is the local [still_valid]. *)
Definition checkExpiration (now : tm) (expiration : override_expiration)
  : bool :=
  let year_now := wrap_unsigned 16 (tm_year now + 1900) in
  let month_now := wrap_unsigned 8 (tm_mon now + 1) in
  let day_now := wrap_unsigned 8 (tm_mday now) in
  let hour_now := wrap_unsigned 8 (tm_hour now) in
  let minute_now := wrap_unsigned 8 (tm_min now) in
  (year_now <? year expiration) || (month_now <? month expiration)
  || (day_now <? day expiration) || (hour_now <? hour expiration)
  || (minute_now <? minute expiration).

(** The [switch (cur_item)] of the date parser. *)
Definition set_item (cur_item : nat) (value : Z) (e : override_expiration)
  : override_expiration :=
  match cur_item with
  | 0%nat => {| year := wrap_unsigned 16 value; month := month e; day := day e;
                hour := hour e; minute := minute e |}
  | 1%nat => {| year := year e; month := wrap_unsigned 8 value; day := day e;
                hour := hour e; minute := minute e |}
  | 2%nat => {| year := year e; month := month e; day := wrap_unsigned 8 value;
                hour := hour e; minute := minute e |}
  | 3%nat => {| year := year e; month := month e; day := day e;
                hour := wrap_unsigned 8 value; minute := minute e |}
  | 4%nat => {| year := year e; month := month e; day := day e;
                hour := hour e; minute := wrap_unsigned 8 value |}
  | _ => e
  end.

(** The [while (cur_item < 5 && strlen (cur_start))] loop (lines
    4771-4799).  [cur_start] is the text from that pointer to the end
    of [date_copy], [next_dash] the offset of the next dash in it;
    [*next_dash = '\0'] makes the text before the dash the number
    [atoi] reads.  [rounds] bounds the iterations; the loop makes at
    most 5. *)
Fixpoint parse_items (rounds cur_item : nat) (cur_start : list ascii)
    (next_dash : option nat) (e : override_expiration) : override_expiration :=
  match rounds with
  | O => e
  | S rounds =>
      if (cur_item <? 5)%nat && (0 <? strlen cur_start)%nat then
        let field :=
          match next_dash with
          | Some d => take d cur_start
          | None => cur_start
          end in
        let e := set_item cur_item (atoi field) e in
        match next_dash with
        | Some d =>
            let cur_start := drop (S d) cur_start in
            parse_items rounds (S cur_item) cur_start
              (strchr cur_start "-"%char) e
        | None => parse_items rounds (S cur_item) cur_start None e
        end
      else e
  end.

(** Lines 4764-4800: [expiration = {}] and the parse of [date_copy]. *)
Definition parse_expiration (date_copy : list ascii) : override_expiration :=
  let zero := {| year := 0; month := 0; day := 0; hour := 0; minute := 0 |} in
  match strchr date_copy "-"%char with
  | Some d => parse_items 5 0 date_copy (Some d) zero
  | None => zero
  end.

Definition expiration_string (e : override_expiration) : string :=
  pretty (year e) +:+ "/" +:+ pretty (month e) +:+ "/" +:+ pretty (day e)
  +:+ " " +:+ pretty (hour e) +:+ ":" +:+ pretty (minute e).

(** The locals of [PrintImplicitLayerJsonInfo] that carry the state of
    the layer. *)
Record LayerFlags : Set := {
  enabled : bool;
  expired : bool;
  enable_env_variable : string;
  enable_var_set : bool;
  disable_env_variable : string;
  disable_var_set : bool;
  disable_env_value : list ascii
}.

(** Lines 4675-4682. *)
Definition initial_flags : LayerFlags :=
  {| enabled := true; expired := false;
     enable_env_variable := "--NONE--"; enable_var_set := false;
     disable_env_variable := "--NONE--"; disable_var_set := false;
     disable_env_value := [] |}.

(** The first iterator position whose key is not null; the loops at
    lines 4712 and 4738 [break] after it. *)
Fixpoint first_key (keys : list Value) : option Value :=
  match keys with
  | [] => None
  | k :: rest => if isNull k then first_key rest else Some k
  end.

(** [getenv] and the copy into a [char[16]]: [strncpy (buffer, value,
    15); buffer[15] = '\0']. *)
Definition env_value_copy (env : Environ) (name : string)
  : option (list ascii) :=
  (λ value, strncpy value 15) <$> getenv env (to_string (c_str name)).

(** Lines 4710-4734: the enable toggle. *)
Definition enable_block (env : Environ) (enable : Value) (fl : LayerFlags)
  : option LayerFlags :=
  if negb (isNull enable) then
    match first_key (keys enable) with
    | Some key =>
        name ← asString key;
        let set :=
          match env_value_copy env name with
          | Some enable_env_value => bool_decide (atoi enable_env_value ≠ 0)
          | None => false
          end in
        Some {| enabled := set; expired := expired fl;
                enable_env_variable := name; enable_var_set := set;
                disable_env_variable := disable_env_variable fl;
                disable_var_set := disable_var_set fl;
                disable_env_value := disable_env_value fl |}
    | None => Some fl
    end
  else Some fl.

(** Lines 4736-4758: the disable toggle. *)
Definition disable_block (env : Environ) (disable : Value) (fl : LayerFlags)
  : option LayerFlags :=
  if negb (isNull disable) then
    match first_key (keys disable) with
    | Some key =>
        name ← asString key;
        let value := env_value_copy env name in
        let set :=
          match value with
          | Some disable_env_value => bool_decide (0 < atoi disable_env_value)
          | None => false
          end in
        Some {| enabled := if set then false else enabled fl;
                expired := expired fl;
                enable_env_variable := enable_env_variable fl;
                enable_var_set := enable_var_set fl;
                disable_env_variable := name; disable_var_set := set;
                disable_env_value := default (disable_env_value fl) value |}
    | None => Some fl
    end
  else Some fl.

(** Lines 4760-4821: the expiration.  [date_copy] has 32 bytes; for a
    text of 32 characters or more [strncpy] leaves it unterminated, and
    [strlen] then counts at least those 32. *)
Definition expiration_block (now : tm) (expiration_json : Value)
    (fl : LayerFlags) : option (LayerFlags * list Row) :=
  if negb (isNull expiration_json) then
    text ← asString expiration_json;
    let date_copy := strncpy (c_str text) 32 in
    if bool_decide (strlen date_copy = 16%nat) then
      let expiration := parse_expiration date_copy in
      let fl :=
        if enabled fl then
          let still_valid := checkExpiration now expiration in
          {| enabled := still_valid; expired := still_valid;
             enable_env_variable := enable_env_variable fl;
             enable_var_set := enable_var_set fl;
             disable_env_variable := disable_env_variable fl;
             disable_var_set := disable_var_set fl;
             disable_env_value := disable_env_value fl |}
        else fl in
      Some (fl, [[el ""; el "Expiration"; el (expiration_string expiration);
                  el ""]])
    else Some (fl, [])
  else Some (fl, []).

(** The text of the "Enabled State" cell (line 4829). *)
Definition enabled_state (fl : LayerFlags) : string :=
  if expired fl then "EXPIRED"
  else if enabled fl then "ENABLED" else "DISABLED".

(** Lines 4823-4850. *)
Definition state_rows (fl : LayerFlags) : list Row :=
  [ [el ""; el ""; el "Enabled State"; el (enabled_state fl)];
    [el ""; el_right "Enable Env Var"; el (enable_env_variable fl);
     el (if enable_var_set fl then "" else "Not Defined")];
    [el ""; el_right "Disable Env Var"; el (disable_env_variable fl);
     el (if disable_var_set fl then to_string (disable_env_value fl)
         else "Not Defined")] ].

(** Lines 4686-4708: the override paths of the manifest are appended
    to [override_paths]. *)
Definition override_block (override_paths_json : Value)
    (override_paths : list string) : option (list string * list Row) :=
  if negb (isNull override_paths_json) && isArray override_paths_json then
    paths ← mapM asString (elements override_paths_json);
    let combined_paths :=
      match paths with
      | [] => ""
      | p :: rest => fold_left (λ acc q, acc +:+ ":" +:+ q) rest p
      end in
    Some (override_paths ++ paths,
          [[el ""; el "Override Paths"; el (pretty (length paths));
            el combined_paths]])
  else Some (override_paths, []).

(** The state once both toggles have been looked at: the flags with
    which the expiration begins. *)
Definition toggle_flags (env : Environ) (root : Value) : option LayerFlags :=
  layer ← member root "layer";
  enable ← member layer "enable_environment";
  fl ← enable_block env enable initial_flags;
  disable ← member layer "disable_environment";
  disable_block env disable fl.

(** The flags at the end of [PrintImplicitLayerJsonInfo], and the rows
    of its expiration block. *)
Definition evaluate (env : Environ) (now : tm) (root : Value)
  : option (LayerFlags * list Row) :=
  fl ← toggle_flags env root;
  layer ← member root "layer";
  expiration_json ← member layer "expiration";
  expiration_block now expiration_json fl.

(** [PrintImplicitLayerJsonInfo] (lines 4674-4851): the rows, and
    [override_paths] as the call leaves it. *)
Definition PrintImplicitLayerJsonInfo (env : Environ) (now : tm)
    (layer_json_filename : list ascii) (root : Value)
    (override_paths : list string) : option (list Row * list string) :=
  explicit_rows ← PrintExplicitLayerJsonInfo layer_json_filename root;
  layer ← member root "layer";
  override_paths_json ← member layer "override_paths";
  '(override_paths, override_rows) ←
    override_block override_paths_json override_paths;
  '(fl, expiration_rows) ← evaluate env now root;
  Some (explicit_rows ++ override_rows ++ expiration_rows ++ state_rows fl,
        override_paths).

End Layers.

(** ** Discovery of the layers: [PrintLayerInfo] *)

Module LayerDiscovery.

Import Layers.

(** The locals of [PrintExplicitLayersInFolder] that its loop updates. *)
Record FolderScan : Type := {
  folder_i : nat;
  folder_res : ErrorResults;
  folder_found_json : bool;
  folder_rows : list Row
}.

(** The [readdir] loop of [PrintExplicitLayersInFolder] (lines
    3592-3642). *)
Fixpoint explicit_entries (sys : System) (folder_loc : string)
    (entries : list string) (st : FolderScan) : option FolderScan :=
  match entries with
  | [] => Some st
  | d_name :: rest =>
      if strstr (buf d_name) (buf ".json") then
        let generic_string :=
          snprintf (MAX_STRING_LENGTH - 1) ("[" +:+ pretty (folder_i st) +:+ "]") in
        let cur_layer := folder_loc +:+ "/" +:+ d_name in
        let report res rows :=
          {| folder_i := S (folder_i st); folder_res := res;
             folder_found_json := true;
             folder_rows := folder_rows st ++ rows |} in
        st ←
          match json_file sys cur_layer with
          | Unreadable =>
              Some (report MISSING_LAYER_JSON
                      [[el ""; el_right generic_string; el d_name;
                        el "ERROR reading JSON file!"]])
          | Malformed messages =>
              Some (report LAYER_JSON_PARSING_ERROR
                      [[el ""; el_right generic_string; el d_name; el messages]])
          | Document root =>
              if isNull root then
                Some (report LAYER_JSON_PARSING_ERROR
                        [[el ""; el_right generic_string; el d_name; el ""]])
              else
                rows ← PrintExplicitLayerJsonInfo (c_str cur_layer) root;
                Some (report (folder_res st)
                        ([el ""; el_right generic_string; el d_name; el ""]
                         :: rows))
          end;
        explicit_entries sys folder_loc rest st
      else explicit_entries sys folder_loc rest st
  end.

(** [PrintExplicitLayersInFolder] (lines 3572-3662). *)
Definition PrintExplicitLayersInFolder (sys : System) (id folder_loc : string)
  : option (ErrorResults * list Row) :=
  match readdir_all sys folder_loc with
  | Some entries =>
      st ← explicit_entries sys folder_loc entries
             {| folder_i := 0; folder_res := SUCCESSFUL;
                folder_found_json := false;
                folder_rows := [[el ""; el_right id; el folder_loc; el ""]] |};
      Some (folder_res st,
            if folder_found_json st then folder_rows st
            else folder_rows st
                 ++ [[el ""; el_right id; el folder_loc;
                      el "No JSON files found"]])
  | None =>
      Some (SUCCESSFUL,
            [[el ""; el_right id; el folder_loc; el "No such folder"]])
  end.

(** The locals of [PrintLayerInfo] that the implicit-layer loops
    update. *)
Record ImplicitScan : Type := {
  implicit_i : nat;
  implicit_res : ErrorResults;
  override_search_paths : list string;
  implicit_rows : list Row
}.

(** The [readdir] loop over one folder of implicit layers (lines
    3971-4015). *)
Fixpoint implicit_entries (sys : System) (env : Environ)
    (cur_layer_path : string) (entries : list string) (st : ImplicitScan)
  : option ImplicitScan :=
  match entries with
  | [] => Some st
  | d_name :: rest =>
      if strstr (buf d_name) (buf ".json") then
        let generic_string :=
          snprintf (MAX_STRING_LENGTH - 1)
            ("[" +:+ pretty (implicit_i st) +:+ "]") in
        let cur_vulkan_layer_json :=
          snprintf (MAX_STRING_LENGTH - 1) (cur_layer_path +:+ "/" +:+ d_name) in
        let head := [el_right generic_string; el d_name; el ""; el ""] in
        let report res paths rows :=
          {| implicit_i := S (implicit_i st); implicit_res := res;
             override_search_paths := paths;
             implicit_rows := implicit_rows st ++ head :: rows |} in
        st ←
          match json_file sys cur_vulkan_layer_json with
          | Unreadable =>
              Some (report MISSING_LAYER_JSON (override_search_paths st)
                      [[el ""; el "ERROR reading JSON file!"; el ""; el ""]])
          | Malformed messages =>
              Some (report LAYER_JSON_PARSING_ERROR (override_search_paths st)
                      [[el ""; el "ERROR parsing JSON file!"; el messages; el ""]])
          | Document root =>
              if isNull root then
                Some (report LAYER_JSON_PARSING_ERROR (override_search_paths st)
                        [[el ""; el "ERROR parsing JSON file!"; el ""; el ""]])
              else
                '(rows, paths) ←
                  PrintImplicitLayerJsonInfo env (localtime_now sys)
                    (c_str cur_vulkan_layer_json) root
                    (override_search_paths st);
                Some (report (implicit_res st) paths rows)
          end;
        implicit_entries sys env cur_layer_path rest st
      else implicit_entries sys env cur_layer_path rest st
  end.

(** The five folders of implicit layers (lines 3937-3961). *)
Definition implicit_layer_paths (env : Environ) : list string :=
  [ "/etc/vulkan/implicit_layer.d"; "/usr/share/vulkan/implicit_layer.d";
    "/usr/local/etc/vulkan/implicit_layer.d";
    "/usr/local/share/vulkan/implicit_layer.d";
    match getenv env "HOME" with
    | None => "~/.local/share/vulkan/implicit_layer.d"
    | Some home => to_string home +:+ "/.local/share/vulkan/implicit_layer.d"
    end ].

(** The [for] loop over the folders of implicit layers (lines
    3935-4025). *)
Fixpoint implicit_folders (sys : System) (env : Environ)
    (folders : list string) (st : ImplicitScan) : option ImplicitScan :=
  match folders with
  | [] => Some st
  | cur_layer_path :: rest =>
      let with_rows rows :=
        {| implicit_i := implicit_i st; implicit_res := implicit_res st;
           override_search_paths := override_search_paths st;
           implicit_rows := implicit_rows st ++ rows |} in
      st ←
        match readdir_all sys cur_layer_path with
        | Some entries =>
            implicit_entries sys env cur_layer_path entries
              (with_rows [[el_right cur_layer_path; el ""; el ""; el ""]])
        | None =>
            Some (with_rows [[el_right cur_layer_path;
                              el "Directory does not exist"; el ""; el ""]])
        end;
      implicit_folders sys env rest st
  end.

(** The first half of [PrintLayerInfo] (lines 3930-4026): the table of
    implicit layers, which accumulates [override_search_paths]. *)
Definition implicit_pass (sys : System) (env : Environ) : option ImplicitScan :=
  implicit_folders sys env (implicit_layer_paths env)
    {| implicit_i := 0; implicit_res := SUCCESSFUL;
       override_search_paths := []; implicit_rows := [] |}.

(** [res = PrintExplicitLayersInFolder (id, folder)] for each folder in
    turn; the result of each call overwrites [res]. *)
Fixpoint explicit_folders (sys : System) (folders : list (string * string))
    (res : ErrorResults) : option (ErrorResults * list Row) :=
  match folders with
  | [] => Some (res, [])
  | (id, folder_loc) :: rest =>
      '(res, rows) ← PrintExplicitLayersInFolder sys id folder_loc;
      '(res, more) ← explicit_folders sys rest res;
      Some (res, rows ++ more)
  end.

(** The folders named by [VK_LAYER_PATH], with their ids (lines
    4060-4074). *)
Definition layer_path_folders (value : list ascii) (tokens : list (list ascii))
  : list (string * string) :=
  match tokens with
  | [] => [("VK_LAYER_PATH", to_string value)]
  | _ => imap (λ offset tok, ("Path " +:+ pretty offset, to_string tok)) tokens
  end.

(** The well-known folders of explicit layers, with their ids (lines
    4086-4123). *)
Definition standard_explicit_folders (env : Environ) : list (string * string) :=
  [ ("/etc/vulkan", "/etc/vulkan/explicit_layer.d");
    ("/usr/share/vulkan", "/usr/share/vulkan/explicit_layer.d");
    ("/usr/local/etc/vulkan", "/usr/local/etc/vulkan/explicit_layer.d");
    ("/usr/local/share/vulkan", "/usr/local/share/vulkan/explicit_layer.d");
    ("$HOME/.local/share/vulkan/explicit_layer.d",
     match getenv env "HOME" with
     | None => "~/.local/share/vulkan/explicit_layer.d"
     | Some home => to_string home +:+ "/.local/share/vulkan/explicit_layer.d"
     end) ].

Definition override_header : Row := [el "Override Paths"; el ""; el ""; el ""].
Definition layer_path_header : Row := [el "VK_LAYER_PATH"; el ""; el ""; el ""].
Definition standard_header : Row := [el "Standard Paths"; el ""; el ""; el ""].

(** The folders given by the override paths, all with the id
    ["Override"] (lines 4031-4044). *)
Definition override_folders (override_search_paths : list string)
  : list (string * string) :=
  (λ path, ("Override", path)) <$> override_search_paths.

(** Lines 4046-4075: the folders named by [VK_LAYER_PATH]. *)
Definition layer_path_pass (sys : System) (env : Environ) (res : ErrorResults)
  : option (ErrorResults * Environ * list Row) :=
  match getenv env "VK_LAYER_PATH" with
  | Some env_value =>
      let '(tokens, env) := strtok_env env "VK_LAYER_PATH" ":"%char in
      '(res, rows) ←
        explicit_folders sys (layer_path_folders env_value tokens) res;
      Some (res, env, layer_path_header :: rows)
  | None => Some (res, env, [])
  end.

(** The second half of [PrintLayerInfo] (lines 4028-4127): the table of
    explicit layers. *)
Definition explicit_pass (sys : System) (env : Environ)
    (override_search_paths : list string) (res : ErrorResults)
  : option (ErrorResults * Environ * list Row) :=
  '(res, override_rows) ←
    (if bool_decide (length override_search_paths ≠ 0%nat) then
       '(res, rows) ←
         explicit_folders sys (override_folders override_search_paths) res;
       Some (res, override_header :: rows)
     else Some (res, []));
  '(res, env, layer_path_rows) ← layer_path_pass sys env res;
  '(res, standard_rows) ←
    explicit_folders sys (standard_explicit_folders env) res;
  Some (res, env,
        override_rows ++ layer_path_rows ++ standard_header :: standard_rows).

(** [PrintLayerInfo] (lines 3918-4128). *)
Definition PrintLayerInfo (sys : System) (env : Environ)
  : option (ErrorResults * Environ * list Row) :=
  st ← implicit_pass sys env;
  '(res, env, rows) ←
    explicit_pass sys env (override_search_paths st) (implicit_res st);
  Some (res, env, implicit_rows st ++ rows).

End LayerDiscovery.

(** ** SettingsFileReader *)

Module Settings.

Record SettingPair : Set := { name : string; value : string }.

Global Instance SettingPair_eq_dec : EqDecision SettingPair.
Proof. solve_decision. Defined.

Definition default_whitespace : string :=
  String " " (String "009" (String "010" (String "013" EmptyString))).

Definition in_set (set : string) (c : ascii) : bool :=
  Drivers.contains_char c set.

(** [str.find_first_not_of (whitespace)]; [None] is [npos]. *)
Fixpoint find_first_not_of (str whitespace : string) : option nat :=
  match str with
  | EmptyString => None
  | String c r =>
      if in_set whitespace c then S <$> find_first_not_of r whitespace
      else Some 0%nat
  end.

(** [str.find_last_not_of (whitespace)]. *)
Fixpoint find_last_not_of (str whitespace : string) : option nat :=
  match str with
  | EmptyString => None
  | String c r =>
      match find_last_not_of r whitespace with
      | Some i => Some (S i)
      | None => if in_set whitespace c then None else Some 0%nat
      end
  end.

(** [str.find (c)] for a one-character pattern. *)
Fixpoint find (c : ascii) (str : string) : option nat :=
  match str with
  | EmptyString => None
  | String a r => if decide (a = c) then Some 0%nat else S <$> find c r
  end.

(** [str.substr (pos, npos)]. *)
Definition substr_from (pos : nat) (str : string) : string :=
  String.substring pos (String.length str - pos) str.

(** [TrimWhitespace] (lines 4171-4181). *)
Definition TrimWhitespace (str whitespace : string) : string :=
  match find_first_not_of str whitespace with
  | None => ""
  | Some strBegin =>
      let strEnd := default 0%nat (find_last_not_of str whitespace) in
      let strRange := (strEnd - strBegin + 1)%nat in
      String.substring strBegin strRange str
  end.

Definition is_comment (trimmed_line : string) : bool :=
  match trimmed_line with
  | String c _ => bool_decide (c = "#"%char)
  | EmptyString => false
  end.

(** The body of the [while] loop (lines 4209-4254) for one line. *)
Definition settings_line (cur_line : string)
    (settings : gmap string (list SettingPair))
  : gmap string (list SettingPair) :=
  let trimmed_line := TrimWhitespace cur_line default_whitespace in
  if (String.length trimmed_line =? 0)%nat || is_comment trimmed_line
  then settings
  else
    match find "="%char trimmed_line with
    | None => settings
    | Some equal_loc =>
        let before_equal := String.substring 0 equal_loc trimmed_line in
        let after_equal := substr_from (equal_loc + 1) trimmed_line in
        let new_value := TrimWhitespace after_equal default_whitespace in
        let trimmed_setting := TrimWhitespace before_equal default_whitespace in
        let '(setting_layer, setting_name) :=
          match find "."%char trimmed_setting with
          | None => ("--None--", trimmed_setting)
          | Some period_loc =>
              (String.substring 0 period_loc trimmed_setting,
               substr_from (period_loc + 1) trimmed_setting)
          end in
        let new_pair := {| name := setting_name; value := new_value |} in
        match settings !! setting_layer with
        | None => <[setting_layer := [new_pair]]> settings
        | Some cur_vector => <[setting_layer := cur_vector ++ [new_pair]]> settings
        end
    end.

(** A pair appended to the vector of its bucket, which is created when
    it is not there yet (lines 4245-4254). *)
Definition append_setting (setting_layer : string) (new_pair : SettingPair)
    (settings : gmap string (list SettingPair))
  : gmap string (list SettingPair) :=
  <[setting_layer := default [] (settings !! setting_layer) ++ [new_pair]]>
    settings.

(** The lines that [getline] yields while the stream is good: the
    pieces between line feeds, the piece after the last one included. *)
Fixpoint getlines (content : string) : list string :=
  match content with
  | EmptyString => [""]
  | String c r =>
      if decide (c = "010"%char) then "" :: getlines r
      else
        match getlines r with
        | cur_line :: rest => String c cur_line :: rest
        | [] => [String c ""]
        end
  end.

(** The [while (settings_stream->good ())] loop (lines 4208-4255). *)
Definition parse (content : string) : gmap string (list SettingPair) :=
  fold_left (λ settings cur_line, settings_line cur_line settings)
    (getlines content) ∅.

(** The buckets in the order of the [std::map]. *)
Definition buckets_in_order (settings : gmap string (list SettingPair))
  : list (string * list SettingPair) :=
  merge_sort (λ a b, String.le a.1 b.1) (map_to_list settings).

(** [PrintSettingsJsonInfo] (lines 4183-4281). *)
Definition PrintSettingsJsonInfo (sys : System) (settings_file : string)
  : list Row :=
  match text_file sys settings_file with
  | None =>
      [[el ""; el settings_file; el "Failed to open settings file"; el ""]]
  | Some content =>
      [el ""; el settings_file; el ""; el ""]
      :: concat
           ((λ bucket : string * list SettingPair,
               [el ""; el_right bucket.1; el ""; el ""]
               :: ((λ pair, [el ""; el ""; el (name pair); el (value pair)])
                   <$> bucket.2))
            <$> buckets_in_order (parse content))
  end.

Definition settings_file_name : string := "vk_layer_settings.txt".

(** [PrintLayerSettingsFileInfo] (lines 4286-4446, the [#else]
    branch). *)
Definition PrintLayerSettingsFileInfo (sys : System) (env : Environ)
  : ErrorResults * list Row :=
  let res := SUCCESSFUL in
  match getenv env "VK_LAYER_SETTINGS_PATH" with
  | Some settings_path =>
      let full_file := to_string settings_path +:+ "/" +:+ settings_file_name in
      (res,
       [el "VK_LAYER_SETTINGS_PATH"; el (to_string settings_path); el ""; el ""]
       :: PrintSettingsJsonInfo sys full_file)
  | None =>
      let settings_files :=
        [ "/etc/vulkan/settings.d/" +:+ settings_file_name;
          "/usr/share/vulkan/settings.d/" +:+ settings_file_name;
          "/usr/local/etc/vulkan/settings.d/" +:+ settings_file_name;
          "/usr/local/share/vulkan/settings.d/" +:+ settings_file_name;
          match getenv env "HOME" with
          | None => "~/.local/share/vulkan/settings.d/" +:+ settings_file_name
          | Some home =>
              to_string home +:+ "/.local/share/vulkan/settings.d/"
              +:+ settings_file_name
          end ] in
      (res,
       [el "VK_LAYER_SETTINGS_PATH"; el "Not Defined"; el ""; el ""]
       :: concat (PrintSettingsJsonInfo sys <$> settings_files))
  end.

End Settings.

(** ** The report and the exit status *)

Module Report.

(** The passes of the report whose inside this development does not
    look into: what they return, and the environment and rows they
    leave. *)
Record Passes : Type := {
  PrintRunTimeInfo : Environ → option (ErrorResults * Environ * list Row);
  PrintSDKInfo : Environ → option (ErrorResults * Environ * list Row);
  PrintVulkanInfo : ErrorResults;
  PrintTestResults : ErrorResults
}.

(** [PrintSystemInfo], from "Print out the rest of the useful system
    information" on (lines 2994-3003).  The tables before that point
    assign to [res] and never leave the function; line 2995 overwrites
    what they assigned. *)
Definition PrintSystemInfo (sys : System) (passes : Passes) (env : Environ)
  : option (ErrorResults * Environ * list Row) :=
  '(res, env, driver_rows) ← Drivers.PrintDriverInfo sys env;
  '(res, env, runtime_rows) ← PrintRunTimeInfo passes env;
  '(res, env, sdk_rows) ← PrintSDKInfo passes env;
  '(res, env, layer_rows) ← LayerDiscovery.PrintLayerInfo sys env;
  let '(res, settings_rows) := Settings.PrintLayerSettingsFileInfo sys env in
  Some (res, env,
        driver_rows ++ runtime_rows ++ sdk_rows ++ layer_rows ++ settings_rows).

(** [main] from [StartOutput] on (lines 277-368): the value it
    returns, [static_cast<int> (res)]. *)
Definition main (sys : System) (passes : Passes) (env : Environ) : option Z :=
  '(res, _, _) ← PrintSystemInfo sys passes env;
  let res :=
    if bool_decide (res ≠ SUCCESSFUL) then res
    else
      let res := PrintVulkanInfo passes in
      if bool_decide (res ≠ SUCCESSFUL) then res
      else PrintTestResults passes in
  Some (error_code res).

End Report.

(** ** What the driver verdict is stated against

    The manifests that [PrintDriverInfo] hands to [ReadDriverJson], in
    order, and what each of them declares. *)

Module DriverSpec.

Import Drivers.

(** The manifests of one folder: the entries whose name contains
    [".json"]. *)
Definition folder_manifests (folder : string) (entries : list string)
  : list string :=
  (λ d_name, snprintf (MAX_STRING_LENGTH - 1) (folder +:+ "/" +:+ d_name))
  <$> filter (λ d_name, strstr (buf d_name) (buf ".json") = true) entries.

Definition folder_candidates (sys : System) (folder : string) : list string :=
  match readdir_all sys folder with
  | Some entries => folder_manifests folder entries
  | None => []
  end.

(** [driver_paths] once [VK_DRIVERS_PATH] has been added. *)
Definition driver_paths (env : Environ) : list string :=
  standard_driver_paths env ++
  match getenv env "VK_DRIVERS_PATH" with
  | Some value => tokens_or_value value (strtok_all value ":"%char)
  | None => []
  end.

(** The files named by [VK_ICD_FILENAMES]. *)
Definition icd_filenames (env : Environ) : list string :=
  match getenv env "VK_ICD_FILENAMES" with
  | Some value => tokens_or_value value (strtok_all value ":"%char)
  | None => []
  end.

(** Every manifest the driver pass reads, in the order it reads them. *)
Definition driver_candidates (sys : System) (env : Environ) : list string :=
  (driver_paths env ≫= folder_candidates sys)
  ++ filter (λ tok, access_R_OK sys tok = true) (icd_filenames env).

(** The ["ICD"] member of a manifest that opens and parses to a
    non-null document. *)
Definition ICD_section (sys : System) (json : string) : option Value :=
  match json_file sys json with
  | Document root => if isNull root then None else member root "ICD"
  | _ => None
  end.

(** The manifest opens, parses, and has an ["ICD"] section. *)
Definition has_ICD_section (sys : System) (json : string) : bool :=
  match ICD_section sys json with
  | Some ICD => negb (isNull ICD)
  | None => false
  end.

(** The manifest opens and parses to a non-null document that has no
    ["ICD"] section. *)
Definition parses_without_ICD (sys : System) (json : string) : bool :=
  match ICD_section sys json with
  | Some ICD => isNull ICD
  | None => false
  end.

(** The library reference of a manifest with an ["ICD"] section. *)
Definition declared_library (sys : System) (json : string) : option string :=
  ICD ← ICD_section sys json;
  if isNull ICD then None
  else
    library_path ← member ICD "library_path";
    if isNull library_path then None else asString library_path.

(** The [ldconfig] listing has a line for the library. *)
Definition listed_by_ldconfig (sys : System) (driver_name : string) : bool :=
  match popen_first_line sys (ldconfig_command driver_name) with
  | Some (Some _) => true
  | _ => false
  end.

(** A manifest that parses as a document, has no ["ICD"] section, and
    whose [file_format_version], if there is one, can be shown. *)
Definition lacks_ICD_section (sys : System) (json : string) : Prop :=
  ∃ root version,
    json_file sys json = Document root ∧ isNull root = false ∧
    member root "ICD" = Some nullValue ∧
    member root "file_format_version" = Some version ∧
    is_Some (shown_or_missing version).

End DriverSpec.

(** ** What the toggles are stated against *)

Module ToggleSpec.

(** The environment variable that a toggle names: the first member of
    the manifest's [enable_environment] / [disable_environment]. *)
Definition toggle_variable (toggle : Value) : option string :=
  match toggle with
  | objectValue ((name, _) :: _) => Some name
  | _ => None
  end.

(** The value of a decimal digit: its place among the ten digits. *)
Definition digit_value (c : ascii) : option Z :=
  Z.of_nat <$> String.index 0 (String c "") "0123456789".

(** The number that a run of decimal digits writes. *)
Fixpoint natural_of (ds : list ascii) : option Z :=
  match ds with
  | [] => Some 0
  | c :: r =>
      d ← digit_value c;
      n ← natural_of r;
      Some (d * 10 ^ Z.of_nat (length r) + n)
  end.

Definition unsigned_of (ds : list ascii) : option Z :=
  match ds with
  | [] => None
  | _ => natural_of ds
  end.

(** The integer that a text writes: decimal digits, with a sign before
    them or without. *)
Definition integer_of (text : string) : option Z :=
  match list_ascii_of_string text with
  | [] => None
  | c :: ds =>
      if decide (c = "-"%char) then Z.opp <$> unsigned_of ds
      else if decide (c = "+"%char) then unsigned_of ds
      else unsigned_of (c :: ds)
  end.

(** The first 15 characters of a value. *)
Definition first_characters (text : string) : string := substring 0 15 text.

(** The integer that the first 15 characters of a value write. *)
Definition short_integer_of (text : string) : option Z :=
  integer_of (first_characters text).

(** The integer that the variable of a toggle holds, for a way of
    reading a value as an integer. *)
Definition toggle_integer (reading : string → option Z) (env : Environ)
    (toggle : Value) : option Z :=
  name ← toggle_variable toggle;
  text ← env !! name;
  reading text.

(** The three rules, in their order: enabled by default unless an
    enable toggle is declared; enabled if the variable of the enable
    toggle holds a nonzero integer; then disabled if the variable of
    the disable toggle holds an integer greater than zero. *)
Definition state_by_rules (reading : string → option Z) (env : Environ)
    (enable disable : Value) : bool :=
  let state :=
    match toggle_variable enable with Some _ => false | None => true end in
  let state :=
    match toggle_integer reading env enable with
    | Some z => if bool_decide (z ≠ 0) then true else state
    | None => state
    end in
  match toggle_integer reading env disable with
  | Some z => if bool_decide (0 < z) then false else state
  | None => state
  end.

(** A toggle of the expected shape: not an array, and the name of its
    variable holds no NUL. *)
Definition plain_toggle (toggle : Value) : bool :=
  negb (isArray toggle)
  && match toggle_variable toggle with
     | Some name =>
         forallb (λ c, negb (bool_decide (c = "000"%char)))
           (list_ascii_of_string name)
     | None => true
     end.

Definition white_space (c : ascii) : bool :=
  bool_decide (c ∈ [" "; "009"; "010"; "011"; "012"; "013"]%char).

(** A text that does not begin like a number: it is empty, or its
    first character is no white space, no sign and no digit. *)
Definition no_number (text : string) : bool :=
  match text with
  | EmptyString => true
  | String c _ =>
      negb (white_space c) && negb (bool_decide (c = "-"%char))
      && negb (bool_decide (c = "+"%char))
      && bool_decide (digit_value c = None)
  end.

(** The variable of the toggle is not set, or its value does not begin
    like a number, or its first 15 characters write an integer in the
    range of a 32-bit [int]. *)
Definition short_integer (env : Environ) (toggle : Value) : bool :=
  match toggle_variable toggle ≫= (env !!.) with
  | Some text =>
      no_number text
      || match short_integer_of text with
         | Some n => (- 2 ^ 31 <=? n) && (n <? 2 ^ 31)
         | None => false
         end
  | None => true
  end.

End ToggleSpec.

(** ** Example systems and manifests *)

Module Examples.

(** 2024-06-15, 12:30. *)
Definition noon : tm :=
  {| tm_year := 124; tm_mon := 5; tm_mday := 15; tm_hour := 12; tm_min := 30 |}.

(** An implicit layer with an expiration and no toggle. *)
Definition expiring_layer (date : string) : Value :=
  objectValue
    [ ("file_format_version", stringValue "1.0.0");
      ("layer",
       objectValue
         [ ("expiration", stringValue date);
           ("name", stringValue "VK_LAYER_example") ]) ].

(** An implicit layer with both toggles and an expiration long past. *)
Definition toggled_layer : Value :=
  objectValue
    [ ("file_format_version", stringValue "1.0.0");
      ("layer",
       objectValue
         [ ("disable_environment",
            objectValue [("DISABLE_EXAMPLE", stringValue "1")]);
           ("enable_environment",
            objectValue [("ENABLE_EXAMPLE", stringValue "1")]);
           ("expiration", stringValue "2000-01-01-00-00");
           ("name", stringValue "VK_LAYER_example") ]) ].

(** Both variables set to 1. *)
Definition both_set : Environ :=
  <["DISABLE_EXAMPLE" := "1"]> (<["ENABLE_EXAMPLE" := "1"]> ∅).

(** A host with no folder, no file and no variable of interest. *)
Definition empty_system : System :=
  {| lib64 := true;
     readdir_all := λ _, None;
     json_file := λ _, Unreadable;
     access_R_OK := λ _, false;
     dlopen_error := λ _, Some "cannot open shared object file";
     popen_first_line := λ _, Some None;
     text_file := λ _, None;
     localtime_now := noon |}.

(** A host whose only file of interest is one manifest [entry] in
    [folder]; [readable] tells which library files exist. *)
Definition one_manifest_system (folder entry : string) (root : Value)
    (readable : string → bool) : System :=
  {| lib64 := true;
     readdir_all := λ f, if decide (f = folder) then Some [entry] else None;
     json_file := λ f, if decide (f = folder +:+ "/" +:+ entry)
                       then Document root else Unreadable;
     access_R_OK := readable;
     dlopen_error := λ _, Some "cannot open shared object file";
     popen_first_line := λ _, Some None;
     text_file := λ _, None;
     localtime_now := noon |}.

(** A driver manifest that is a valid document without ["ICD"]. *)
Definition incomplete_manifest : Value :=
  objectValue [("file_format_version", stringValue "1.0.0")].

Definition incomplete_system : System :=
  one_manifest_system "/etc/vulkan/icd.d" "broken.json" incomplete_manifest
    (λ _, false).

(** A complete driver manifest. *)
Definition driver_manifest : Value :=
  objectValue
    [ ("ICD",
       objectValue
         [ ("api_version", stringValue "1.1.0");
           ("library_path", stringValue "/usr/lib/libdriver.so") ]);
      ("file_format_version", stringValue "1.0.0") ].

(** The library of the manifest exists, and [dlopen] fails on it. *)
Definition unloadable_system : System :=
  one_manifest_system "/etc/vulkan/icd.d" "driver.json" driver_manifest
    (λ f, bool_decide (f = "/usr/lib/libdriver.so")).

(** The library of the manifest is nowhere. *)
Definition missing_library_system : System :=
  one_manifest_system "/etc/vulkan/icd.d" "driver.json" driver_manifest
    (λ _, false).

(** An implicit layer that names one override path, and an explicit
    layer in that folder. *)
Definition overriding_layer : Value :=
  objectValue
    [ ("file_format_version", stringValue "1.0.0");
      ("layer",
       objectValue
         [ ("component_layers", arrayValue [stringValue "VK_LAYER_other"]);
           ("name", stringValue "VK_LAYER_override");
           ("override_paths", arrayValue [stringValue "/opt/layers"]) ]) ].

Definition explicit_layer : Value :=
  objectValue
    [ ("file_format_version", stringValue "1.0.0");
      ("layer",
       objectValue
         [ ("library_path", stringValue "./libother.so");
           ("name", stringValue "VK_LAYER_other") ]) ].

Definition override_system : System :=
  {| lib64 := true;
     readdir_all := λ f,
       if decide (f = "/etc/vulkan/implicit_layer.d") then Some ["over.json"]
       else if decide (f = "/opt/layers") then Some ["other.json"]
       else None;
     json_file := λ f,
       if decide (f = "/etc/vulkan/implicit_layer.d/over.json")
       then Document overriding_layer
       else if decide (f = "/opt/layers/other.json")
       then Document explicit_layer
       else Unreadable;
     access_R_OK := λ _, false;
     dlopen_error := λ _, Some "cannot open shared object file";
     popen_first_line := λ _, Some None;
     text_file := λ _, None;
     localtime_now := noon |}.

(** The other passes of the report all succeed. *)
Definition quiet_passes : Report.Passes :=
  {| Report.PrintRunTimeInfo := λ env, Some (SUCCESSFUL, env, []);
     Report.PrintSDKInfo := λ env, Some (SUCCESSFUL, env, []);
     Report.PrintVulkanInfo := SUCCESSFUL;
     Report.PrintTestResults := SUCCESSFUL |}.

(** The settings file of the specification's example. *)
Definition settings_example : string :=
  "# comment" +:+ String "010" ""
  +:+ String "010" ""
  +:+ "LayerA.setting1 = true" +:+ String "010" ""
  +:+ "badline" +:+ String "010" ""
  +:+ "LayerA.setting2=42" +:+ String "010" ""
  +:+ ".globalOnly = x" +:+ String "010" "".

End Examples.

(** ** The HTML writer

    The output helpers of [via.cpp] (lines 507-558) on the two members
    of [global_items] they use: the stream of the report and the
    parity of the row being written.  [std::endl] is a line feed. *)

Module HtmlWriter.

(** The double quote character, as a string. *)
Definition dq : string := String "034"%char "".

Definition endl : string := String "010"%char "".

Record Writer : Set := {
  is_odd_row : bool;
  html_file_stream : string
}.

(** [global_items.html_file_stream << text]. *)
Definition write (text : string) (w : Writer) : Writer :=
  {| is_odd_row := is_odd_row w;
     html_file_stream := html_file_stream w +:+ text |}.

(** [BeginSection] (lines 507-509). *)
Definition BeginSection (section_str : string) (w : Writer) : Writer :=
  write ("    <H1 class=" +:+ dq +:+ "section" +:+ dq +:+ "><center>"
         +:+ section_str +:+ "</center></h1>" +:+ endl) w.

(** [EndSection] (line 511). *)
Definition EndSection (w : Writer) : Writer :=
  write ("    <BR/>" +:+ endl +:+ "    <BR/>" +:+ endl) w.

(** [PrintStandardText] (lines 513-515). *)
Definition PrintStandardText (section : string) (w : Writer) : Writer :=
  write ("    <H2><font color=" +:+ dq +:+ "White" +:+ dq +:+ ">" +:+ section
         +:+ "</font></H2>" +:+ endl) w.

(** [PrintBeginTable] (lines 517-525). *)
Definition PrintBeginTable (table_name : string) (num_cols : nat) (w : Writer)
  : Writer :=
  {| is_odd_row := true;
     html_file_stream :=
       html_file_stream w
       +:+ ("    <table align=" +:+ dq +:+ "center" +:+ dq +:+ ">" +:+ endl
            +:+ "        <tr class=" +:+ dq +:+ "header" +:+ dq +:+ ">" +:+ endl
            +:+ "            <td colspan=" +:+ dq +:+ pretty num_cols +:+ dq
            +:+ " class=" +:+ dq +:+ "header" +:+ dq +:+ ">" +:+ table_name
            +:+ "</td>" +:+ endl
            +:+ "        </tr>" +:+ endl) |}.

(** The [class_str] of [PrintBeginTableRow] and [PrintTableElement]. *)
Definition class_str (odd : bool) : string :=
  if odd then " class=" +:+ dq +:+ "odd" +:+ dq
  else " class=" +:+ dq +:+ "even" +:+ dq.

(** The [align_str] of [PrintTableElement]. *)
Definition align_str (align : ElementAlign) : string :=
  match align with
  | ALIGN_RIGHT => " align=" +:+ dq +:+ "right" +:+ dq
  | ALIGN_CENTER => " align=" +:+ dq +:+ "center" +:+ dq
  | ALIGN_LEFT => ""
  end.

(** [PrintBeginTableRow] (lines 527-535). *)
Definition PrintBeginTableRow (w : Writer) : Writer :=
  write ("        <tr" +:+ class_str (is_odd_row w) +:+ ">" +:+ endl) w.

(** [PrintTableElement] (lines 537-551). *)
Definition PrintTableElement (element : string) (align : ElementAlign)
    (w : Writer) : Writer :=
  write ("            <td" +:+ align_str align +:+ class_str (is_odd_row w)
         +:+ ">" +:+ element +:+ "</td>" +:+ endl) w.

(** [PrintEndTableRow] (lines 553-556). *)
Definition PrintEndTableRow (w : Writer) : Writer :=
  {| is_odd_row := negb (is_odd_row w);
     html_file_stream := html_file_stream w +:+ ("        </tr>" +:+ endl) |}.

(** [PrintEndTable] (line 558). *)
Definition PrintEndTable (w : Writer) : Writer :=
  write ("    </table>" +:+ endl) w.

(** One call of an output helper. *)
Inductive Op : Set :=
| OpBeginSection (section_str : string)
| OpEndSection
| OpStandardText (section : string)
| OpBeginTable (table_name : string) (num_cols : nat)
| OpBeginTableRow
| OpTableElement (element : string) (align : ElementAlign)
| OpEndTableRow
| OpEndTable.

Definition exec (op : Op) (w : Writer) : Writer :=
  match op with
  | OpBeginSection section_str => BeginSection section_str w
  | OpEndSection => EndSection w
  | OpStandardText section => PrintStandardText section w
  | OpBeginTable table_name num_cols => PrintBeginTable table_name num_cols w
  | OpBeginTableRow => PrintBeginTableRow w
  | OpTableElement element align => PrintTableElement element align w
  | OpEndTableRow => PrintEndTableRow w
  | OpEndTable => PrintEndTable w
  end.

(** The calls made one after the other. *)
Definition run (ops : list Op) (w : Writer) : Writer :=
  fold_left (λ w op, exec op w) ops w.

(** The calls that write one row: [PrintBeginTableRow], one
    [PrintTableElement] per cell, [PrintEndTableRow]. *)
Definition row_ops (row : Row) : list Op :=
  OpBeginTableRow
  :: ((λ cell : Cell, OpTableElement cell.1 cell.2) <$> row)
  ++ [OpEndTableRow].

Definition rows_ops (rows : list Row) : list Op := rows ≫= row_ops.

(** The text of one row written with the given parity. *)
Definition row_text (odd : bool) (row : Row) : string :=
  "        <tr" +:+ class_str odd +:+ ">" +:+ endl
  +:+ fold_right
        (λ (cell : Cell) rest,
           "            <td" +:+ align_str cell.2 +:+ class_str odd +:+ ">"
           +:+ cell.1 +:+ "</td>" +:+ endl +:+ rest)
        ("        </tr>" +:+ endl) row.

(** The text of rows written one after the other, the first with the
    given parity. *)
Fixpoint rows_text (odd : bool) (rows : list Row) : string :=
  match rows with
  | [] => ""
  | row :: rest => row_text odd row +:+ rows_text (negb odd) rest
  end.

End HtmlWriter.

(** ** The runtime libraries: [PrintRuntimesInFolder] *)

Module Runtimes.

Import HtmlWriter.

(** The second argument of [TrimWhitespace] at lines 3430-3438: blank,
    tab, line feed, carriage return, quote and double quote. *)
Definition quote_whitespace : string :=
  String " " (String "009" (String "010" (String "013"
    (String "'" (String "034" EmptyString))))).

(** The locals of [PrintRuntimesInFolder] that its loop updates.
    [generic_str] is a stream that is never emptied: each label is
    added behind the earlier ones. *)
Record RuntimeScan : Set := {
  runtime_i : nat;
  runtime_res : ErrorResults;
  file_found : bool;
  generic_str : string;
  runtime_ops : list Op
}.

(** An entry that [PrintRuntimesInFolder] looks into (line 3405). *)
Definition is_runtime_entry (object_name d_name : string) : bool :=
  strstr (buf d_name) (c_str object_name)
  && bool_decide (strlen (buf d_name) = 14%nat).

Definition stat_command (folder_loc d_name : string) : string :=
  "stat -c%N '" +:+ folder_loc +:+ "/" +:+ d_name +:+ "'".

(** The cells for the line that [stat] printed (lines 3427-3441). *)
Definition link_cells (path : string) : list Op :=
  match String.index 0 "->" path with
  | None =>
      [OpTableElement (Settings.TrimWhitespace path quote_whitespace) ALIGN_LEFT;
       OpTableElement "" ALIGN_LEFT]
  | Some arrow_loc =>
      let before_arrow := String.substring 0 arrow_loc path in
      let after_arrow := Settings.substr_from (arrow_loc + 2) path in
      [OpTableElement (Settings.TrimWhitespace before_arrow quote_whitespace)
         ALIGN_LEFT;
       OpTableElement (Settings.TrimWhitespace after_arrow quote_whitespace)
         ALIGN_LEFT]
  end.

(** The [readdir] loop (lines 3404-3452).  When the pipe cannot be
    opened the row is left without its [PrintEndTableRow]. *)
Fixpoint runtime_entries (sys : System) (folder_loc object_name : string)
    (entries : list string) (st : RuntimeScan) : RuntimeScan :=
  match entries with
  | [] => st
  | d_name :: rest =>
      if is_runtime_entry object_name d_name then
        let generic_str :=
          generic_str st +:+ "[" +:+ pretty (runtime_i st) +:+ "]" in
        let head :=
          [OpBeginTableRow; OpTableElement generic_str ALIGN_RIGHT] in
        let failed :=
          [OpTableElement d_name ALIGN_LEFT;
           OpTableElement "Failed to retrieve symbolic link" ALIGN_LEFT] in
        let '(res, ops) :=
          match popen_first_line sys (stat_command folder_loc d_name) with
          | None => (SYSTEM_CALL_FAILURE, head ++ failed)
          | Some (Some path) =>
              (runtime_res st, head ++ link_cells path ++ [OpEndTableRow])
          | Some None => (runtime_res st, head ++ failed ++ [OpEndTableRow])
          end in
        runtime_entries sys folder_loc object_name rest
          {| runtime_i := S (runtime_i st); runtime_res := res;
             file_found := true; generic_str := generic_str;
             runtime_ops := runtime_ops st ++ ops |}
      else runtime_entries sys folder_loc object_name rest st
  end.

(** [PrintRuntimesInFolder] (lines 3382-3470): the result and the
    calls of the output helpers. *)
Definition PrintRuntimesInFolder (sys : System) (folder_loc object_name : string)
    (print_header : bool) : ErrorResults * list Op :=
  match readdir_all sys folder_loc with
  | Some entries =>
      let st :=
        runtime_entries sys folder_loc object_name entries
          {| runtime_i := 0; runtime_res := SUCCESSFUL; file_found := false;
             generic_str := "";
             runtime_ops :=
               if print_header
               then row_ops [el_right folder_loc; el ""; el ""] else [] |} in
      (runtime_res st,
       if file_found st then runtime_ops st
       else runtime_ops st
            ++ row_ops [el ""; el "No libvulkan.so files found"; el ""])
  | None =>
      (SUCCESSFUL, row_ops [el_right folder_loc; el "No such folder"; el ""])
  end.

(** [CheckRuntime] (lines 3473-3475). *)
Definition CheckRuntime (sys : System) (folder_loc object_name : string)
  : bool * list Op :=
  let '(res, ops) := PrintRuntimesInFolder sys folder_loc object_name true in
  (bool_decide (SUCCESSFUL = res), ops).

(** [vulkan_so_prefix] (line 3481). *)
Definition vulkan_so_prefix : string := "libvulkan.so.".

(** The search with which [PrintRunTimeInfo] begins (line 3496):
    whether [FindLinuxSystemObject] finds a runtime. *)
Definition runtime_search (sys : System) (env : Environ) : bool * Environ :=
  let '(found, _, env) :=
    Drivers.FindLinuxSystemObject sys env vulkan_so_prefix ""
      (λ folder_loc object_name, (CheckRuntime sys folder_loc object_name).1)
      false in
  (found, env).

End Runtimes.

(** ** The external tests: [RunTestInDirectory], [PrintTestResults] *)

Module Tests.

Import HtmlWriter.

(** What [RunTestInDirectory] asks of the host.  The working directory
    in which [access] and [system] act is the one [chdir] has just
    entered. *)
Record TestHost : Type := {
  (** [getcwd (orig_dir, MAX_STRING_LENGTH - 1)]: [None] for [NULL] *)
  getcwd : option string;
  (** [chdir (path) != -1] *)
  chdir : string → bool;
  (** [access (test, X_OK) != -1] in the directory [path] *)
  access_X_OK : string → string → bool;
  (** [system (cmd_line)] in the directory [path] *)
  system : string → string → Z
}.

(** [RunTestInDirectory] (lines 4134-4160): the value returned and the
    lines written to [std::cout]. *)
Definition RunTestInDirectory (host : TestHost) (path test cmd_line : string)
  : Z * list string :=
  let announce :=
    "SDK Found! - Will attempt to run " +:+ test
    +:+ " using the command-line: " +:+ cmd_line in
  let warning := "    Warning: " +:+ test +:+ " not found.  Skipping." in
  match getcwd host with
  | Some orig_dir =>
      if chdir host (to_string (c_str path)) then
        if access_X_OK host (to_string (c_str path)) (to_string (c_str test))
        then (system host (to_string (c_str path)) (to_string (c_str cmd_line)),
              [announce])
        else (1, [announce; warning])
      else (1, [announce; warning])
  | None => (-1, [announce])
  end.

(** The members of [global_items] that [PrintTestResults] reads. *)
Record SdkState : Set := {
  sdk_found : bool;
  is_system_install_sdk : bool;
  sdk_path : string
}.

(** The locals and globals that the loop of [PrintTestResults]
    updates. *)
Record TestScan : Set := {
  found_exe : bool;
  test_res : ErrorResults;
  tests_ran : bool;
  test_path : string;
  test_ops : list Op;
  test_cout : list string
}.

(** [cube_exe] for a pass of the loop (lines 5698-5721). *)
Definition cube_exe (sdk : SdkState) (pass : nat) : string :=
  let name := match pass with 1%nat => "cube" | _ => "vkcube" end in
  if negb (is_system_install_sdk sdk) then "./" +:+ name else name.

(** The cell for the result of a run, and what the run does to [res]
    and [tests_ran] (lines 5737-5745 and 5753-5761). *)
Definition result_cell (test_result : Z) (res : ErrorResults) (ran : bool)
  : Op * ErrorResults * bool :=
  if bool_decide (test_result = 0) then
    (OpTableElement "SUCCESSFUL" ALIGN_LEFT, res, true)
  else if bool_decide (test_result = 1) then
    (OpTableElement "Not Found" ALIGN_LEFT, res, ran)
  else (OpTableElement "FAILED!" ALIGN_LEFT, TEST_FAILED, ran).

(** One pass of the [for] loop (lines 5697-5763). *)
Definition cube_pass (host : TestHost) (sdk : SdkState) (pass : nat)
    (st : TestScan) : TestScan :=
  let cube_exe := cube_exe sdk pass in
  let path :=
    if negb (is_system_install_sdk sdk)
    then sdk_path sdk +:+ "/../examples/build" else test_path st in
  let full_cmd := cube_exe +:+ " --c 100 --suppress_popups" in
  let '(test_result, cout1) := RunTestInDirectory host path cube_exe full_cmd in
  if bool_decide (test_result = 0) then
    let '(cell1, res, ran) :=
      result_cell test_result (test_res st) (tests_ran st) in
    let full_cmd := full_cmd +:+ " --validate" in
    let '(test_result, cout2) :=
      RunTestInDirectory host path cube_exe full_cmd in
    let '(cell2, res, ran) := result_cell test_result res ran in
    {| found_exe := true; test_res := res; tests_ran := ran; test_path := path;
       test_ops :=
         test_ops st
         ++ [OpBeginTable "Cube" 2;
             OpBeginTableRow;
             OpTableElement (cube_exe +:+ " --c 100 --suppress_popups")
               ALIGN_LEFT;
             cell1; OpEndTableRow;
             OpBeginTableRow; OpTableElement full_cmd ALIGN_LEFT; cell2;
             OpEndTableRow];
       test_cout := test_cout st ++ cout1 ++ cout2 |}
  else
    {| found_exe := found_exe st; test_res := test_res st;
       tests_ran := tests_ran st; test_path := path;
       test_ops := test_ops st; test_cout := test_cout st ++ cout1 |}.

(** [PrintTestResults] (lines 5687-5780, the [gcc] branch), from the
    value of [global_items.tests_ran] before the call: the state in
    which the function ends, [test_res] being the value returned. *)
Definition PrintTestResults (host : TestHost) (sdk : SdkState)
    (tests_ran_before : bool) : TestScan :=
  let st :=
    {| found_exe := false; test_res := SUCCESSFUL;
       tests_ran := tests_ran_before; test_path := "";
       test_ops := [OpBeginSection "External Tests"]; test_cout := [] |} in
  let with_ops ops res (st : TestScan) :=
    {| found_exe := found_exe st; test_res := res; tests_ran := tests_ran st;
       test_path := test_path st; test_ops := test_ops st ++ ops;
       test_cout := test_cout st |} in
  if sdk_found sdk then
    let st := cube_pass host sdk 1 (cube_pass host sdk 0 st) in
    let st :=
      if negb (found_exe st) then
        with_ops
          (row_ops
             [el "Failed to find either 'vkcube' or 'cube' executables";
              el "FAILURE"])
          TEST_FAILED st
      else st in
    with_ops [OpEndTable; OpEndSection] (test_res st) st
  else
    with_ops
      [OpStandardText "No SDK found by VIA, skipping test section";
       OpEndSection]
      (test_res st) st.

(** The two commands of a pass. *)
Definition first_command (sdk : SdkState) (pass : nat) : string :=
  cube_exe sdk pass +:+ " --c 100 --suppress_popups".

Definition validate_command (sdk : SdkState) (pass : nat) : string :=
  first_command sdk pass +:+ " --validate".

(** The directory in which the tests are run. *)
Definition test_directory (sdk : SdkState) : string :=
  if negb (is_system_install_sdk sdk)
  then sdk_path sdk +:+ "/../examples/build" else "".

(** What a run of a command of a pass returns. *)
Definition run_result (host : TestHost) (sdk : SdkState) (pass : nat)
    (cmd_line : string) : Z :=
  (RunTestInDirectory host (test_directory sdk) (cube_exe sdk pass) cmd_line).1.

End Tests.

(** ** The command line and the report file: [main] *)

Module CommandLine.

(** The loop over [argv[1]] ... [argv[argc - 1]] (lines 162-190):
    [None] is the usage message and [return -1]. *)
Fixpoint parse_arguments (args : list string) (generate_unique_file : bool)
    (output_path : option string) : option (bool * option string) :=
  match args with
  | [] => Some (generate_unique_file, output_path)
  | arg :: rest =>
      if decide (arg = "--unique_output") then
        parse_arguments rest true output_path
      else if decide (arg = "--output_path") then
        match rest with
        | value :: rest => parse_arguments rest generate_unique_file (Some value)
        | [] => None
        end
      else None
  end.

(** The arguments that the loop accepts. *)
Inductive accepted : list string → Prop :=
| accepted_nil : accepted []
| accepted_unique rest :
    accepted rest → accepted ("--unique_output" :: rest)
| accepted_path value rest :
    accepted rest → accepted ("--output_path" :: value :: rest).

(** Two decimal digits, as [strftime] writes [%m], [%d], [%H], [%M]
    for the values [localtime] gives. *)
Definition two_digits (n : Z) : string :=
  (if bool_decide (n < 10) then "0" else "") +:+ pretty n.

(** [strftime (..., "via_%Y_%m_%d_%H_%M.html", ptr_time)]. *)
Definition unique_name (now : tm) : string :=
  "via_" +:+ pretty (tm_year now + 1900) +:+ "_" +:+ two_digits (tm_mon now + 1)
  +:+ "_" +:+ two_digits (tm_mday now) +:+ "_" +:+ two_digits (tm_hour now)
  +:+ "_" +:+ two_digits (tm_min now) +:+ ".html".

(** [html_file_name] as lines 194-215 leave it: the output path and a
    slash, when there is a path, and the name behind them.  The
    buffer has [MAX_STRING_LENGTH] bytes, [strncpy] is given what is
    left of [MAX_STRING_LENGTH - 1] behind the path and [strftime] what
    is left of the buffer; [None] stands for a path so long that the
    name and its terminator do not fit, where the code leaves the
    buffer unterminated or writes past it. *)
Definition html_file_name (generate_unique_file : bool)
    (output_path : option string) (now : tm) : option string :=
  let name := if generate_unique_file then unique_name now else "via.html" in
  let prefix :=
    match output_path with
    | Some path => to_string (c_str path) +:+ "/"
    | None => ""
    end in
  let room :=
    if generate_unique_file then (MAX_STRING_LENGTH - String.length prefix)%nat
    else (MAX_STRING_LENGTH - 1 - String.length prefix)%nat in
  if (String.length name <? room)%nat then Some (prefix +:+ name) else None.

(** What [main] asks of the host before the report begins: whether a
    file can be opened for writing, and the local time. *)
Record OutputHost : Type := {
  can_open : string → bool;
  start_time : tm
}.

(** [main] (lines 144-369), the exit status.  A run that the
    arguments stop returns -1; a run that cannot open its report
    leaves through [goto out] with [res] still [SUCCESSFUL]; every
    other run is the report of [Report.main]. *)
Definition main (host : OutputHost) (sys : System) (passes : Report.Passes)
    (env : Environ) (args : list string) : option Z :=
  match parse_arguments args false None with
  | None => Some (-1)
  | Some (generate_unique_file, output_path) =>
      html_file_name ← html_file_name generate_unique_file output_path
                         (start_time host);
      if can_open host html_file_name then Report.main sys passes env
      else
        let full_file := snprintf (MAX_STRING_LENGTH - 1) ("~/" +:+ html_file_name) in
        if can_open host full_file then Report.main sys passes env
        else Some (error_code SUCCESSFUL)
  end.

End CommandLine.

(** ** What the text helpers are stated against *)

Module TextSpec.

Import Settings.

(** Every character of the text is in the set. *)
Fixpoint all_in (set text : string) : bool :=
  match text with
  | EmptyString => true
  | String c rest => in_set set c && all_in set rest
  end.

(** The text begins with a character of the set. *)
Definition starts_in (set text : string) : bool :=
  match text with
  | EmptyString => false
  | String c _ => in_set set c
  end.

(** The text ends with a character of the set. *)
Fixpoint ends_in (set text : string) : bool :=
  match text with
  | EmptyString => false
  | String c EmptyString => in_set set c
  | String _ rest => ends_in set rest
  end.

(** The text without the characters of the set it begins with. *)
Fixpoint ltrim (set text : string) : string :=
  match text with
  | EmptyString => ""
  | String c rest => if in_set set c then ltrim set rest else text
  end.

(** The text without the characters of the set it ends with. *)
Fixpoint rtrim (set text : string) : string :=
  match text with
  | EmptyString => ""
  | String c rest =>
      match rtrim set rest with
      | EmptyString => if in_set set c then "" else String c ""
      | kept => String c kept
      end
  end.

(** Lines put together again, a line feed between one and the next. *)
Fixpoint join_lines (lines : list string) : string :=
  match lines with
  | [] => ""
  | [line] => line
  | line :: rest => line +:+ String "010" (join_lines rest)
  end.

End TextSpec.

(** ** What the searches of the host are stated against *)

Module HostSpec.

(** The folders that [LD_LIBRARY_PATH] names. *)
Definition library_path_folders (env : Environ) : list string :=
  match getenv env "LD_LIBRARY_PATH" with
  | Some value => to_string <$> strtok_all value ":"%char
  | None => []
  end.

(** The same host with another answer of [dlopen]. *)
Definition with_dlopen (sys : System) (answer : string → option string)
  : System :=
  {| lib64 := lib64 sys;
     readdir_all := readdir_all sys;
     json_file := json_file sys;
     access_R_OK := access_R_OK sys;
     dlopen_error := answer;
     popen_first_line := popen_first_line sys;
     text_file := text_file sys;
     localtime_now := localtime_now sys |}.

(** Two states of the driver scan that differ in their rows at most. *)
Definition same_findings (st st' : Drivers.DriverScan) : Prop :=
  Drivers.found_json st = Drivers.found_json st' ∧
  Drivers.found_lib st = Drivers.found_lib st' ∧
  Drivers.found_this_lib st = Drivers.found_this_lib st' ∧
  Drivers.scan_env st = Drivers.scan_env st' ∧
  Drivers.strtok_left st = Drivers.strtok_left st'.

(** The variables that the driver pass tokenises. *)
Definition tokenised_by_driver_pass (name : string) : Prop :=
  name = "VK_DRIVERS_PATH" ∨ name = "VK_ICD_FILENAMES"
  ∨ name = "LD_LIBRARY_PATH".

End HostSpec.

(** ** What the driver verdict is stated against: the libraries *)

Module VerdictSpec.

Import Drivers DriverSpec HostSpec.

(** The five system folders in which a library is looked for. *)
Definition system_folders (sys : System) : list string :=
  if lib64 sys then
    [ "/usr/lib"; "/usr/lib/x86_64-linux-gnu"; "/usr/lib64"; "/usr/local/lib";
      "/usr/local/lib64" ]
  else
    [ "/usr/lib"; "/usr/lib/i386-linux-gnu"; "/usr/lib32"; "/usr/local/lib";
      "/usr/local/lib32" ].

(** The path of the file [name] of a folder. *)
Definition file_in (folder name : string) : string :=
  if bool_decide (["/"%char] `suffix_of` list_ascii_of_string folder)
  then folder +:+ name
  else folder +:+ "/" +:+ name.


(** The folder of a file: its path up to the last slash, that slash
    included. *)
Fixpoint folder_of (path : string) : string :=
  match path with
  | EmptyString => ""
  | String c rest =>
      if bool_decide ("/"%char ∈ list_ascii_of_string rest)
      then String c (folder_of rest)
      else if bool_decide (c = "/"%char) then "/" else ""
  end.

Definition begins (start s : string) : bool :=
  bool_decide (list_ascii_of_string start `prefix_of` list_ascii_of_string s).

(** The file that the library reference [name] of the manifest [json]
    stands for: the reference itself when it begins with a slash, the
    file of that name in the folder of the manifest when it does
    not. *)
Definition referenced_file (json name : string) : string :=
  if begins "/" name then name else folder_of json +:+ name.




(** The folder that [LD_LIBRARY_PATH] names in such a run. *)
Definition library_folder (env : Environ) : list string :=
  match env !! "LD_LIBRARY_PATH" with
  | Some value => if bool_decide (value = "") then [] else [value]
  | None => []
  end.

(** A file for the library reference [name] of the manifest [json]
    exists: the file the reference stands for, or, when the reference
    holds no slash, the file of that name in a system folder or in
    the folder of [LD_LIBRARY_PATH]. *)
Definition file_found (sys : System) (env : Environ) (json name : string)
  : bool :=
  access_R_OK sys (referenced_file json name)
  || negb (bool_decide ("/"%char ∈ list_ascii_of_string name))
     && existsb (λ folder, access_R_OK sys (file_in folder name))
          (system_folders sys ++ library_folder env).

(** The listing of [ldconfig] has a line for the library. *)
Definition listed (sys : System) (name : string) : bool :=
  match
    popen_first_line sys
      ("/sbin/ldconfig -v -N -p | grep " +:+ name +:+ " | awk '{ print $4 }'")
  with
  | Some (Some _) => true
  | _ => false
  end.

(** The library that the manifest names was found: as a file, or in
    the listing of [ldconfig].  Whether it can be loaded plays no
    part. *)
Definition library_found (sys : System) (env : Environ) (json : string)
  : bool :=
  match declared_library sys json with
  | Some name => file_found sys env json name || listed sys name
  | None => false
  end.

(** The same in the terms of the program: the file at the path that
    [GenerateLibraryPath] gives, and the line that the command of
    [ReadDriverJson] prints. *)
Definition file_located (sys : System) (env : Environ) (json name : string)
  : bool :=
  from_option (access_R_OK sys) false (PathResolver.resolve json name)
  || negb (bool_decide ("/"%char ∈ list_ascii_of_string name))
     && existsb (λ folder, access_R_OK sys (file_in folder name))
          (system_folders sys ++ library_path_folders env).

Definition library_located (sys : System) (env : Environ) (json : string)
  : bool :=
  match declared_library sys json with
  | Some name => file_located sys env json name || listed_by_ldconfig sys name
  | None => false
  end.



(** The member of an object, null when there is none. *)
Definition field (v : Value) (key : string) : Value :=
  match v with
  | objectValue members => find_member key members
  | _ => nullValue
  end.





(** [ReadDriverJson] returns on this manifest (no accessor throws). *)
Definition reads (sys : System) (json : string) : Prop :=
  ∀ env found_lib, is_Some (ReadDriverJson sys env json found_lib).

(** The state of the scan once the manifests [done] have been read, in
    a run that began in the environment [env0].  What has been found
    of the libraries is told by [env0] as long as [LD_LIBRARY_PATH]
    names one folder at most: a search leaves the first folder
    only. *)
Record scanned (sys : System) (env0 : Environ) (done : list string)
    (st : DriverScan) : Prop := {
  scanned_json : found_json st = existsb (has_ICD_section sys) done;
  scanned_this : found_this_lib st = found_lib st;
  scanned_rows :
    ∀ json, json ∈ done → parses_without_ICD sys json = true →
            missing_ICD_section_row ∈ scan_rows st;
  scanned_lib :
    (length (library_path_folders env0) ≤ 1)%nat →
    found_lib st = existsb (library_located sys env0) done ∧
    library_path_folders (scan_env st) = library_path_folders env0;
  scanned_unset :
    env0 !! "LD_LIBRARY_PATH" = None →
    scan_env st !! "LD_LIBRARY_PATH" = None ∧ strtok_left st = false
}.

(** The files that the loop over [VK_ICD_FILENAMES] has read of those
    it can open: all of them, or some and [strtok] has left the
    value. *)
Definition read_so_far (sys : System) (toks read : list string)
    (st : DriverScan) : Prop :=
  read `prefix_of` filter (λ tok, access_R_OK sys tok = true) toks ∧
  (read = filter (λ tok, access_R_OK sys tok = true) toks
   ∨ (read ≠ [] ∧ strtok_left st = true)).

End VerdictSpec.

(** ** What the layer pass is stated against *)

Module LayerSpec.

(** What a manifest of a folder of explicit layers does to the result
    of the folder: the error it sets, if it sets one. *)
Definition manifest_error (sys : System) (folder_loc d_name : string)
  : option ErrorResults :=
  if strstr (buf d_name) (buf ".json") then
    match json_file sys (folder_loc +:+ "/" +:+ d_name) with
    | Unreadable => Some MISSING_LAYER_JSON
    | Malformed _ => Some LAYER_JSON_PARSING_ERROR
    | Document root =>
        if isNull root then Some LAYER_JSON_PARSING_ERROR else None
    end
  else None.

(** The errors of the manifests of a folder, in the order of its
    entries. *)
Definition folder_errors (sys : System) (folder_loc : string)
  : list ErrorResults :=
  omap (manifest_error sys folder_loc) (default [] (readdir_all sys folder_loc)).

(** The folder of explicit layers under [$HOME]. *)
Definition home_explicit_folder (env : Environ) : string :=
  match getenv env "HOME" with
  | None => "~/.local/share/vulkan/explicit_layer.d"
  | Some home => to_string home +:+ "/.local/share/vulkan/explicit_layer.d"
  end.

End LayerSpec.

(** ** What the reports of the folders of explicit layers are stated
    against *)

Module FolderSpec.

(** The manifests of a folder: the entries whose name contains
    [".json"], in the order of the directory. *)
Definition manifests_of (sys : System) (folder : string) : list string :=
  filter (λ d_name, strstr (buf d_name) (buf ".json") = true)
    (default [] (readdir_all sys folder)).

(** What reading a manifest gave: the note shown beside its name. *)
Definition reading_note (sys : System) (path : string) : string :=
  match json_file sys path with
  | Unreadable => "ERROR reading JSON file!"
  | Malformed messages => messages
  | Document _ => ""
  end.

(** The name of the layer of a manifest that parses and gives its
    layer a name. *)
Definition layer_name (sys : System) (path : string) : option string :=
  match json_file sys path with
  | Document (objectValue members) =>
      match find_member "layer" members with
      | objectValue fields =>
          match find_member "name" fields with
          | stringValue name => Some name
          | _ => None
          end
      | _ => None
      end
  | _ => None
  end.

(** The rows that show that the manifest [d_name], the [i]-th of its
    folder, has been examined: its number, its name and what reading
    it gave, and the name of its layer if it gives one. *)
Definition manifest_report (sys : System) (folder : string) (i : nat)
    (d_name : string) : list Row :=
  [el ""; el_right (snprintf (MAX_STRING_LENGTH - 1) ("[" +:+ pretty i +:+ "]"));
   el d_name; el (reading_note sys (folder +:+ "/" +:+ d_name))]
  :: match layer_name sys (folder +:+ "/" +:+ d_name) with
     | Some name => [[el ""; el ""; el "Name"; el name]]
     | None => []
     end.

Definition manifest_rows (sys : System) (folder : string) : list Row :=
  concat (imap (manifest_report sys folder) (manifests_of sys folder)).

(** A report on the folder: it begins with a row that names the
    folder, and it holds the rows of the manifests of the folder, in
    the order of the directory. *)
Definition reports_folder (sys : System) (id folder : string)
    (report : list Row) : Prop :=
  (∃ note rest, report = [el ""; el_right id; el folder; el note] :: rest) ∧
  manifest_rows sys folder `sublist_of` report.

End FolderSpec.

(** ** More hosts *)

Module Hosts.

(** A host with manifests of layers that cannot be read or parsed, in
    a folder of implicit layers and in a folder of explicit layers. *)
Definition broken_layers_system : System :=
  {| lib64 := true;
     readdir_all := λ f,
       if decide (f = "/etc/vulkan/explicit_layer.d")
       then Some ["a.json"; "readme.txt"; "b.json"; "c.json"]
       else if decide (f = "/etc/vulkan/implicit_layer.d")
       then Some ["gone.json"]
       else None;
     json_file := λ f,
       if decide (f = "/etc/vulkan/explicit_layer.d/a.json")
       then Malformed "* Line 1, Column 1"
       else if decide (f = "/etc/vulkan/explicit_layer.d/c.json")
       then Document Examples.explicit_layer
       else Unreadable;
     access_R_OK := λ _, false;
     dlopen_error := λ _, Some "cannot open shared object file";
     popen_first_line := λ _, Some None;
     text_file := λ _, None;
     localtime_now := Examples.noon |}.

(** A driver manifest that names its library without a folder. *)
Definition driver_named (library : string) : Value :=
  objectValue
    [ ("ICD",
       objectValue
         [ ("api_version", stringValue "1.1.0");
           ("library_path", stringValue library) ]);
      ("file_format_version", stringValue "1.0.0") ].

(** Two driver manifests outside the folders of the search.  The
    library of the first is nowhere; that of the second is in
    [/opt/lib]. *)
Definition two_drivers_system : System :=
  {| lib64 := true;
     readdir_all := λ _, None;
     json_file := λ f,
       if decide (f = "/opt/a.json") then Document (driver_named "liba.so")
       else if decide (f = "/opt/b.json")
       then Document (driver_named "libb.so")
       else Unreadable;
     access_R_OK := λ f,
       bool_decide (f ∈ ["/opt/a.json"; "/opt/b.json"; "/opt/lib/libb.so"]);
     dlopen_error := λ _, None;
     popen_first_line := λ _, Some None;
     text_file := λ _, None;
     localtime_now := Examples.noon |}.

(** [LD_LIBRARY_PATH] names [/opt/lib], [VK_ICD_FILENAMES] the second
    manifest. *)
Definition second_driver_alone : Environ :=
  <["VK_ICD_FILENAMES" := "/opt/b.json"]> (<["LD_LIBRARY_PATH" := "/opt/lib"]> ∅).

(** [LD_LIBRARY_PATH] names [/opt/lib], [VK_ICD_FILENAMES] both
    manifests. *)
Definition both_drivers : Environ :=
  <["VK_ICD_FILENAMES" := "/opt/a.json:/opt/b.json"]>
    (<["LD_LIBRARY_PATH" := "/opt/lib"]> ∅).

(** The enable variable of [Examples.toggled_layer] holds a numeral of
    16 characters. *)
Definition long_enable : Environ :=
  <["ENABLE_EXAMPLE" := "0000000000000001"]> ∅.

(** The enable variable holds 1, the disable variable a numeral
    beyond the range of [int]. *)
Definition large_disable : Environ :=
  <["DISABLE_EXAMPLE" := "999999999999999"]> (<["ENABLE_EXAMPLE" := "1"]> ∅).

End Hosts.

(** ** What the runtime search and the tests are stated against *)

Module RuntimeSpec.

Import Runtimes.

(** An entry of the folder that [PrintRuntimesInFolder] looks into and
    for which the pipe of [stat] cannot be opened. *)
Definition stat_fails (sys : System) (folder_loc object_name d_name : string)
  : bool :=
  is_runtime_entry object_name d_name
  && bool_decide (popen_first_line sys (stat_command folder_loc d_name) = None).

End RuntimeSpec.

Module TestSpec.

Import Tests.

(** The first run of a pass returns 0. *)
Definition first_run_passes (host : TestHost) (sdk : SdkState) (pass : nat)
  : bool :=
  bool_decide (run_result host sdk pass (first_command sdk pass) = 0).

(** The run with [--validate] is made and returns neither 0 nor 1. *)
Definition validation_fails (host : TestHost) (sdk : SdkState) (pass : nat)
  : bool :=
  first_run_passes host sdk pass
  && negb (bool_decide (run_result host sdk pass (validate_command sdk pass) = 0))
  && negb (bool_decide (run_result host sdk pass (validate_command sdk pass) = 1)).

End TestSpec.

(** ** Counting the rows that a run of the writer opens and closes *)

Module HtmlSpec.

Import HtmlWriter.

Definition begins_row (op : Op) : bool :=
  match op with OpBeginTableRow => true | _ => false end.

Definition ends_row (op : Op) : bool :=
  match op with OpEndTableRow => true | _ => false end.

(** The number of [PrintBeginTableRow] among the calls. *)
Definition rows_begun (ops : list Op) : nat :=
  length (List.filter begins_row ops).

(** The number of [PrintEndTableRow] among the calls. *)
Definition rows_ended (ops : list Op) : nat :=
  length (List.filter ends_row ops).

End HtmlSpec.

(** ** The tables of [PrintSystemInfo]: distribution, memory, disk *)

Module SystemTables.

Import HtmlWriter.

(** The characters removed from the end of the [PRETTY_NAME] line
    (line 2752): blank, tab, carriage return, line feed, double
    quote. *)
Definition is_trailing (c : ascii) : bool :=
  bool_decide (c = " "%char) || bool_decide (c = "009"%char)
  || bool_decide (c = "013"%char) || bool_decide (c = "010"%char)
  || bool_decide (c = "034"%char).

(** The characters skipped from offset 13 on (line 2758): blank, tab,
    double quote. *)
Definition is_leading (c : ascii) : bool :=
  bool_decide (c = " "%char) || bool_decide (c = "009"%char)
  || bool_decide (c = "034"%char).

(** Lines 2751-2756: [path[strlen (path) - 1] = '\0'] as long as the
    last character is one of the five. *)
Fixpoint strip_end (path : list ascii) : list ascii :=
  match path with
  | [] => []
  | c :: rest =>
      match strip_end rest with
      | [] => if is_trailing c then [] else [c]
      | kept => c :: kept
      end
  end.

(** Lines 2757-2760: [index++] as long as [path[index]] is one of the
    three. *)
Fixpoint skip_lead (path : list ascii) : list ascii :=
  match path with
  | c :: rest => if is_leading c then skip_lead rest else path
  | [] => []
  end.

(** [global_items.os_name] for a line that holds [PRETTY_NAME] (lines
    2749-2761).  The name begins at offset 13 whatever stands before
    it; for a line of fewer than 13 characters that offset lies behind
    the terminator [fgets] wrote, in what an earlier line left in the
    buffer: [None]. *)
Definition os_name (path : list ascii) : option (list ascii) :=
  if (strlen path <? 13)%nat then None
  else Some (skip_lead (drop 13 (strip_end path))).

(** The [while (fgets (...))] loop: the first line that holds
    [PRETTY_NAME]. *)
Fixpoint pretty_name_line (lines : list (list ascii)) : option (list ascii) :=
  match lines with
  | [] => None
  | path :: rest =>
      if strstr path (buf "PRETTY_NAME") then Some path
      else pretty_name_line rest
  end.

(** The rows for the distribution (lines 2738-2776), from the lines
    that [cat /etc/os-release] prints. *)
Definition distro_rows (lines : list (list ascii)) : option (list Row) :=
  match pretty_name_line lines with
  | Some path =>
      name ← os_name path;
      Some [ [el "Linux"; el ""; el ""];
             [el ""; el "Distro"; el (to_string name)] ]
  | None => Some []
  end.

(** [static_cast<uint32_t> (value)] and the unit, as [snprintf] is
    given them. *)
Definition amount (value : Z) (unit : string) : Z * string :=
  (wrap_unsigned 32 value, unit).

Definition amount_text (a : Z * string) : string :=
  snprintf (MAX_STRING_LENGTH - 1) (pretty a.1 +:+ " " +:+ a.2).

(** Lines 2877-2888: the amount of physical memory, from [memory] as
    line 2876 leaves it, a [uint64_t] in KB. *)
Definition memory_amount (memory : Z) : Z * string :=
  if 0 <? Z.shiftr memory 10 then
    let memory := Z.shiftr memory 10 in
    if 0 <? Z.shiftr memory 20 then amount (Z.shiftr memory 20) "TB"
    else if 0 <? Z.shiftr memory 10 then amount (Z.shiftr memory 10) "GB"
    else amount memory "MB"
  else amount memory "KB".

(** The calls for one row of the free disk space; the branch for GB
    (lines 2905-2910) has no [PrintEndTableRow]. *)
Definition disk_row (a : Z * string) (ended : bool) : list Op :=
  [ OpBeginTableRow;
    OpTableElement "System Disk Space" ALIGN_LEFT;
    OpTableElement "Free" ALIGN_LEFT;
    OpTableElement (amount_text a) ALIGN_LEFT ]
  ++ (if ended then [OpEndTableRow] else []).

(** Lines 2896-2933, from the members [f_bsize] and [f_bavail] that
    [statvfs] filled in ([None] when it failed); both are unsigned
    64-bit integers, and so is their product. *)
Definition system_disk_space (fs_stats : option (Z * Z)) : list Op :=
  match fs_stats with
  | Some (f_bsize, f_bavail) =>
      let bytes_total := wrap_unsigned 64 (f_bsize * f_bavail) in
      if 0 <? Z.shiftr bytes_total 40 then
        disk_row (amount (Z.shiftr bytes_total 40) "TB") true
      else if 0 <? Z.shiftr bytes_total 30 then
        disk_row (amount (Z.shiftr bytes_total 30) "GB") false
      else if 0 <? Z.shiftr bytes_total 20 then
        disk_row (amount (Z.shiftr bytes_total 20) "MB") true
      else if 0 <? Z.shiftr bytes_total 10 then
        disk_row (amount (Z.shiftr bytes_total 10) "KB") true
      else disk_row (amount bytes_total "bytes") true
  | None => []
  end.

End SystemTables.

(** * Properties *)

(** ** PathResolver *)

Module PathResolverFacts.

Import PathResolver.

Lemma strrchr_lt s c i : strrchr s c = Some i → (i < length s)%nat.
Proof.
  revert i. induction s as [|a r IH]; intros i; simpl; [done|].
  destruct (strrchr r c) as [j|].
  - intros [= <-]. specialize (IH j eq_refl). lia.
  - case_decide; [intros [= <-]; lia | done].
Qed.

Lemma strrchr_take_None s c n : strrchr s c = None → strrchr (take n s) c = None.
Proof.
  revert n. induction s as [|a r IH]; intros [|n]; simpl; try done.
  destruct (strrchr r c) eqn:E; [done|].
  case_decide; [done|]. intros _. by rewrite IH.
Qed.

(** Cutting just behind the last [c] leaves it the last [c]. *)
Lemma strrchr_take_Some s c i :
  strrchr s c = Some i → strrchr (take (S i) s) c = Some i.
Proof.
  revert i. induction s as [|a r IH]; intros i; simpl; [done|].
  destruct (strrchr r c) as [j|] eqn:E.
  - intros [= <-]. by rewrite (IH j eq_refl).
  - case_decide as Hac; [|done]. intros [= <-]. simpl.
    destruct (decide (a = c)); done.
Qed.

(** A path cut behind its last separator is cut there already. *)
Lemma terminate_idempotent p :
  terminate_after_last_separator (terminate_after_last_separator p)
  = terminate_after_last_separator p.
Proof.
  unfold terminate_after_last_separator.
  destruct (strrchr p "\"%char) as [i|] eqn:Eb.
  - rewrite (strrchr_take_Some _ _ _ Eb).
    rewrite take_take. f_equal. lia.
  - destruct (strrchr p "/"%char) as [i|] eqn:Es.
    + rewrite (strrchr_take_None _ _ _ Eb), (strrchr_take_Some _ _ _ Es).
      rewrite take_take. f_equal. lia.
    + by rewrite Eb, Es.
Qed.

(** The "go up a folder" rounds leave such a path as it is. *)
Lemma skip_parent_segments_base library_info final_path :
  terminate_after_last_separator final_path = final_path →
  (skip_parent_segments library_info final_path).2 = final_path.
Proof.
  intros Hfix.
  remember (length library_info) as n eqn:Hn.
  revert library_info Hn.
  induction n as [n IH] using lt_wf_ind; intros library_info Hn.
  destruct library_info as [|c0 [|c1 [|c2 rest]]]; try done.
  simpl. destruct (_ && _ && _); [|done].
  rewrite Hfix. eapply IH; [|done]. simpl in Hn. lia.
Qed.

(** What is left of the reference is a suffix of it. *)
Lemma skip_parent_segments_suffix library_info final_path :
  (skip_parent_segments library_info final_path).1 `suffix_of` library_info.
Proof.
  remember (length library_info) as n eqn:Hn.
  revert library_info final_path Hn.
  induction n as [n IH] using lt_wf_ind; intros library_info final_path Hn.
  destruct library_info as [|c0 [|c1 [|c2 rest]]]; try done.
  simpl. destruct (_ && _ && _); [|done].
  etrans; [eapply IH; [|done]; simpl in Hn; lia|].
  by exists [c0; c1; c2].
Qed.

(** For a relative reference the result always begins with the folder
    of the manifest itself, however many ["../"] the reference starts
    with. *)
Lemma GenerateLibraryPath_keeps_folder json_location library_info max_length :
  is_separator (char_at library_info 0)
  || bool_decide (char_at library_info 1 = ":"%char) = false →
  ∃ rest,
    rest `suffix_of` library_info ∧
    GenerateLibraryPath (Some json_location) (Some library_info) max_length
    = Some (take (MAX_STRING_LENGTH - 1)
              (terminate_after_last_separator
                 (take (if (MAX_STRING_LENGTH <? max_length)%nat
                        then MAX_STRING_LENGTH else max_length)
                    json_location))
            ++ take (if (MAX_STRING_LENGTH <? max_length)%nat
                     then MAX_STRING_LENGTH else max_length) rest).
Proof.
  intros Hrel. unfold GenerateLibraryPath. rewrite Hrel.
  set (len := if (MAX_STRING_LENGTH <? max_length)%nat then _ else _).
  set (base := terminate_after_last_separator (strncpy json_location len)).
  pose proof (skip_parent_segments_base library_info base
                (terminate_idempotent _)) as Hbase.
  pose proof (skip_parent_segments_suffix library_info base) as Hsuf.
  destruct (skip_parent_segments library_info base) as [rest fp].
  simpl in *. subst fp.
  exists (skip_current_segments rest). split; [|done].
  etrans; [|exact Hsuf].
  clear. remember (length rest) as n eqn:Hn. revert rest Hn.
  induction n as [n IH] using lt_wf_ind; intros rest Hn.
  destruct rest as [|c0 [|c1 r]]; try done.
  simpl. destruct (_ && _); [|done].
  etrans; [eapply IH; [|done]; simpl in Hn; lia|].
  by exists [c0; c1].
Qed.

(** C2.  Resolving the reference ["../../x"] against the manifest path
    ["/a/b/c/m.json"] gives ["/a/b/c/x"], the folder of the manifest
    with both ["../"] removed from the reference and no folder
    ascended; it does not give ["/a/x"]. *)
Theorem resolve_parent_segments_do_not_ascend :
  resolve "/a/b/c/m.json" "../../x" = Some "/a/b/c/x" ∧
  resolve "/a/b/c/m.json" "../../x" ≠ Some "/a/x".
Proof. split; [reflexivity | discriminate]. Qed.

End PathResolverFacts.

(** ** EnablementEvaluator *)

Module LayerFacts.

Import Layers ToggleSpec.

Lemma first_key_elem ks k : first_key ks = Some k → k ∈ ks.
Proof.
  induction ks as [|a r IH]; simpl; [done|].
  destruct (isNull a); [|intros [= ->]; left].
  intros ?. right. auto.
Qed.

(** The key of an iterator position is a member name or an index, and
    [asString] returns on both. *)
Lemma key_asString v k : k ∈ keys v → is_Some (asString k).
Proof.
  destruct v; simpl; try (by intros ?%elem_of_nil).
  - intros (i & -> & _)%list_elem_of_fmap. by eexists.
  - intros (m & -> & _)%list_elem_of_fmap. by eexists.
Qed.

Lemma enable_block_expired env enable :
  ∃ fl, enable_block env enable initial_flags = Some fl ∧ expired fl = false.
Proof.
  unfold enable_block.
  destruct (isNull enable); simpl; [by eexists|].
  destruct (first_key (keys enable)) as [k|] eqn:Ek; simpl; [|by eexists].
  destruct (key_asString _ _ (first_key_elem _ _ Ek)) as [name ->]. simpl.
  by eexists.
Qed.

Lemma disable_block_expired env disable fl :
  ∃ fl', disable_block env disable fl = Some fl' ∧ expired fl' = expired fl.
Proof.
  unfold disable_block.
  destruct (isNull disable); simpl; [by eexists|].
  destruct (first_key (keys disable)) as [k|] eqn:Ek; simpl; [|by eexists].
  destruct (key_asString _ _ (first_key_elem _ _ Ek)) as [name ->]. simpl.
  by eexists.
Qed.

(** The toggles never set [expired]. *)
Lemma toggle_flags_not_expired env root fl :
  toggle_flags env root = Some fl → expired fl = false.
Proof.
  unfold toggle_flags. intros H.
  destruct (member root "layer") as [layer|]; simpl in H; [|done].
  destruct (member layer "enable_environment") as [enable|]; simpl in H; [|done].
  destruct (enable_block_expired env enable) as (fl1 & E1 & X1).
  rewrite E1 in H. simpl in H.
  destruct (member layer "disable_environment") as [disable|]; simpl in H;
    [|done].
  destruct (disable_block_expired env disable fl1) as (fl2 & E2 & X2).
  rewrite E2 in H. injection H as <-. congruence.
Qed.

(** *** Reading the value of a toggle variable *)

Lemma digit_value_digit c : digit_value c = digit c.
Proof. by destruct c as [[] [] [] [] [] [] [] []]. Qed.

Lemma digit_not_space c d : digit_value c = Some d → isspace c = false.
Proof. by destruct c as [[] [] [] [] [] [] [] []]. Qed.

Lemma digit_not_NUL c d : digit_value c = Some d → c ≠ "000"%char.
Proof. by destruct c as [[] [] [] [] [] [] [] []]. Qed.

(** The loop of [strtol] computes the number that the digits write. *)
Lemma digits_natural ds :
  ∀ acc n, natural_of ds = Some n →
           digits ds acc = acc * 10 ^ Z.of_nat (length ds) + n.
Proof.
  induction ds as [|c r IH]; intros acc n; cbn [natural_of digits length].
  - intros [= <-]. change (10 ^ Z.of_nat 0) with 1. lia.
  - rewrite <- digit_value_digit.
    destruct (digit_value c) as [d|]; simpl; [|done].
    destruct (natural_of r) as [m|] eqn:Hm; simpl; [|done].
    intros [= <-]. rewrite (IH _ m eq_refl).
    rewrite Nat2Z.inj_succ, Z.pow_succ_r by lia. ring.
Qed.

Lemma natural_no_NUL ds n :
  natural_of ds = Some n → Forall (λ c, c ≠ "000"%char) ds.
Proof.
  revert n. induction ds as [|c r IH]; intros n; cbn [natural_of];
    [constructor|].
  destruct (digit_value c) as [d|] eqn:Hd; simpl; [|done].
  destruct (natural_of r) as [m|]; simpl; [|done].
  intros _. constructor; [by eapply digit_not_NUL|by eapply IH].
Qed.

Lemma unsigned_natural ds n : unsigned_of ds = Some n → natural_of ds = Some n.
Proof. by destruct ds. Qed.

Lemma integer_no_NUL text n :
  integer_of text = Some n →
  Forall (λ c, c ≠ "000"%char) (list_ascii_of_string text).
Proof.
  unfold integer_of. destruct (list_ascii_of_string text) as [|c ds]; [done|].
  repeat case_decide; subst.
  - intros (m & Hm%unsigned_natural & _)%fmap_Some.
    constructor; [done|by eapply natural_no_NUL].
  - intros Hm%unsigned_natural. constructor; [done|by eapply natural_no_NUL].
  - intros Hm%unsigned_natural. by eapply natural_no_NUL.
Qed.

(** [atoi] on a numeral gives the integer it writes, narrowed to
    [int]. *)
Lemma atoi_integer text n :
  integer_of text = Some n →
  atoi (list_ascii_of_string text) = wrap_signed 32 n.
Proof.
  unfold integer_of, atoi.
  destruct (list_ascii_of_string text) as [|c ds]; [done|].
  destruct (decide (c = "-"%char)) as [->|Hminus].
  { intros (m & Hm%unsigned_natural & ->)%fmap_Some.
    change (skip_space ("-"%char :: ds)) with ("-"%char :: ds).
    cbv beta iota. rewrite decide_True by done.
    rewrite (digits_natural ds 0 m Hm). f_equal; lia. }
  destruct (decide (c = "+"%char)) as [->|Hplus].
  { intros Hm%unsigned_natural.
    change (skip_space ("+"%char :: ds)) with ("+"%char :: ds).
    cbv beta iota. rewrite decide_False, decide_True by done.
    rewrite (digits_natural ds 0 n Hm). f_equal; lia. }
  intros Hn%unsigned_natural.
  assert (isspace c = false) as Hspace.
  { cbn [natural_of] in Hn. destruct (digit_value c) as [d|] eqn:Hd; [|done].
    by eapply digit_not_space. }
  cbn [skip_space]. rewrite Hspace. cbv beta iota.
  rewrite !decide_False by done.
  rewrite (digits_natural (c :: ds) 0 n Hn). f_equal; lia.
Qed.

Lemma wrap_signed_int n : (- 2 ^ 31 ≤ n < 2 ^ 31)%Z → wrap_signed 32 n = n.
Proof.
  intros Hn. unfold wrap_signed.
  change (2 ^ (32 - 1))%Z with (2 ^ 31)%Z.
  change (2 ^ 32)%Z with (2 * 2 ^ 31)%Z.
  rewrite Z.mod_small by lia. lia.
Qed.

(** The 15 characters that [strncpy] copies are the first 15
    characters of the value when these hold no NUL. *)
Lemma strncpy_first_characters n text :
  Forall (λ c, c ≠ "000"%char) (list_ascii_of_string (substring 0 n text)) →
  strncpy (c_str text) n = list_ascii_of_string (substring 0 n text).
Proof.
  unfold strncpy. revert text.
  induction n as [|n IH]; intros [|c text]; simpl; try done.
  intros [Hc Hrest]%Forall_cons. rewrite decide_False by done.
  simpl. by rewrite IH.
Qed.

Lemma name_c_str name :
  forallb (λ c, negb (bool_decide (c = "000"%char))) (list_ascii_of_string name)
  = true →
  to_string (c_str name) = name.
Proof.
  induction name as [|c name IH]; simpl; [done|].
  intros [Hc Hrest]%andb_true_iff.
  apply negb_true_iff, bool_decide_eq_false in Hc.
  rewrite decide_False by done. simpl. by rewrite IH.
Qed.

(** A text that does not begin like a number reads as 0, and writes
    no integer. *)
Lemma no_number_atoi text n :
  no_number text = true → atoi (strncpy (c_str text) n) = 0.
Proof.
  destruct text as [|c text]; [by destruct n|].
  cbn [no_number c_str].
  intros [[[Hspace Hminus]%andb_true_iff Hplus]%andb_true_iff Hdigit]%andb_true_iff.
  destruct (decide (c = "000"%char)) as [->|Hnul]; [by destruct n|].
  destruct n as [|n]; [done|].
  apply negb_true_iff in Hspace, Hminus, Hplus.
  apply bool_decide_eq_false in Hminus, Hplus.
  apply bool_decide_eq_true in Hdigit.
  unfold strncpy, atoi. cbn [take skip_space].
  assert (isspace c = false) as ->.
  { clear -Hspace. by destruct c as [[] [] [] [] [] [] [] []]. }
  cbv beta iota. rewrite !decide_False by done.
  cbn [digits]. by rewrite <- digit_value_digit, Hdigit.
Qed.

Lemma no_number_integer text :
  no_number text = true → short_integer_of text = None.
Proof.
  destruct text as [|c text]; [done|].
  cbn [no_number].
  intros [[[Hspace Hminus]%andb_true_iff Hplus]%andb_true_iff Hdigit]%andb_true_iff.
  apply negb_true_iff in Hminus, Hplus.
  apply bool_decide_eq_false in Hminus, Hplus.
  apply bool_decide_eq_true in Hdigit.
  unfold short_integer_of, first_characters, integer_of.
  cbn [substring list_ascii_of_string].
  rewrite !decide_False by done.
  cbn [unsigned_of natural_of]. by rewrite Hdigit.
Qed.

(** What the program reads from a toggle variable that does not begin
    like a number, or whose first 15 characters write an integer in
    the range of [int]; [test] is the comparison made on it. *)
Lemma env_value_copy_integer (test : Z → bool) env name :
  test 0 = false →
  forallb (λ c, negb (bool_decide (c = "000"%char))) (list_ascii_of_string name)
  = true →
  match env !! name with
  | Some text =>
      no_number text
      || match short_integer_of text with
         | Some n => (- 2 ^ 31 <=? n) && (n <? 2 ^ 31)
         | None => false
         end
  | None => true
  end = true →
  from_option (λ copy, test (atoi copy)) false (env_value_copy env name)
  = from_option test false (env !! name ≫= short_integer_of).
Proof.
  intros Htest Hname Hshort. unfold env_value_copy, getenv.
  rewrite (name_c_str name Hname).
  destruct (env !! name) as [text|]; [|done].
  change (test (atoi (strncpy (c_str text) 15))
          = from_option test false (short_integer_of text)).
  destruct (no_number text) eqn:Hno.
  { by rewrite (no_number_atoi text 15 Hno), (no_number_integer text Hno). }
  unfold short_integer_of, first_characters in *.
  destruct (integer_of (substring 0 15 text)) as [n|] eqn:Hn; [|done].
  apply andb_true_iff in Hshort as [Hlow Hhigh].
  rewrite (strncpy_first_characters 15 text) by by eapply integer_no_NUL.
  rewrite (atoi_integer _ n Hn). simpl. f_equal. apply wrap_signed_int. lia.
Qed.

(** The enable toggle: rules 1 and 2. *)
Lemma enable_block_state env enable :
  plain_toggle enable = true → short_integer env enable = true →
  ∃ fl,
    enable_block env enable initial_flags = Some fl ∧
    expired fl = false ∧
    enabled fl
    = match toggle_integer short_integer_of env enable with
      | Some z =>
          if bool_decide (z ≠ 0) then true
          else match toggle_variable enable with
               | Some _ => false | None => true
               end
      | None =>
          match toggle_variable enable with Some _ => false | None => true end
      end.
Proof.
  unfold plain_toggle, short_integer, toggle_integer, enable_block.
  intros [Harray Hname]%andb_true_iff Hshort.
  destruct enable as [| | | | | |[|[name v] members]]; try done;
    try by eexists.
  cbn [toggle_variable] in *. simpl in Hshort |- *.
  pose proof (env_value_copy_integer (λ z, bool_decide (z ≠ 0)) env name
                eq_refl Hname Hshort) as Hcopy.
  eexists. split; [done|]. split; [done|]. simpl.
  destruct (env_value_copy env name) as [copy|],
           (env !! name ≫= short_integer_of) as [z|]; simpl in Hcopy;
    [rewrite Hcopy|rewrite Hcopy|rewrite <- Hcopy|]; clear Hcopy; try done;
    by case_bool_decide.
Qed.

(** The disable toggle: rule 3. *)
Lemma disable_block_state env disable fl :
  plain_toggle disable = true → short_integer env disable = true →
  ∃ fl',
    disable_block env disable fl = Some fl' ∧
    expired fl' = expired fl ∧
    enabled fl'
    = match toggle_integer short_integer_of env disable with
      | Some z => if bool_decide (0 < z) then false else enabled fl
      | None => enabled fl
      end.
Proof.
  unfold plain_toggle, short_integer, toggle_integer, disable_block.
  intros [Harray Hname]%andb_true_iff Hshort.
  destruct disable as [| | | | | |[|[name v] members]]; try done;
    try by eexists.
  cbn [toggle_variable] in *. simpl in Hshort |- *.
  pose proof (env_value_copy_integer (λ z, bool_decide (0 < z)) env name
                eq_refl Hname Hshort) as Hcopy.
  eexists. split; [done|]. split; [done|]. simpl.
  destruct (env_value_copy env name) as [copy|],
           (env !! name ≫= short_integer_of) as [z|]; simpl in Hcopy;
    [rewrite Hcopy|rewrite Hcopy|rewrite <- Hcopy|]; clear Hcopy; try done;
    by case_bool_decide.
Qed.

Lemma strlen_date_copy text :
  strlen (strncpy (c_str text) 32) = 16%nat ↔ strlen (c_str text) = 16%nat.
Proof. unfold strlen, strncpy. rewrite length_take. lia. Qed.

(** For a text without NUL the C length is the length of the string. *)
Lemma strlen_c_str text :
  Drivers.contains_char "000"%char text = false →
  strlen (c_str text) = String.length text.
Proof.
  unfold strlen. induction text as [|a r IH]; simpl; [done|].
  intros [Ha Hr]%orb_false_elim. apply bool_decide_eq_false in Ha.
  rewrite decide_False by done. simpl. by rewrite IH.
Qed.

(** An enabled layer with a 16-character expiration is shown as
    EXPIRED when some field of the timestamp exceeds the same field of
    the current time, and as DISABLED otherwise; never as ENABLED. *)
Lemma enabled_layer_with_expiration now text fl :
  enabled fl = true → expired fl = false → strlen (c_str text) = 16%nat →
  ∃ fl' rows,
    expiration_block now (stringValue text) fl = Some (fl', rows) ∧
    enabled_state fl'
    = if checkExpiration now (parse_expiration (strncpy (c_str text) 32))
      then "EXPIRED" else "DISABLED".
Proof.
  intros He Hx Hlen. unfold expiration_block. simpl.
  rewrite bool_decide_eq_true_2 by by apply strlen_date_copy.
  rewrite He. do 2 eexists. split; [done|].
  unfold enabled_state. simpl. by destruct (checkExpiration _ _).
Qed.

(** C1.  A layer without toggles whose expiration 2000-01-01 00:00 is
    long past at 2024-06-15 12:30 begins enabled and is shown as
    DISABLED, not as EXPIRED; with the expiration 2099-12-31 23:59,
    still ahead, it is shown as EXPIRED, not as ENABLED. *)
Theorem expiration_verdict_inverted :
  enabled <$> toggle_flags ∅ (Examples.expiring_layer "2000-01-01-00-00")
  = Some true ∧
  (λ r, enabled_state r.1)
  <$> evaluate ∅ Examples.noon (Examples.expiring_layer "2000-01-01-00-00")
  = Some "DISABLED" ∧
  (λ r, enabled_state r.1)
  <$> evaluate ∅ Examples.noon (Examples.expiring_layer "2099-12-31-23-59")
  = Some "EXPIRED".
Proof. repeat split; vm_compute; reflexivity. Qed.

(** C7, as the program has it.  Take an implicit layer manifest whose
    toggles are not arrays, and an environment in which the value of
    each toggle variable that is set either does not begin like a
    number or holds, in its first 15 characters, a decimal integer in
    the range of a 32-bit [int].  The state the two toggles leave is
    the one the three rules give when applied in their order to those
    first 15 characters: enabled by default unless an enable toggle is
    declared; enabled if the enable toggle's variable holds a nonzero
    integer; then disabled if the disable toggle's variable holds an
    integer greater than zero. *)
Theorem toggles_follow_rules env root layer enable disable :
  member root "layer" = Some layer →
  member layer "enable_environment" = Some enable →
  member layer "disable_environment" = Some disable →
  plain_toggle enable = true → plain_toggle disable = true →
  short_integer env enable = true → short_integer env disable = true →
  ∃ fl,
    toggle_flags env root = Some fl ∧
    enabled fl = state_by_rules short_integer_of env enable disable ∧
    enabled_state fl = if enabled fl then "ENABLED" else "DISABLED".
Proof.
  intros Hl He Hd Hpe Hpd Hse Hsd.
  unfold toggle_flags. rewrite Hl. simpl. rewrite He. simpl.
  destruct (enable_block_state env enable Hpe Hse) as (fl1 & -> & X1 & R1).
  simpl. rewrite Hd. simpl.
  destruct (disable_block_state env disable fl1 Hpd Hsd)
    as (fl2 & -> & X2 & R2).
  exists fl2. split; [done|]. split.
  - rewrite R2, R1. unfold state_by_rules.
    by destruct (toggle_integer short_integer_of env enable).
  - unfold enabled_state. by rewrite X2, X1.
Qed.

Lemma toggles_follow_rules_witness :
  ∃ fl,
    toggle_flags Examples.both_set Examples.toggled_layer = Some fl ∧
    enabled fl = false ∧ enabled_state fl = "DISABLED".
Proof.
  destruct (toggles_follow_rules Examples.both_set Examples.toggled_layer
              (objectValue
                 [ ("disable_environment",
                    objectValue [("DISABLE_EXAMPLE", stringValue "1")]);
                   ("enable_environment",
                    objectValue [("ENABLE_EXAMPLE", stringValue "1")]);
                   ("expiration", stringValue "2000-01-01-00-00");
                   ("name", stringValue "VK_LAYER_example") ])
              (objectValue [("ENABLE_EXAMPLE", stringValue "1")])
              (objectValue [("DISABLE_EXAMPLE", stringValue "1")])
              eq_refl eq_refl eq_refl eq_refl eq_refl eq_refl eq_refl)
    as (fl & Hfl & Hen & Hst).
  exists fl. split; [exact Hfl|].
  assert (enabled fl = false) as Hoff by (rewrite Hen; vm_compute; reflexivity).
  split; [exact Hoff|]. rewrite Hst, Hoff. reflexivity.
Defined.

(** C7, as stated, fails where a value is longer than 15 characters or
    beyond the range of [int].  In the first run the enable variable
    holds 0000000000000001, the integer 1: by the rules the layer is
    enabled, and the program, which reads fifteen zeros, leaves it
    disabled.  In the second the enable variable holds 1 and the
    disable variable 999999999999999: by the rules the layer is
    disabled, and the program, which narrows the number to a negative
    [int], leaves it enabled. *)
Lemma long_values_read_otherwise :
  let enable :=
    VerdictSpec.field (VerdictSpec.field Examples.toggled_layer "layer")
      "enable_environment" in
  let disable :=
    VerdictSpec.field (VerdictSpec.field Examples.toggled_layer "layer")
      "disable_environment" in
  (Hosts.long_enable !! "ENABLE_EXAMPLE" = Some "0000000000000001" ∧
   integer_of "0000000000000001" = Some 1 ∧
   state_by_rules integer_of Hosts.long_enable enable disable = true ∧
   enabled <$> toggle_flags Hosts.long_enable Examples.toggled_layer
   = Some false) ∧
  (Hosts.large_disable !! "DISABLE_EXAMPLE" = Some "999999999999999" ∧
   integer_of "999999999999999" = Some 999999999999999 ∧
   state_by_rules integer_of Hosts.large_disable enable disable = false ∧
   enabled <$> toggle_flags Hosts.large_disable Examples.toggled_layer
   = Some true).
Proof. repeat split; vm_compute; reflexivity. Qed.

(** C8.  A layer that the toggles leave disabled and that declares an
    expiration is shown as DISABLED whatever the timestamp and the
    current time are; it is never shown as EXPIRED. *)
Theorem disabled_layer_not_expired env now root layer fl text :
  toggle_flags env root = Some fl →
  enabled fl = false →
  member root "layer" = Some layer →
  member layer "expiration" = Some (stringValue text) →
  ∃ fl' rows,
    evaluate env now root = Some (fl', rows) ∧
    enabled_state fl' = "DISABLED" ∧
    [el ""; el ""; el "Enabled State"; el "DISABLED"] ∈ state_rows fl'.
Proof.
  intros Hfl Hoff Hl Hexp.
  pose proof (toggle_flags_not_expired _ _ _ Hfl) as Hx.
  unfold evaluate. rewrite Hfl. simpl. rewrite Hl. simpl. rewrite Hexp. simpl.
  unfold expiration_block. simpl. rewrite Hoff.
  assert (enabled_state fl = "DISABLED") as Hst
      by (unfold enabled_state; by rewrite Hx, Hoff).
  case_bool_decide; do 2 eexists; (split; [done|]); (split; [done|]);
    unfold state_rows; rewrite Hst; by left.
Qed.

Lemma disabled_layer_not_expired_witness :
  ∃ fl' rows,
    evaluate Examples.both_set Examples.noon Examples.toggled_layer
    = Some (fl', rows) ∧
    enabled_state fl' = "DISABLED" ∧
    [el ""; el ""; el "Enabled State"; el "DISABLED"] ∈ state_rows fl'.
Proof.
  eapply (disabled_layer_not_expired Examples.both_set Examples.noon
            Examples.toggled_layer _ _ "2000-01-01-00-00");
    vm_compute; reflexivity.
Defined.

(** C10.  When the expiration of a layer is a text whose length is not
    16, the expiration block changes nothing and prints no row: no
    timestamp is parsed, the flags stay as the toggles left them, and
    the layer is shown as ENABLED or DISABLED, never as EXPIRED. *)
Theorem expiration_of_other_length_skipped env now root layer fl text :
  toggle_flags env root = Some fl →
  member root "layer" = Some layer →
  member layer "expiration" = Some (stringValue text) →
  strlen (c_str text) ≠ 16%nat →
  evaluate env now root = Some (fl, []) ∧
  enabled_state fl = (if enabled fl then "ENABLED" else "DISABLED") ∧
  enabled_state fl ≠ "EXPIRED".
Proof.
  intros Hfl Hl Hexp Hlen.
  pose proof (toggle_flags_not_expired _ _ _ Hfl) as Hx.
  unfold evaluate. rewrite Hfl. simpl. rewrite Hl. simpl. rewrite Hexp. simpl.
  unfold expiration_block. simpl.
  rewrite bool_decide_eq_false_2
    by (intros Hcopy; by apply strlen_date_copy in Hcopy).
  split; [done|]. unfold enabled_state. rewrite Hx.
  by destruct (enabled fl).
Qed.

Lemma expiration_of_other_length_skipped_witness :
  evaluate ∅ Examples.noon (Examples.expiring_layer "2000-01-01")
  = Some (initial_flags, []) ∧
  enabled_state initial_flags = "ENABLED" ∧
  enabled_state initial_flags ≠ "EXPIRED".
Proof.
  apply (expiration_of_other_length_skipped ∅ Examples.noon
           (Examples.expiring_layer "2000-01-01")
           (objectValue
              [ ("expiration", stringValue "2000-01-01");
                ("name", stringValue "VK_LAYER_example") ])
           initial_flags "2000-01-01");
    [reflexivity | reflexivity | reflexivity | vm_compute; lia].
Defined.

End LayerFacts.

(** ** SettingsFileReader *)

Module SettingsFacts.

Import Settings.

Lemma append_cons a s t : String a s +:+ t = String a (s +:+ t).
Proof. reflexivity. Qed.

Lemma append_empty t : "" +:+ t = t.
Proof. reflexivity. Qed.

(** The first occurrence of a character that the text before it does
    not contain. *)
Lemma find_append c a b :
  find c a = None → find c (a +:+ String c b) = Some (String.length a).
Proof.
  induction a as [|x a IH]; rewrite ?append_empty, ?append_cons; simpl.
  - intros _. by rewrite decide_True.
  - case_decide; [done|].
    destruct (find c a); [done|]. intros _. by rewrite IH.
Qed.

Lemma substring_all s : String.substring 0 (String.length s) s = s.
Proof. induction s as [|x s IH]; simpl; [done|]. by rewrite IH. Qed.

Lemma substring_prefix a b :
  String.substring 0 (String.length a) (a +:+ b) = a.
Proof.
  induction a as [|x a IH]; rewrite ?append_empty, ?append_cons; simpl.
  - by destruct b.
  - by rewrite IH.
Qed.

Lemma substr_from_suffix c a b :
  substr_from (String.length a + 1) (a +:+ String c b) = b.
Proof.
  unfold substr_from.
  induction a as [|x a IH]; rewrite ?append_empty, ?append_cons; simpl.
  - rewrite Nat.sub_0_r. apply substring_all.
  - apply IH.
Qed.

Lemma append_setting_match bucket pair (settings : gmap string (list SettingPair)) :
  match settings !! bucket with
  | None => <[bucket := [pair]]> settings
  | Some cur_vector => <[bucket := cur_vector ++ [pair]]> settings
  end = append_setting bucket pair settings.
Proof. unfold append_setting. by destruct (settings !! bucket). Qed.

(** A line that is blank, a comment, or without ["="] changes nothing. *)
Lemma settings_line_skipped cur_line settings :
  TrimWhitespace cur_line default_whitespace = ""
  ∨ is_comment (TrimWhitespace cur_line default_whitespace) = true
  ∨ find "="%char (TrimWhitespace cur_line default_whitespace) = None →
  settings_line cur_line settings = settings.
Proof.
  unfold settings_line. intros [-> | [-> | ->]]; [done| |].
  - by rewrite orb_true_r.
  - by destruct (_ || _).
Qed.

(** A line [before=after], [before] without ["="], gives one pair: the
    value is [after] trimmed; the trimmed [before] is the name, in the
    bucket ["--None--"], when it has no dot, and is split at its first
    dot into bucket and name otherwise. *)
Lemma settings_line_pair cur_line settings before after :
  TrimWhitespace cur_line default_whitespace = before +:+ String "=" after →
  find "="%char before = None →
  is_comment (before +:+ String "=" after) = false →
  (find "."%char (TrimWhitespace before default_whitespace) = None →
   settings_line cur_line settings
   = append_setting "--None--"
       {| name := TrimWhitespace before default_whitespace;
          value := TrimWhitespace after default_whitespace |} settings) ∧
  (∀ layer setting,
     TrimWhitespace before default_whitespace = layer +:+ String "." setting →
     find "."%char layer = None →
     settings_line cur_line settings
     = append_setting layer
         {| name := setting;
            value := TrimWhitespace after default_whitespace |} settings).
Proof.
  intros Htrim Hequal Hcomment. unfold settings_line. rewrite Htrim, Hcomment.
  assert ((String.length (before +:+ String "=" after) =? 0)%nat = false)
    as -> by (by destruct before).
  simpl. rewrite (find_append _ _ _ Hequal).
  rewrite substring_prefix, substr_from_suffix.
  split.
  - intros ->. apply append_setting_match.
  - intros layer setting -> Hdot. rewrite (find_append _ _ _ Hdot).
    rewrite substring_prefix, substr_from_suffix.
    apply append_setting_match.
Qed.

(** C6, as the program has it.  Blank lines, lines whose first
    character after trimming is [#] and lines without ["="] are
    skipped; every other line gives one pair, its trimmed key split at
    the first dot into bucket and name (bucket ["--None--"] when the key
    has no dot) and its value trimmed; and on the example file the
    result is the bucket ["LayerA"] with (setting1, true) and
    (setting2, 42) in that order and the bucket with the empty name,
    the text before the dot of [".globalOnly"], with (globalOnly, x);
    there is no bucket ["--None--"]. *)
Theorem settings_reader_rules :
  (∀ cur_line settings,
     TrimWhitespace cur_line default_whitespace = ""
     ∨ is_comment (TrimWhitespace cur_line default_whitespace) = true
     ∨ find "="%char (TrimWhitespace cur_line default_whitespace) = None →
     settings_line cur_line settings = settings) ∧
  (∀ cur_line settings before after,
     TrimWhitespace cur_line default_whitespace = before +:+ String "=" after →
     find "="%char before = None →
     is_comment (before +:+ String "=" after) = false →
     (find "."%char (TrimWhitespace before default_whitespace) = None →
      settings_line cur_line settings
      = append_setting "--None--"
          {| name := TrimWhitespace before default_whitespace;
             value := TrimWhitespace after default_whitespace |} settings) ∧
     (∀ layer setting,
        TrimWhitespace before default_whitespace
        = layer +:+ String "." setting →
        find "."%char layer = None →
        settings_line cur_line settings
        = append_setting layer
            {| name := setting;
               value := TrimWhitespace after default_whitespace |} settings)) ∧
  parse Examples.settings_example
  = <["" := [{| name := "globalOnly"; value := "x" |}]]>
      (<["LayerA" := [{| name := "setting1"; value := "true" |};
                      {| name := "setting2"; value := "42" |}]]> ∅) ∧
  parse Examples.settings_example !! "--None--" = None.
Proof.
  split; [exact settings_line_skipped|].
  split; [exact settings_line_pair|].
  split; vm_compute; reflexivity.
Qed.

Lemma settings_reader_rules_witness :
  settings_line ".globalOnly = x" ∅
  = append_setting "" {| name := "globalOnly"; value := "x" |} ∅.
Proof.
  refine (proj2 (proj1 (proj2 settings_reader_rules)
                   ".globalOnly = x" ∅ ".globalOnly " " x" _ _ _)
            "" "globalOnly" _ _);
    vm_compute; reflexivity.
Defined.

(** C6, as stated, fails on its example: the pair (globalOnly, x) is
    not in a bucket ["--None--"]; the file gives no such bucket. *)
Lemma leading_dot_is_not_the_default_bucket :
  parse Examples.settings_example !! "--None--"
  ≠ Some [{| name := "globalOnly"; value := "x" |}].
Proof. vm_compute. discriminate. Qed.

End SettingsFacts.

(** ** The text helpers of the settings reader *)

Module TextFacts.

Import Settings TextSpec.

Lemma string_append_assoc (a b c : string) : (a +:+ b) +:+ c = a +:+ (b +:+ c).
Proof.
  induction a as [|x a IH]; [done|].
  rewrite !SettingsFacts.append_cons. by rewrite IH.
Qed.

Lemma string_append_empty_r (a : string) : a +:+ "" = a.
Proof.
  induction a as [|x a IH]; [done|].
  rewrite SettingsFacts.append_cons. by rewrite IH.
Qed.

Lemma find_first_None_all_in text set :
  find_first_not_of text set = None ↔ all_in set text = true.
Proof.
  induction text as [|c rest IH]; simpl; [done|].
  destruct (in_set set c); simpl; [|done].
  rewrite <- IH. by destruct (find_first_not_of rest set).
Qed.

Lemma find_last_None_all_in text set :
  find_last_not_of text set = None ↔ all_in set text = true.
Proof.
  induction text as [|c rest IH]; simpl; [done|].
  destruct (find_last_not_of rest set) as [i|].
  - split; [done|]. intros [_ H]%andb_true_iff. by apply IH in H.
  - destruct (in_set set c); simpl; [|done]. by rewrite <- IH.
Qed.

(** The text up to the last character outside the set. *)
Lemma substring_to_last text set :
  match find_last_not_of text set with
  | Some e => String.substring 0 (S e) text
  | None => ""
  end = rtrim set text.
Proof.
  induction text as [|c rest IH]; simpl; [done|].
  rewrite <- IH.
  destruct (find_last_not_of rest set) as [i|] eqn:Hlast.
  - simpl. destruct rest as [|d rest']; [done|]. simpl. done.
  - destruct (in_set set c); [done|]. simpl. by destruct rest.
Qed.

Lemma rtrim_empty_all_in set text :
  rtrim set text = "" ↔ all_in set text = true.
Proof.
  induction text as [|c rest IH]; simpl; [done|].
  destruct (rtrim set rest) as [|d kept].
  - destruct (in_set set c); simpl; [|done]. by rewrite <- IH.
  - split; [done|]. intros [_ H]%andb_true_iff. by apply IH in H.
Qed.

(** [TrimWhitespace] is the text without the characters of the set at
    its two ends. *)
Lemma TrimWhitespace_trims text set :
  TrimWhitespace text set = rtrim set (ltrim set text).
Proof.
  unfold TrimWhitespace.
  induction text as [|c rest IH]; simpl; [done|].
  destruct (in_set set c) eqn:Hc.
  - rewrite <- IH.
    destruct (find_first_not_of rest set) as [b|] eqn:Hfirst; simpl; [|done].
    destruct (find_last_not_of rest set) as [e|] eqn:Hlast; simpl; [done|].
    apply find_last_None_all_in, find_first_None_all_in in Hlast. congruence.
  - simpl. rewrite <- (substring_to_last rest set).
    destruct (find_last_not_of rest set) as [e|] eqn:Hlast; simpl.
    + rewrite Nat.add_1_r. by destruct rest.
    + rewrite Hc. by destruct rest.
Qed.

Lemma ltrim_parts set text :
  ∃ l, text = l +:+ ltrim set text ∧ all_in set l = true.
Proof.
  induction text as [|c rest IH]; simpl; [by exists ""|].
  destruct (in_set set c) eqn:Hc; [|by exists ""].
  destruct IH as (l & Hl & Hall). exists (String c l).
  rewrite SettingsFacts.append_cons, <- Hl. simpl. by rewrite Hc.
Qed.

Lemma rtrim_parts set text :
  ∃ r, text = rtrim set text +:+ r ∧ all_in set r = true.
Proof.
  induction text as [|c rest IH]; simpl; [by exists ""|].
  destruct IH as (r & Hr & Hall).
  destruct (rtrim set rest) as [|d kept] eqn:Hkept.
  - destruct (in_set set c) eqn:Hc.
    + exists (String c rest). split; [done|]. simpl. rewrite Hc. simpl.
      by apply rtrim_empty_all_in.
    + exists r. by rewrite SettingsFacts.append_cons, <- Hr.
  - exists r. by rewrite SettingsFacts.append_cons, <- Hr.
Qed.

Lemma ltrim_starts set text : starts_in set (ltrim set text) = false.
Proof.
  induction text as [|c rest IH]; simpl; [done|].
  destruct (in_set set c) eqn:Hc; [done|]. simpl. done.
Qed.

Lemma rtrim_ends set text : ends_in set (rtrim set text) = false.
Proof.
  induction text as [|c rest IH]; simpl; [done|].
  destruct (rtrim set rest) as [|d kept] eqn:Hkept.
  - destruct (in_set set c) eqn:Hc; simpl; [done|]. by rewrite Hc.
  - simpl in *. done.
Qed.

Lemma rtrim_starts set text :
  starts_in set text = false → starts_in set (rtrim set text) = false.
Proof.
  destruct text as [|c rest]; simpl; [done|]. intros Hc.
  destruct (rtrim set rest); [|done]. by rewrite Hc.
Qed.

(** A text with no character of the set at its ends is left alone. *)
Lemma ltrim_fixed set text : starts_in set text = false → ltrim set text = text.
Proof. destruct text as [|c rest]; simpl; [done|]. by intros ->. Qed.

Lemma rtrim_fixed set text : ends_in set text = false → rtrim set text = text.
Proof.
  induction text as [|c rest IH]; simpl; [done|].
  destruct rest as [|d rest'].
  - simpl. by intros ->.
  - intros H. rewrite (IH H). done.
Qed.

(** X1.  [TrimWhitespace] gives the text without a run of characters
    of the set before it and a run of them behind it, and what it
    gives neither begins nor ends with a character of the set. *)
Theorem TrimWhitespace_parts text set :
  ∃ l r,
    text = l +:+ TrimWhitespace text set +:+ r ∧
    all_in set l = true ∧ all_in set r = true ∧
    starts_in set (TrimWhitespace text set) = false ∧
    ends_in set (TrimWhitespace text set) = false.
Proof.
  rewrite TrimWhitespace_trims.
  destruct (ltrim_parts set text) as (l & Hl & Hall_l).
  destruct (rtrim_parts set (ltrim set text)) as (r & Hr & Hall_r).
  exists l, r. split; [by rewrite <- Hr|].
  repeat split; try done.
  - apply rtrim_starts, ltrim_starts.
  - apply rtrim_ends.
Qed.

(** X2.  Trimming a text that has been trimmed changes nothing. *)
Theorem TrimWhitespace_idempotent text set :
  TrimWhitespace (TrimWhitespace text set) set = TrimWhitespace text set.
Proof.
  rewrite !TrimWhitespace_trims.
  rewrite (ltrim_fixed set (rtrim set (ltrim set text)))
    by apply rtrim_starts, ltrim_starts.
  apply rtrim_fixed, rtrim_ends.
Qed.

End TextFacts.

(** ** The settings reader, line by line *)

Module ParseFacts.

Import Settings TextSpec.

Lemma getlines_nonempty content : getlines content ≠ [].
Proof.
  destruct content as [|c rest]; simpl; [done|].
  case_decide; [done|]. by destruct (getlines rest).
Qed.

(** X3.  [getline] loses nothing: the lines of a text, joined again
    with line feeds, are the text, and no line holds a line feed. *)
Theorem getlines_join content :
  join_lines (getlines content) = content ∧
  Forall (λ line, find "010"%char line = None) (getlines content).
Proof.
  induction content as [|c rest [IHjoin IHall]]; simpl.
  { split; [done|]. by repeat constructor. }
  pose proof (getlines_nonempty rest) as Hne.
  case_decide as Hc.
  - subst c. split.
    + simpl. destruct (getlines rest) as [|line lines]; [done|].
      by rewrite IHjoin.
    + by constructor.
  - destruct (getlines rest) as [|line lines]; [done|]. split.
    + simpl in *. destruct lines as [|line2 lines].
      * by rewrite IHjoin.
      * rewrite SettingsFacts.append_cons. by rewrite IHjoin.
    + apply Forall_cons in IHall as [Hline Hlines]. constructor; [|done].
      simpl. rewrite decide_False by done. by rewrite Hline.
Qed.

(** The lines of two texts with a line feed between them. *)
Lemma getlines_append a b :
  getlines (a +:+ String "010" b) = getlines a ++ getlines b.
Proof.
  induction a as [|c a IH]; [done|].
  rewrite SettingsFacts.append_cons. simpl. rewrite IH.
  case_decide; [done|].
  pose proof (getlines_nonempty a). by destruct (getlines a).
Qed.

(** X4.  Reading a file is reading what stands before one of its line
    feeds and going on from there with what follows it. *)
Theorem parse_append a b :
  parse (a +:+ String "010" b)
  = fold_left (λ settings cur_line, settings_line cur_line settings)
      (getlines b) (parse a).
Proof. unfold parse. by rewrite getlines_append, fold_left_app. Qed.

(** A line leaves the settings as they are or appends one pair. *)
Lemma settings_line_cases cur_line settings :
  settings_line cur_line settings = settings ∨
  ∃ setting_layer new_pair,
    settings_line cur_line settings
    = append_setting setting_layer new_pair settings.
Proof.
  unfold settings_line. destruct (_ || _); [by left|].
  destruct (find "="%char _) as [equal_loc|]; [|by left].
  right. destruct (find "."%char _) as [period_loc|];
    do 2 eexists; apply SettingsFacts.append_setting_match.
Qed.

Lemma append_setting_extends setting_layer new_pair
    (settings : gmap string (list SettingPair)) k v :
  settings !! k = Some v →
  ∃ v', append_setting setting_layer new_pair settings !! k = Some v' ∧
        v `prefix_of` v'.
Proof.
  intros Hk. unfold append_setting.
  destruct (decide (setting_layer = k)) as [->|Hne].
  - rewrite lookup_insert_eq, Hk. simpl. eexists. split; [done|].
    by exists [new_pair].
  - rewrite lookup_insert_ne by done. by exists v.
Qed.

Lemma settings_line_extends cur_line
    (settings : gmap string (list SettingPair)) k v :
  settings !! k = Some v →
  ∃ v', settings_line cur_line settings !! k = Some v' ∧ v `prefix_of` v'.
Proof.
  intros Hk.
  destruct (settings_line_cases cur_line settings) as [-> | (l & p & ->)].
  - by exists v.
  - by apply append_setting_extends.
Qed.

Lemma fold_settings_extends lines :
  ∀ (settings : gmap string (list SettingPair)) k v,
    settings !! k = Some v →
    ∃ v', fold_left (λ settings cur_line, settings_line cur_line settings)
            lines settings !! k = Some v' ∧
          v `prefix_of` v'.
Proof.
  induction lines as [|line lines IH]; intros settings k v Hk; simpl.
  { by exists v. }
  destruct (settings_line_extends line settings k v Hk) as (v1 & Hv1 & Hpre1).
  destruct (IH _ k v1 Hv1) as (v2 & Hv2 & Hpre2).
  exists v2. split; [done|]. by etrans.
Qed.

(** X5.  Lines added behind a file never remove or reorder what the
    file gave: every bucket of the shorter file is a bucket of the
    longer one, with the same pairs in the same order at its start. *)
Theorem parse_extends a b k v :
  parse a !! k = Some v →
  ∃ v', parse (a +:+ String "010" b) !! k = Some v' ∧ v `prefix_of` v'.
Proof.
  intros Hk. unfold parse. rewrite getlines_append, fold_left_app.
  by apply fold_settings_extends.
Qed.

Lemma parse_extends_witness :
  ∃ v', parse ("A.x = 1" +:+ String "010" "A.y = 2") !! "A" = Some v' ∧
        [{| name := "x"; value := "1" |}] `prefix_of` v'.
Proof.
  apply (parse_extends "A.x = 1" "A.y = 2" "A" [{| name := "x"; value := "1" |}]).
  vm_compute. reflexivity.
Defined.

Lemma fold_settings_no_empty lines :
  ∀ (settings : gmap string (list SettingPair)),
    (∀ k v, settings !! k = Some v → v ≠ []) →
    ∀ k v,
      fold_left (λ settings cur_line, settings_line cur_line settings)
        lines settings !! k = Some v →
      v ≠ [].
Proof.
  induction lines as [|line lines IH]; intros settings Hinv; simpl; [done|].
  apply IH. intros k v.
  destruct (settings_line_cases line settings) as [-> | (l & p & ->)];
    [by apply Hinv|].
  unfold append_setting. destruct (decide (l = k)) as [->|Hne].
  - rewrite lookup_insert_eq. intros [= <-]. by destruct (default _ _).
  - rewrite lookup_insert_ne by done. by apply Hinv.
Qed.

(** X6.  The reader never makes an empty bucket: a component that is
    in the result has at least one setting. *)
Theorem parse_no_empty_bucket content k v :
  parse content !! k = Some v → v ≠ [].
Proof.
  unfold parse. apply fold_settings_no_empty. intros k' v'.
  by rewrite lookup_empty.
Qed.

Lemma parse_no_empty_bucket_witness :
  [{| name := "x"; value := "1" |}] ≠ [].
Proof.
  apply (parse_no_empty_bucket "A.x = 1" "A"). vm_compute. reflexivity.
Defined.

End ParseFacts.

(** ** The search of the system folders *)

Module SearchFacts.

Import Drivers DriverSpec HostSpec.

Lemma find_in_folders_spec func object_name b folders :
  ∀ found_one location,
    (find_in_folders func object_name b folders found_one location).1.1
    = found_one || existsb (λ p, func p object_name) folders ∧
    (find_in_folders func object_name b folders found_one location).2
    = b && existsb (λ p, func p object_name) folders.
Proof.
  induction folders as [|p rest IH]; intros found_one location; simpl.
  { by rewrite orb_false_r, andb_false_r. }
  destruct (func p object_name) eqn:Hp; simpl.
  - destruct b; simpl; [by rewrite orb_true_r|].
    destruct (IH true (p +:+ "/" +:+ object_name)) as [-> ->].
    by rewrite orb_true_r.
  - apply IH.
Qed.

Lemma strtok_go_nonempty delim s :
  ∀ cur, Forall (λ tok, tok ≠ []) (strtok_go delim s cur).
Proof.
  induction s as [|c r IH]; intros cur; simpl.
  - destruct cur as [|x cur]; constructor; [|constructor].
    simpl. by destruct (rev cur).
  - case_decide; [|apply IH].
    destruct cur as [|x cur]; [apply IH|]. constructor; [|apply IH].
    simpl. by destruct (rev cur).
Qed.

Lemma find_in_tokens_found func object_name tokens :
  Forall (λ tok, tok ≠ []) tokens →
  ∀ found_one location,
    (find_in_tokens func object_name tokens found_one location).1
    = found_one || existsb (λ tok, func (to_string tok) object_name) tokens.
Proof.
  induction 1 as [|tok rest Htok _ IH]; intros found_one location; simpl.
  { by rewrite orb_false_r. }
  assert ((0 <? strlen tok)%nat = true) as -> by (by destruct tok).
  simpl. destruct (func (to_string tok) object_name); simpl.
  - rewrite IH. by rewrite orb_true_r.
  - apply IH.
Qed.

Lemma existsb_exists_elem {A} (f : A → bool) l :
  existsb f l = true ↔ ∃ x, x ∈ l ∧ f x = true.
Proof.
  rewrite existsb_exists. by setoid_rewrite list_elem_of_In.
Qed.

(** The search and the environment: only [LD_LIBRARY_PATH] is written
    to. *)
Lemma strtok_env_other env name delim k :
  k ≠ name → (strtok_env env name delim).2 !! k = env !! k.
Proof.
  intros H. unfold strtok_env.
  destruct (getenv env name); simpl; [|done]. by rewrite lookup_insert_ne.
Qed.

Lemma FindLinuxSystemObject_other sys env object_name location func b k :
  k ≠ "LD_LIBRARY_PATH" →
  (FindLinuxSystemObject sys env object_name location func b).2 !! k = env !! k.
Proof.
  intros H. unfold FindLinuxSystemObject.
  destruct (find_in_folders _ _ _ _ _ _) as [[found loc] early].
  destruct early; [done|].
  pose proof (strtok_env_other env "LD_LIBRARY_PATH" ":"%char k H) as Ho.
  destruct (strtok_env env _ _) as [t e']. simpl in Ho.
  by destruct (find_in_tokens _ _ _ _ _).
Qed.

Lemma FindLinuxSystemObject_unset sys env object_name location func b :
  env !! "LD_LIBRARY_PATH" = None →
  (FindLinuxSystemObject sys env object_name location func b).2 = env.
Proof.
  intros Hunset. unfold FindLinuxSystemObject, strtok_env, getenv.
  rewrite Hunset.
  destruct (find_in_folders _ _ _ _ _ _) as [[found loc] early].
  by destruct early.
Qed.

Lemma restarts_strtok_unset sys env object_name func b :
  env !! "LD_LIBRARY_PATH" = None →
  restarts_strtok sys env object_name func b = false.
Proof.
  intros Hunset. unfold restarts_strtok, getenv. rewrite Hunset.
  destruct (find_in_folders _ _ _ _ _ _) as [[found loc] early].
  by rewrite andb_false_r.
Qed.

Lemma existsb_fmap {A B} (f : B → bool) (g : A → B) l :
  existsb f (g <$> l) = existsb (λ x, f (g x)) l.
Proof.
  induction l as [|x l IH]; [done|].
  rewrite fmap_cons. cbn [existsb]. by rewrite IH.
Qed.

(** What the search returns, as a test over the folders it looks
    into. *)
Lemma FindLinuxSystemObject_found_in sys env object_name location func b :
  (FindLinuxSystemObject sys env object_name location func b).1.1
  = existsb (λ p, func p object_name)
      (system_library_folders sys ++ library_path_folders env).
Proof.
  unfold FindLinuxSystemObject.
  generalize (system_library_folders sys). intros folders.
  rewrite existsb_app. unfold library_path_folders, strtok_env.
  destruct (find_in_folders_spec func object_name b folders false location)
    as [Hfound Hearly].
  destruct (find_in_folders _ _ _ _ _ _) as [[found loc] early].
  simpl in Hfound, Hearly. subst found early.
  destruct (existsb _ folders) eqn:Hfixed.
  { destruct b; simpl; [done|].
    destruct (getenv env "LD_LIBRARY_PATH") as [value|]; simpl; [|done].
    pose proof (find_in_tokens_found func object_name _
                  (strtok_go_nonempty ":"%char value []) true loc) as Htok.
    unfold strtok_all. destruct (find_in_tokens _ _ _ _ _). simpl in *.
    by rewrite Htok. }
  rewrite andb_false_r. simpl.
  destruct (getenv env "LD_LIBRARY_PATH") as [value|]; simpl; [|done].
  pose proof (find_in_tokens_found func object_name _
                (strtok_go_nonempty ":"%char value []) false loc) as Htok.
  unfold strtok_all in *. destruct (find_in_tokens _ _ _ _ _). simpl in *.
  rewrite Htok. by rewrite existsb_fmap.
Qed.

(** X7.  [FindLinuxSystemObject] finds the object exactly when the
    check holds in one of the five system folders or in one of the
    folders of [LD_LIBRARY_PATH], whether it stops at the first or
    not. *)
Theorem FindLinuxSystemObject_found sys env object_name location func b :
  (FindLinuxSystemObject sys env object_name location func b).1.1 = true ↔
  ∃ folder,
    folder ∈ system_library_folders sys ++ library_path_folders env ∧
    func folder object_name = true.
Proof.
  rewrite FindLinuxSystemObject_found_in. apply existsb_exists_elem.
Qed.

Lemma find_in_folders_first func object_name pre folder post :
  Forall (λ p, func p object_name = false) pre →
  func folder object_name = true →
  ∀ found_one location,
    find_in_folders func object_name true (pre ++ folder :: post)
      found_one location
    = (true, folder +:+ "/" +:+ object_name, true).
Proof.
  intros Hpre Hfolder. induction Hpre as [|p pre Hp _ IH];
    intros found_one location; simpl.
  - by rewrite Hfolder.
  - rewrite Hp. apply IH.
Qed.

(** X8.  A search that stops at the first hit names the first of the
    five system folders in which the check holds, and leaves the
    environment as it was: [LD_LIBRARY_PATH] is not tokenised. *)
Theorem FindLinuxSystemObject_first sys env object_name location func
    pre folder post :
  system_library_folders sys = pre ++ folder :: post →
  Forall (λ p, func p object_name = false) pre →
  func folder object_name = true →
  FindLinuxSystemObject sys env object_name location func true
  = (true, folder +:+ "/" +:+ object_name, env).
Proof.
  intros Hfolders Hpre Hfolder. unfold FindLinuxSystemObject.
  rewrite Hfolders.
  by rewrite (find_in_folders_first func object_name pre folder post Hpre
                Hfolder).
Qed.

Lemma FindLinuxSystemObject_first_witness :
  FindLinuxSystemObject Examples.unloadable_system
    (<["LD_LIBRARY_PATH" := "/opt/lib"]> ∅) "libdriver.so" ""
    (CheckDriver Examples.unloadable_system) true
  = (true, "/usr/lib/libdriver.so", <["LD_LIBRARY_PATH" := "/opt/lib"]> ∅).
Proof.
  apply (FindLinuxSystemObject_first Examples.unloadable_system
           (<["LD_LIBRARY_PATH" := "/opt/lib"]> ∅) "libdriver.so" ""
           (CheckDriver Examples.unloadable_system) [] "/usr/lib"
           ["/usr/lib/x86_64-linux-gnu"; "/usr/lib64"; "/usr/local/lib";
            "/usr/local/lib64"]).
  - reflexivity.
  - constructor.
  - vm_compute. reflexivity.
Defined.

(** *** What [strtok] leaves of a value *)

Lemma c_str_no_NUL s : Forall (λ c, c ≠ "000"%char) (c_str s).
Proof.
  induction s as [|a r IH]; simpl; [constructor|].
  case_decide; by constructor.
Qed.

Lemma c_str_to_string l :
  Forall (λ c, c ≠ "000"%char) l → c_str (to_string l) = l.
Proof.
  induction 1 as [|a l Ha _ IH]; simpl; [done|].
  rewrite decide_False by done. by rewrite IH.
Qed.

Lemma up_to_delim_Forall (P : ascii → Prop) delim s :
  Forall P s → Forall P (up_to_delim delim s).
Proof.
  induction 1 as [|c r Hc _ IH]; simpl; [constructor|].
  case_decide; by constructor.
Qed.

Lemma after_strtok_Forall (P : ascii → Prop) delim s :
  Forall P s → Forall P (after_strtok delim s).
Proof.
  induction 1 as [|c r Hc Hr IH]; simpl; [constructor|].
  case_decide; [by constructor|].
  constructor; [done|]. by apply up_to_delim_Forall.
Qed.

Lemma strtok_go_first delim s :
  ∀ cur, cur ≠ [] →
    take 1 (strtok_go delim s cur) = [rev cur ++ up_to_delim delim s] ∧
    strtok_go delim (up_to_delim delim s) cur = [rev cur ++ up_to_delim delim s].
Proof.
  induction s as [|c r IH]; intros cur Hcur; simpl.
  - rewrite app_nil_r. by destruct cur.
  - case_decide.
    + simpl. rewrite app_nil_r. by destruct cur.
    + simpl. rewrite decide_False by done.
      destruct (IH (c :: cur)) as [H1 H2]; [done|].
      rewrite H1, H2. simpl. by rewrite <- !(assoc_L (++)).
Qed.

(** The tokens of what [strtok] has left of a value are the first
    token of the value, and nothing else. *)
Lemma strtok_after_strtok delim s :
  strtok_all (after_strtok delim s) delim = take 1 (strtok_all s delim).
Proof.
  unfold strtok_all. induction s as [|c r IH]; simpl; [done|].
  case_decide as Hc.
  - simpl. by rewrite decide_True.
  - simpl. rewrite decide_False by done.
    destruct (strtok_go_first delim r [c]) as [H1 H2]; [done|].
    by rewrite H1, H2.
Qed.

(** Once [strtok] has gone through the value of [LD_LIBRARY_PATH], the
    variable names its first folder only. *)
Lemma tokenised_library_path env :
  library_path_folders (strtok_env env "LD_LIBRARY_PATH" ":"%char).2
  = take 1 (library_path_folders env).
Proof.
  unfold library_path_folders, strtok_env.
  destruct (getenv env "LD_LIBRARY_PATH") as [value|] eqn:Hget; simpl.
  - unfold getenv. rewrite lookup_insert_eq. simpl.
    assert (Forall (λ c, c ≠ "000"%char) value) as Hvalue.
    { unfold getenv in Hget. destruct (env !! "LD_LIBRARY_PATH"); [|done].
      injection Hget as <-. apply c_str_no_NUL. }
    rewrite c_str_to_string by by apply after_strtok_Forall.
    by rewrite strtok_after_strtok, fmap_take.
  - by rewrite Hget.
Qed.

(** The folders that [LD_LIBRARY_PATH] names after a search: those it
    named before, or the first of them. *)
Lemma FindLinuxSystemObject_folders sys env object_name location func b :
  library_path_folders
    (FindLinuxSystemObject sys env object_name location func b).2
  = library_path_folders env
  ∨ library_path_folders
      (FindLinuxSystemObject sys env object_name location func b).2
    = take 1 (library_path_folders env).
Proof.
  unfold FindLinuxSystemObject.
  destruct (find_in_folders _ _ _ _ _ _) as [[found loc] early].
  destruct early; [by left|]. right.
  pose proof (tokenised_library_path env) as Htok.
  destruct (strtok_env env _ _) as [tokens env']. simpl in Htok.
  by destruct (find_in_tokens _ _ _ _ _).
Qed.

(** X9.  A search that goes on to [LD_LIBRARY_PATH] tokenises the
    value in the environment itself: afterwards the variable names
    its first folder only, and every later search looks into that
    folder alone. *)
Theorem search_truncates_library_path sys env object_name location func b :
  b && existsb (λ p, func p object_name) (system_library_folders sys) = false →
  library_path_folders
    (FindLinuxSystemObject sys env object_name location func b).2
  = take 1 (library_path_folders env).
Proof.
  unfold FindLinuxSystemObject. generalize (system_library_folders sys).
  intros folders Hreach.
  destruct (find_in_folders_spec func object_name b folders false location)
    as [_ Hearly].
  destruct (find_in_folders _ _ _ _ _ _) as [[found loc] early].
  cbn [snd] in Hearly. rewrite Hreach in Hearly. subst early.
  pose proof (tokenised_library_path env) as Htok.
  destruct (strtok_env env _ _) as [tokens env']. simpl in Htok.
  by destruct (find_in_tokens _ _ _ _ _).
Qed.

Lemma search_truncates_library_path_witness :
  library_path_folders
    (FindLinuxSystemObject Examples.empty_system
       (<["LD_LIBRARY_PATH" := "/opt/a:/opt/b"]> ∅) "libdriver.so" ""
       (CheckDriver Examples.empty_system) true).2
  = take 1 (library_path_folders (<["LD_LIBRARY_PATH" := "/opt/a:/opt/b"]> ∅)).
Proof.
  apply (search_truncates_library_path Examples.empty_system
           (<["LD_LIBRARY_PATH" := "/opt/a:/opt/b"]> ∅) "libdriver.so" ""
           (CheckDriver Examples.empty_system) true).
  vm_compute. reflexivity.
Defined.

End SearchFacts.

(** ** The driver manifests and the verdict *)

Module DriverFacts.

Import Drivers DriverSpec HostSpec VerdictSpec.

(** *** The words of the verdict and the helpers of the program *)

Lemma system_folders_eq sys : system_library_folders sys = system_folders sys.
Proof. unfold system_library_folders, system_folders. by destruct (lib64 sys). Qed.

Lemma contains_char_elem c s :
  contains_char c s = bool_decide (c ∈ list_ascii_of_string s).
Proof.
  induction s as [|a r IH].
  - symmetry. apply bool_decide_eq_false_2. by intros ?%elem_of_nil.
  - cbn [contains_char list_ascii_of_string].
    rewrite IH, <- bool_decide_or. apply bool_decide_ext.
    rewrite elem_of_cons. split; intros [?|?]; auto.
Qed.

Lemma last_char_slash folder :
  last_char folder = "/"%char
  ↔ ["/"%char] `suffix_of` list_ascii_of_string folder.
Proof.
  induction folder as [|a [|b r] IH].
  - split; [done|]. by intros ?%suffix_nil_inv.
  - simpl. split.
    + intros ->. by exists [].
    + intros [[|x [|y k]] Hk]; by simplify_eq/=.
  - change (last_char (String a (String b r))) with (last_char (String b r)).
    rewrite IH. change (list_ascii_of_string (String a (String b r)))
      with (a :: list_ascii_of_string (String b r)).
    split; [apply suffix_cons_r|].
    intros [Heq|Hsuffix]%suffix_cons_inv; [|done]. by simplify_eq/=.
Qed.

(** [CheckDriver] asks for the file of the folder. *)
Lemma CheckDriver_file_in sys folder name :
  CheckDriver sys folder name = access_R_OK sys (file_in folder name).
Proof.
  unfold CheckDriver, file_in.
  case_bool_decide as Hlast; case_bool_decide as Hsuffix.
  - by apply last_char_slash in Hsuffix.
  - by rewrite TextFacts.string_append_assoc.
  - done.
  - destruct Hsuffix. apply last_char_slash.
    by destruct (decide (last_char folder = "/"%char)).
Qed.

Lemma GenerateLibraryPath_Some json_location library_info max_length :
  is_Some (PathResolver.GenerateLibraryPath (Some json_location)
             (Some library_info) max_length).
Proof.
  unfold PathResolver.GenerateLibraryPath.
  destruct (_ || _); [by eexists|].
  destruct (PathResolver.skip_parent_segments _ _). by eexists.
Qed.

(** The folders that [LD_LIBRARY_PATH] names are told by its value. *)
Lemma library_path_folders_agree e1 e2 :
  e1 !! "LD_LIBRARY_PATH" = e2 !! "LD_LIBRARY_PATH" →
  library_path_folders e1 = library_path_folders e2.
Proof. intros H. unfold library_path_folders, getenv. by rewrite H. Qed.

Lemma library_located_agree sys e1 e2 json :
  library_path_folders e1 = library_path_folders e2 →
  library_located sys e1 json = library_located sys e2 json.
Proof. intros H. unfold library_located, file_located. by rewrite H. Qed.

(** *** One manifest *)

(** What [locate_library] finds and what it leaves. *)
Lemma locate_library_spec sys env json driver_name found_lib :
  ∃ could_load load_error env' restarted,
    locate_library sys env json driver_name found_lib
    = (found_lib || file_located sys env json driver_name, could_load,
       load_error, env', restarted) ∧
    (∀ k, k ≠ "LD_LIBRARY_PATH" → env' !! k = env !! k) ∧
    (library_path_folders env' = library_path_folders env
     ∨ library_path_folders env' = take 1 (library_path_folders env)) ∧
    (env !! "LD_LIBRARY_PATH" = None → env' = env ∧ restarted = false).
Proof.
  unfold locate_library, file_located, PathResolver.resolve.
  destruct (GenerateLibraryPath_Some (c_str json) (c_str driver_name)
              MAX_STRING_LENGTH) as [full ->].
  cbn [fmap option_fmap option_map from_option].
  destruct (access_R_OK sys (to_string full)).
  { destruct (VerifyOpen _ _ _) as [could_load load_error].
    exists could_load, load_error, env, false.
    rewrite orb_true_r. repeat split; auto. }
  rewrite contains_char_elem. cbn [orb].
  destruct (bool_decide ("/"%char ∈ list_ascii_of_string driver_name));
    cbn [negb andb].
  { exists true, "", env, false. rewrite orb_false_r. repeat split; by auto. }
  pose proof (SearchFacts.FindLinuxSystemObject_found_in sys env driver_name ""
                (CheckDriver sys) true) as Hfound.
  pose proof (SearchFacts.FindLinuxSystemObject_other sys env driver_name ""
                (CheckDriver sys) true) as Hother.
  pose proof (SearchFacts.FindLinuxSystemObject_folders sys env driver_name ""
                (CheckDriver sys) true) as Hfolders.
  pose proof (SearchFacts.FindLinuxSystemObject_unset sys env driver_name ""
                (CheckDriver sys) true) as Hunset.
  pose proof (SearchFacts.restarts_strtok_unset sys env driver_name
                (CheckDriver sys) true) as Hrestart.
  destruct (FindLinuxSystemObject sys env driver_name "" (CheckDriver sys) true)
    as [[found location] env'].
  cbn [fst snd] in Hfound, Hother, Hfolders, Hunset.
  rewrite system_folders_eq in Hfound.
  assert (existsb (λ p, CheckDriver sys p driver_name)
            (system_folders sys ++ library_path_folders env)
          = existsb (λ folder, access_R_OK sys (file_in folder driver_name))
              (system_folders sys ++ library_path_folders env)) as Hsame.
  { generalize (system_folders sys ++ library_path_folders env).
    intros folders. induction folders as [|p folders IH]; [done|].
    cbn [existsb]. by rewrite IH, CheckDriver_file_in. }
  rewrite Hsame in Hfound. rewrite <- Hfound.
  destruct found.
  - destruct (VerifyOpen _ _ _) as [could_load load_error].
    eexists could_load, load_error, env', _. rewrite orb_true_r.
    split; [done|]. split; [done|]. split; [done|].
    intros Hnone. by rewrite Hunset, Hrestart.
  - eexists true, "", env', _. rewrite orb_false_r.
    split; [done|]. split; [done|]. split; [done|].
    intros Hnone. by rewrite Hunset, Hrestart.
Qed.

Lemma ldconfig_fallback_found sys json driver_name found_lib could_load
    load_error :
  (ldconfig_fallback sys json driver_name found_lib could_load load_error).1
  = found_lib || listed_by_ldconfig sys driver_name.
Proof.
  unfold ldconfig_fallback, listed_by_ldconfig.
  destruct found_lib; simpl.
  - by destruct (negb could_load).
  - by destruct (popen_first_line sys _) as [[?|]|].
Qed.

Lemma no_ICD_no_library sys json :
  has_ICD_section sys json = false → declared_library sys json = None.
Proof.
  unfold has_ICD_section, declared_library.
  destruct (ICD_section sys json) as [ICD|]; simpl; [|done].
  by destruct (isNull ICD).
Qed.

(** What one call of [ReadDriverJson] returns and leaves. *)
Lemma ReadDriverJson_spec sys env json found_lib ok found_lib' env' restarted
    rows :
  ReadDriverJson sys env json found_lib
  = Some (ok, found_lib', env', restarted, rows) →
  ok = has_ICD_section sys json ∧
  found_lib' = found_lib || library_located sys env json ∧
  (parses_without_ICD sys json = true → missing_ICD_section_row ∈ rows) ∧
  (∀ k, k ≠ "LD_LIBRARY_PATH" → env' !! k = env !! k) ∧
  (library_path_folders env' = library_path_folders env
   ∨ library_path_folders env' = take 1 (library_path_folders env)) ∧
  (env !! "LD_LIBRARY_PATH" = None → env' = env ∧ restarted = false).
Proof.
  unfold ReadDriverJson, has_ICD_section, parses_without_ICD, library_located,
    declared_library, ICD_section.
  destruct (json_file sys json) as [|messages|root]; simpl.
  1,2: intros [= <- <- <- <- <-]; rewrite orb_false_r; repeat split; by auto.
  destruct (isNull root); simpl.
  { intros [= <- <- <- <- <-]; rewrite orb_false_r; repeat split; by auto. }
  destruct (member root "file_format_version") as [ffv|]; simpl; [|done].
  destruct (shown_or_missing ffv) as [version|]; simpl; [|done].
  destruct (member root "ICD") as [ICD|]; simpl; [|done].
  destruct (isNull ICD) eqn:HICD; simpl.
  { intros [= <- <- <- <- <-]. rewrite orb_false_r. split_and!; auto.
    intros _. right. left. }
  destruct (member ICD "api_version") as [av|]; simpl; [|done].
  destruct (shown_or_missing av) as [api|]; simpl; [|done].
  destruct (member ICD "library_path") as [lp|]; simpl; [|done].
  destruct (isNull lp) eqn:Hlp; simpl.
  { destruct (member ICD "device_extensions") as [de|]; simpl; [|done].
    destruct (extension_rows _ _ de) as [dr|]; simpl; [|done].
    destruct (member ICD "instance_extensions") as [ie|]; simpl; [|done].
    destruct (extension_rows _ _ ie) as [ir|]; simpl; [|done].
    intros [= <- <- <- <- <-]. rewrite orb_false_r. repeat split; by auto. }
  destruct (asString lp) as [driver_name|]; simpl; [|done].
  destruct (locate_library_spec sys env json driver_name found_lib)
    as (could_load & load_error & env1 & restarted1 & -> & Hother & Hfolders
        & Hunset).
  pose proof (ldconfig_fallback_found sys json driver_name
                (found_lib || file_located sys env json driver_name) could_load
                load_error) as Hfb.
  destruct (ldconfig_fallback _ _ _ _ _ _) as [found2 fb_rows].
  simpl in Hfb. subst found2. simpl.
  destruct (member ICD "device_extensions") as [de|]; simpl; [|done].
  destruct (extension_rows _ _ de) as [dr|]; simpl; [|done].
  destruct (member ICD "instance_extensions") as [ie|]; simpl; [|done].
  destruct (extension_rows _ _ ie) as [ir|]; simpl; [|done].
  intros [= <- <- <- <- <-]. rewrite <- orb_assoc.
  split_and!; auto. done.
Qed.

(** *** The environment between the loops *)

Lemma read_driver_other sys json st st' k :
  read_driver sys json st = Some st' →
  k ≠ "LD_LIBRARY_PATH" → scan_env st' !! k = scan_env st !! k.
Proof.
  unfold read_driver.
  destruct (ReadDriverJson sys (scan_env st) json (found_this_lib st))
    as [[[[[ok this_lib] env'] restarted] rows]|] eqn:Hread; [|done].
  intros [= <-] Hk. simpl.
  apply ReadDriverJson_spec in Hread as (_ & _ & _ & Hother & _). by apply Hother.
Qed.

Lemma scan_entries_other sys folder entries k :
  k ≠ "LD_LIBRARY_PATH" →
  ∀ i st st',
    scan_entries sys folder entries i st = Some st' →
    scan_env st' !! k = scan_env st !! k.
Proof.
  intros Hk. induction entries as [|d_name rest IH]; intros i st st'.
  { by intros [= <-]. }
  cbn [scan_entries].
  destruct (strstr (buf d_name) (buf ".json")); [|by apply IH].
  destruct (read_driver sys _ _) as [st1|] eqn:Hread; simpl; [|done].
  intros Hrest. rewrite (IH _ _ _ Hrest).
  by rewrite (read_driver_other _ _ _ _ k Hread Hk).
Qed.

Lemma scan_folders_other sys index shown folders k :
  k ≠ "LD_LIBRARY_PATH" →
  ∀ dir st st',
    scan_folders sys index shown folders dir st = Some st' →
    scan_env st' !! k = scan_env st !! k.
Proof.
  intros Hk. induction folders as [|folder rest IH]; intros dir st st'; simpl.
  { by intros [= <-]. }
  set (st0 := if bool_decide (dir = 0%nat) then _ else _).
  assert (scan_env st0 = scan_env st) as <-.
  { unfold st0. by repeat case_bool_decide. }
  clearbody st0.
  destruct (readdir_all sys folder) as [entries|]; simpl.
  - destruct (scan_entries sys folder entries 0 _) as [st1|] eqn:Hscan; simpl;
      [|done].
    intros Hrest. rewrite (IH _ _ _ Hrest).
    by rewrite (scan_entries_other _ _ _ k Hk _ _ _ Hscan).
  - intros Hrest. by rewrite (IH _ _ _ Hrest).
Qed.

Lemma scan_icd_files_other sys toks k :
  k ≠ "LD_LIBRARY_PATH" →
  ∀ st st',
    scan_icd_files sys toks st = Some st' →
    scan_env st' !! k = scan_env st !! k.
Proof.
  intros Hk. induction toks as [|tok rest IH]; intros st st'; simpl.
  { by intros [= <-]. }
  unfold scan_icd_file. destruct (access_R_OK sys tok); simpl.
  - destruct (read_driver sys tok _) as [st1|] eqn:Hread; simpl; [|done].
    pose proof (read_driver_other _ _ _ _ k Hread Hk) as Hone.
    destruct (strtok_left st1); [by intros [= <-]|].
    intros Hrest. by rewrite (IH _ _ Hrest).
  - destruct (strtok_left st); [by intros [= <-]|].
    intros Hrest. by rewrite (IH _ _ Hrest).
Qed.

Lemma scan_icd_filenames_other sys st st' k :
  k ≠ "LD_LIBRARY_PATH" → k ≠ "VK_ICD_FILENAMES" →
  scan_icd_filenames sys st = Some st' →
  scan_env st' !! k = scan_env st !! k.
Proof.
  intros Hk Hicd. unfold scan_icd_filenames.
  destruct (getenv (scan_env st) "VK_ICD_FILENAMES") as [value|] eqn:Hget;
    [|by intros [= <-]].
  unfold strtok_env. simpl. rewrite Hget. intros Hscan.
  rewrite (scan_icd_files_other _ _ k Hk _ _ Hscan). simpl.
  by rewrite lookup_insert_ne.
Qed.

Lemma driver_search_paths_other env k :
  k ≠ "VK_DRIVERS_PATH" → (driver_search_paths env).2 !! k = env !! k.
Proof.
  intros Hk. unfold driver_search_paths.
  destruct (getenv env "VK_DRIVERS_PATH") as [value|] eqn:Hget; [|done].
  unfold strtok_env. rewrite Hget. simpl. by rewrite lookup_insert_ne.
Qed.

(** *** A manifest of the expected shape is read to its end *)






Lemma lacks_ICD_section_reads sys json :
  lacks_ICD_section sys json →
  reads sys json ∧ parses_without_ICD sys json = true ∧
  has_ICD_section sys json = false.
Proof.
  intros (root & version & Hfile & Hroot & HICD & Hversion & [shown Hshown]).
  split; [|split].
  - intros env found_lib. unfold ReadDriverJson.
    rewrite Hfile, Hroot, Hversion. simpl. rewrite Hshown. simpl.
    rewrite HICD. simpl. by eexists.
  - unfold parses_without_ICD, ICD_section. by rewrite Hfile, Hroot, HICD.
  - unfold has_ICD_section, ICD_section. by rewrite Hfile, Hroot, HICD.
Qed.

(** *** The scan keeps its invariant *)

Lemma add_rows_scanned sys env0 done rows st :
  scanned sys env0 done st → scanned sys env0 done (add_rows rows st).
Proof.
  intros [Hj Ht Hr Hl Hu]. split; simpl; try done.
  intros json Hin Hp. apply elem_of_app. left. by apply (Hr json).
Qed.

Lemma read_driver_scanned sys env0 done json st st' :
  scanned sys env0 done st →
  read_driver sys json st = Some st' →
  scanned sys env0 (done ++ [json]) st'.
Proof.
  intros [Hj Ht Hr Hl Hu]. unfold read_driver.
  destruct (ReadDriverJson sys (scan_env st) json (found_this_lib st))
    as [[[[[ok this_lib] env'] restarted] rows]|] eqn:Hread; [|done].
  intros [= <-].
  apply ReadDriverJson_spec in Hread
    as (Hok & Hthis & Hrow & _ & Hfolders & Hunset).
  assert (ok = false → library_located sys (scan_env st) json = false) as Hnone.
  { intros ->. symmetry in Hok. apply no_ICD_no_library in Hok.
    unfold library_located. by rewrite Hok. }
  split; simpl.
  - rewrite existsb_app. simpl. rewrite orb_false_r, <- Hj, <- Hok.
    by destruct ok, (found_json st).
  - rewrite Hthis, Ht. destruct ok.
    + by destruct (found_lib st).
    + rewrite Hnone by done. by rewrite orb_false_r.
  - intros j [Hin| ->%list_elem_of_singleton]%elem_of_app Hp;
      apply elem_of_app; [left; by apply (Hr j) | right; by apply Hrow].
  - intros Hshort. destruct (Hl Hshort) as [Hlib Hsame]. split.
    + rewrite existsb_app. simpl. rewrite orb_false_r, <- Hlib, Hthis, Ht.
      rewrite <- (library_located_agree sys (scan_env st) env0 json Hsame).
      destruct ok.
      * by destruct (found_lib st).
      * rewrite Hnone by done. by rewrite orb_false_r.
    + destruct Hfolders as [->| ->]; [done|]. rewrite Hsame.
      apply take_ge. lia.
  - intros Hnot. destruct (Hu Hnot) as [Hld Hleft].
    destruct (Hunset Hld) as [-> ->]. by rewrite Hleft.
Qed.

Lemma folder_manifests_cons folder d_name entries :
  folder_manifests folder (d_name :: entries)
  = if strstr (buf d_name) (buf ".json")
    then snprintf (MAX_STRING_LENGTH - 1) (folder +:+ "/" +:+ d_name)
         :: folder_manifests folder entries
    else folder_manifests folder entries.
Proof.
  unfold folder_manifests. rewrite filter_cons.
  destruct (strstr (buf d_name) (buf ".json")); by case_decide.
Qed.

Lemma scan_entries_scanned sys env0 folder entries :
  ∀ i done st st',
    scanned sys env0 done st →
    scan_entries sys folder entries i st = Some st' →
    scanned sys env0 (done ++ folder_manifests folder entries) st'.
Proof.
  induction entries as [|d_name rest IH]; intros i done st st' Hst.
  { simpl. intros [= <-]. by rewrite app_nil_r. }
  rewrite folder_manifests_cons. cbn [scan_entries].
  destruct (strstr (buf d_name) (buf ".json")); [|by apply IH].
  destruct (read_driver sys _ _) as [st1|] eqn:Hread; simpl; [|done].
  intros Hrest.
  eapply read_driver_scanned in Hread; [|by apply add_rows_scanned].
  rewrite (assoc_L (++) done [_] _ : done ++ _ :: _ = _).
  by eapply IH.
Qed.

Lemma scan_folders_scanned sys env0 index shown folders :
  ∀ dir done st st',
    scanned sys env0 done st →
    scan_folders sys index shown folders dir st = Some st' →
    scanned sys env0 (done ++ (folders ≫= folder_candidates sys)) st'.
Proof.
  induction folders as [|folder rest IH]; intros dir done st st' Hst; simpl.
  { intros [= <-]. by rewrite app_nil_r. }
  set (st0 := if bool_decide (dir = 0%nat) then _ else _).
  assert (scanned sys env0 done st0) as Hst0.
  { unfold st0. repeat case_bool_decide; by try apply add_rows_scanned. }
  clearbody st0. unfold folder_candidates at 1.
  rewrite (assoc_L (++)).
  destruct (readdir_all sys folder) as [entries|]; simpl.
  - destruct (scan_entries sys folder entries 0 _) as [st1|] eqn:Hscan; simpl;
      [|done].
    apply scan_entries_scanned with (env0 := env0) (done := done)
      in Hscan; [|by apply add_rows_scanned].
    by apply IH.
  - rewrite app_nil_r. apply IH. by apply add_rows_scanned.
Qed.

Lemma scan_icd_files_scanned sys env0 toks :
  ∀ done st st',
    scanned sys env0 done st →
    strtok_left st = false →
    scan_icd_files sys toks st = Some st' →
    ∃ read, scanned sys env0 (done ++ read) st' ∧ read_so_far sys toks read st'.
Proof.
  induction toks as [|tok rest IH]; intros done st st' Hst Hleft; simpl.
  { intros [= <-]. exists []. rewrite app_nil_r. split; [done|].
    split; [done|by left]. }
  unfold read_so_far. rewrite filter_cons. unfold scan_icd_file.
  destruct (access_R_OK sys tok) eqn:Hacc; simpl.
  - destruct (read_driver sys tok _) as [st1|] eqn:Hread; simpl; [|done].
    eapply read_driver_scanned in Hread; [|by apply add_rows_scanned].
    destruct (strtok_left st1) eqn:Hleft1.
    + intros [= <-]. exists [tok]. split; [done|]. split.
      * by apply prefix_cons, prefix_nil.
      * right. by split.
    + intros Hrest.
      destruct (IH _ _ _ Hread Hleft1 Hrest) as (read & Hst' & Hpre & Hall).
      exists (tok :: read). rewrite (assoc_L (++) done [_] _ : done ++ _ :: _ = _).
      split; [done|]. split; [by apply prefix_cons|].
      destruct Hall as [->|[_ Hleft']]; [by left|by right].
  - rewrite Hleft. intros Hrest.
    destruct (IH done _ _ (add_rows_scanned _ _ _ _ _ Hst) Hleft Hrest)
      as (read & Hst' & Hpre & Hall).
    by exists read.
Qed.

Lemma strtok_begun_scanned sys env0 done k v st :
  k ≠ "LD_LIBRARY_PATH" →
  scanned sys env0 done st →
  scanned sys env0 done (strtok_begun (<[k := v]> (scan_env st)) st).
Proof.
  intros Hk [Hj Ht Hr Hl Hu]. split; simpl; try done.
  - intros Hshort. destruct (Hl Hshort) as [Hlib Hsame]. split; [done|].
    rewrite <- Hsame. apply library_path_folders_agree.
    by rewrite lookup_insert_ne.
  - intros Hnot. destruct (Hu Hnot) as [Hld _].
    by rewrite lookup_insert_ne.
Qed.

Lemma scan_icd_filenames_scanned sys env0 done st st' :
  scanned sys env0 done st →
  scan_env st !! "VK_ICD_FILENAMES" = env0 !! "VK_ICD_FILENAMES" →
  scan_icd_filenames sys st = Some st' →
  ∃ read,
    scanned sys env0 (done ++ read) st' ∧
    read_so_far sys (icd_filenames env0) read st'.
Proof.
  intros Hst Hbase. unfold scan_icd_filenames, icd_filenames, getenv.
  rewrite Hbase.
  destruct (env0 !! "VK_ICD_FILENAMES") as [value|] eqn:Hget; simpl.
  - unfold strtok_env, getenv. simpl. rewrite Hbase. simpl. intros Hscan.
    eapply scan_icd_files_scanned; [| |exact Hscan]; [|done].
    apply (strtok_begun_scanned sys env0 done "VK_ICD_FILENAMES" _
             (add_rows _ st)); [done|].
    by apply add_rows_scanned.
  - intros [= <-]. exists []. rewrite app_nil_r. split; [done|].
    split; [done|by left].
Qed.

(** *** The scan returns when every manifest can be read *)

Lemma read_driver_total sys json st :
  reads sys json → is_Some (read_driver sys json st).
Proof.
  intros H. unfold read_driver.
  destruct (H (scan_env st) (found_this_lib st))
    as [[[[[ok l] e] restarted] r] ->].
  by eexists.
Qed.

Lemma scan_entries_total sys folder entries :
  Forall (reads sys) (folder_manifests folder entries) →
  ∀ i st, is_Some (scan_entries sys folder entries i st).
Proof.
  induction entries as [|d_name rest IH]; intros Hall i st.
  { by eexists. }
  rewrite folder_manifests_cons in Hall. cbn [scan_entries].
  destruct (strstr (buf d_name) (buf ".json")); [|by apply IH].
  apply Forall_cons in Hall as [Hread Hall].
  destruct (read_driver_total sys _ (add_rows
              [[el_right ("[" +:+ pretty i +:+ "]"); el d_name; el ""]] st)
              Hread) as [st1 ->].
  simpl. by apply IH.
Qed.

Lemma scan_folders_total sys index shown folders :
  Forall (reads sys) (folders ≫= folder_candidates sys) →
  ∀ dir st, is_Some (scan_folders sys index shown folders dir st).
Proof.
  induction folders as [|folder rest IH]; intros Hall dir st.
  { by eexists. }
  simpl in Hall. apply Forall_app in Hall as [Hfolder Hall].
  cbn [scan_folders].
  set (st0 := if bool_decide (dir = 0%nat) then _ else _). clearbody st0.
  unfold folder_candidates in Hfolder.
  destruct (readdir_all sys folder) as [entries|]; simpl.
  - destruct (scan_entries_total sys folder entries Hfolder 0%nat
                (add_rows [[el_right folder; el ""; el ""]] st0)) as [st1 ->].
    simpl. by apply IH.
  - by apply IH.
Qed.

Lemma scan_icd_files_total sys toks :
  Forall (reads sys) (filter (λ tok, access_R_OK sys tok = true) toks) →
  ∀ st, is_Some (scan_icd_files sys toks st).
Proof.
  induction toks as [|tok rest IH]; intros Hall st.
  { by eexists. }
  rewrite filter_cons in Hall. cbn [scan_icd_files]. unfold scan_icd_file.
  destruct (access_R_OK sys tok) eqn:Hacc; simpl in *.
  - apply Forall_cons in Hall as [Hread Hall].
    destruct (read_driver_total sys tok
                (add_rows [[el_right tok; el ""; el ""]] st) Hread) as [st1 ->].
    simpl. destruct (strtok_left st1); [by eexists|by apply IH].
  - destruct (strtok_left st); [by eexists|by apply IH].
Qed.

Lemma scan_icd_filenames_total sys env0 st :
  scan_env st !! "VK_ICD_FILENAMES" = env0 !! "VK_ICD_FILENAMES" →
  Forall (reads sys)
    (filter (λ tok, access_R_OK sys tok = true) (icd_filenames env0)) →
  is_Some (scan_icd_filenames sys st).
Proof.
  intros Hbase. unfold scan_icd_filenames, icd_filenames, getenv.
  rewrite Hbase.
  destruct (env0 !! "VK_ICD_FILENAMES") as [value|] eqn:Hget; simpl.
  - unfold strtok_env, getenv. simpl. rewrite Hbase. simpl. intros Hall.
    by apply scan_icd_files_total.
  - by eexists.
Qed.

(** *** [PrintDriverInfo] as a whole *)

Lemma driver_search_paths_spec env :
  ∃ index env1,
    driver_search_paths env = (index, driver_paths env, env1) ∧
    ∀ k, k ≠ "VK_DRIVERS_PATH" → env1 !! k = env !! k.
Proof.
  pose proof (driver_search_paths_other env) as Hother.
  unfold driver_search_paths, driver_paths in *.
  destruct (getenv env "VK_DRIVERS_PATH") as [value|] eqn:Hget.
  - unfold strtok_env in *. rewrite Hget in *. by do 2 eexists.
  - do 2 eexists. by rewrite app_nil_r.
Qed.

Lemma initial_scanned sys env env1 :
  env1 !! "LD_LIBRARY_PATH" = env !! "LD_LIBRARY_PATH" →
  scanned sys env []
    {| found_json := false; found_lib := false; found_this_lib := false;
       scan_env := env1; strtok_left := false; scan_rows := [] |}.
Proof.
  intros H. split; simpl; try done.
  - by intros json ?%elem_of_nil.
  - intros _. split; [done|]. by apply library_path_folders_agree.
  - intros Hnot. by rewrite H.
Qed.

(** The state in which the scan ends, when it ends. *)
Lemma PrintDriverInfo_scanned sys env res env' rows :
  PrintDriverInfo sys env = Some (res, env', rows) →
  ∃ read st,
    scanned sys env ((driver_paths env ≫= folder_candidates sys) ++ read) st ∧
    read_so_far sys (icd_filenames env) read st ∧
    res = driver_verdict (found_json st) (found_lib st) ∧
    rows = scan_rows st.
Proof.
  unfold PrintDriverInfo.
  destruct (driver_search_paths_spec env) as (index & env1 & -> & Hother).
  destruct (scan_folders sys index _ (driver_paths env) 0 _) as [st1|] eqn:Hscan;
    simpl; [|done].
  pose proof (scan_folders_other _ _ _ _ "VK_ICD_FILENAMES" ltac:(done)
                _ _ _ Hscan) as Hicd.
  simpl in Hicd. rewrite Hother in Hicd by done.
  eapply scan_folders_scanned in Hscan;
    [|apply (initial_scanned sys env env1); by apply Hother].
  simpl in Hscan.
  destruct (scan_icd_filenames sys st1) as [st2|] eqn:Hfiles; simpl; [|done].
  eapply scan_icd_filenames_scanned in Hfiles as (read & Hst2 & Hread);
    [|done|done].
  intros [= <- <- <-]. by exists read, st2.
Qed.

(** The scan ends when every manifest can be read. *)
Lemma PrintDriverInfo_total sys env :
  Forall (reads sys) (driver_candidates sys env) →
  is_Some (PrintDriverInfo sys env).
Proof.
  unfold PrintDriverInfo, driver_candidates.
  intros [Hfolders Hfiles]%Forall_app.
  destruct (driver_search_paths_spec env) as (index & env1 & -> & Hother).
  destruct (scan_folders_total sys index
              (default "" (to_string <$> getenv env1 "VK_DRIVERS_PATH"))
              (driver_paths env) Hfolders 0%nat
              {| found_json := false; found_lib := false;
                 found_this_lib := false; scan_env := env1;
                 strtok_left := false; scan_rows := [] |})
    as [st1 Hscan].
  rewrite Hscan. simpl.
  pose proof (scan_folders_other _ _ _ _ "VK_ICD_FILENAMES" ltac:(done)
                _ _ _ Hscan) as Hicd.
  simpl in Hicd. rewrite Hother in Hicd by done.
  destruct (scan_icd_filenames_total sys env st1 Hicd Hfiles) as [st2 ->].
  by eexists.
Qed.

(** A loop over one file at most is not cut short. *)
Lemma read_so_far_short sys toks read st :
  read_so_far sys toks read st →
  (length (filter (λ tok, access_R_OK sys tok = true) toks) ≤ 1)%nat →
  read = filter (λ tok, access_R_OK sys tok = true) toks.
Proof.
  intros [[rest Hrest] [Hall|[Hsome _]]] Hshort; [done|].
  rewrite Hrest in *. destruct read as [|tok read]; [done|].
  destruct rest as [|tok' rest]; [by rewrite app_nil_r|].
  simpl in Hshort. rewrite length_app in Hshort. simpl in Hshort. lia.
Qed.




(** C3, as the program has it.  A driver manifest that parses but has
    no ["ICD"] section is reported with the row "ICD Section /
    MISSING!" and is not counted as found: a run whose only candidate
    is such a manifest returns, and its verdict is
    [MISSING_DRIVER_JSON]. *)
Theorem manifest_without_ICD_reported_not_counted sys env json :
  driver_candidates sys env = [json] →
  lacks_ICD_section sys json →
  ∃ env' rows,
    PrintDriverInfo sys env = Some (MISSING_DRIVER_JSON, env', rows) ∧
    missing_ICD_section_row ∈ rows.
Proof.
  intros Hcands (Hreads & Hparses & HnoICD)%lacks_ICD_section_reads.
  destruct (PrintDriverInfo_total sys env) as [[[res env'] rows] Hrun].
  { rewrite Hcands. by repeat constructor. }
  destruct (PrintDriverInfo_scanned sys env res env' rows Hrun)
    as (read & st & Hst & Hread & -> & ->).
  apply read_so_far_short in Hread.
  2:{ unfold driver_candidates in Hcands.
      apply (f_equal length) in Hcands. rewrite length_app in Hcands.
      simpl in Hcands. lia. }
  rewrite Hread in Hst. fold (driver_candidates sys env) in Hst.
  rewrite Hcands in Hst. destruct Hst as [Hj _ Hr _ _].
  simpl in Hj. rewrite HnoICD in Hj. simpl in Hj.
  exists env', (scan_rows st). rewrite Hrun. unfold driver_verdict.
  rewrite Hj. simpl. split; [done|].
  apply (Hr json); [by left | done].
Qed.

Lemma manifest_without_ICD_reported_not_counted_witness :
  ∃ env' rows,
    PrintDriverInfo Examples.incomplete_system ∅
    = Some (MISSING_DRIVER_JSON, env', rows) ∧
    missing_ICD_section_row ∈ rows.
Proof.
  apply (manifest_without_ICD_reported_not_counted Examples.incomplete_system
           ∅ "/etc/vulkan/icd.d/broken.json").
  - vm_compute. reflexivity.
  - exists Examples.incomplete_manifest, (stringValue "1.0.0").
    repeat split; try reflexivity. by eexists.
Defined.

(** C3, as stated, fails: the only candidate of this run is a manifest
    that parses and has no ["ICD"] section, and the verdict is
    [MISSING_DRIVER_JSON], not [MISSING_DRIVER_LIB]. *)
Lemma manifest_without_ICD_is_not_found :
  driver_candidates Examples.incomplete_system ∅
  = ["/etc/vulkan/icd.d/broken.json"] ∧
  parses_without_ICD Examples.incomplete_system "/etc/vulkan/icd.d/broken.json"
  = true ∧
  (λ r, r.1.1) <$> PrintDriverInfo Examples.incomplete_system ∅
  = Some MISSING_DRIVER_JSON ∧
  (λ r, r.1.1) <$> PrintDriverInfo Examples.incomplete_system ∅
  ≠ Some MISSING_DRIVER_LIB.
Proof. repeat split; try (vm_compute; reflexivity). vm_compute. discriminate. Qed.

(** *** The file that a plain reference stands for *)






















(** X29.  The loop over [VK_ICD_FILENAMES] can end before its last
    file.  Here both files can be read and the library of the second
    is in the folder of [LD_LIBRARY_PATH]; the search for the library
    of the first starts [strtok] on [LD_LIBRARY_PATH], so that
    [strtok (NULL, ":")] at the end of the round gives [NULL]: the
    second file is not read, and the verdict is [MISSING_DRIVER_LIB].
    With the second file alone the verdict is [SUCCESSFUL]. *)
Theorem second_driver_not_read :
  driver_candidates Hosts.two_drivers_system Hosts.both_drivers
  = ["/opt/a.json"; "/opt/b.json"] ∧
  library_found Hosts.two_drivers_system Hosts.both_drivers "/opt/b.json"
  = true ∧
  (λ r, r.1.1) <$> PrintDriverInfo Hosts.two_drivers_system Hosts.both_drivers
  = Some MISSING_DRIVER_LIB ∧
  (λ r, r.1.1) <$> PrintDriverInfo Hosts.two_drivers_system
                     Hosts.second_driver_alone
  = Some SUCCESSFUL.
Proof. repeat split; vm_compute; reflexivity. Qed.

End DriverFacts.

(** ** The exit status *)

Module ReportFacts.

Import Report.

(** Whatever the driver pass found, [PrintSystemInfo] returns what
    [PrintLayerSettingsFileInfo] returned, which is [SUCCESSFUL]. *)
Lemma PrintSystemInfo_res sys passes env res env' rows :
  PrintSystemInfo sys passes env = Some (res, env', rows) → res = SUCCESSFUL.
Proof.
  unfold PrintSystemInfo.
  destruct (Drivers.PrintDriverInfo sys env) as [[[r1 e1] d1]|]; simpl; [|done].
  destruct (PrintRunTimeInfo passes e1) as [[[r2 e2] d2]|]; simpl; [|done].
  destruct (PrintSDKInfo passes e2) as [[[r3 e3] d3]|]; simpl; [|done].
  destruct (LayerDiscovery.PrintLayerInfo sys e3) as [[[r4 e4] d4]|]; simpl;
    [|done].
  unfold Settings.PrintLayerSettingsFileInfo.
  destruct (getenv e4 "VK_LAYER_SETTINGS_PATH"); by intros [= <- <- <-].
Qed.

(** The exit status of a run that ends is that of the Vulkan calls
    and the external tests; the driver verdict has no part in it. *)
Lemma main_status sys passes env status :
  main sys passes env = Some status →
  status = error_code (if bool_decide (PrintVulkanInfo passes ≠ SUCCESSFUL)
                       then PrintVulkanInfo passes
                       else PrintTestResults passes).
Proof.
  unfold main.
  destruct (PrintSystemInfo sys passes env) as [[[res env'] rows]|] eqn:Hsys;
    simpl; [|done].
  apply PrintSystemInfo_res in Hsys as ->.
  rewrite bool_decide_eq_false_2 by (by intros []). by intros [= <-].
Qed.

(** C4.  On a host without any driver manifest the driver pass returns
    [MISSING_DRIVER_JSON]; the later passes succeed, [PrintSystemInfo]
    returns [SUCCESSFUL], and the exit status of the run is 0. *)
Theorem driver_failure_masked :
  (λ r, r.1.1) <$> Drivers.PrintDriverInfo Examples.empty_system ∅
  = Some MISSING_DRIVER_JSON ∧
  (λ r, r.1.1) <$> PrintSystemInfo Examples.empty_system Examples.quiet_passes ∅
  = Some SUCCESSFUL ∧
  main Examples.empty_system Examples.quiet_passes ∅ = Some 0 ∧
  error_code MISSING_DRIVER_JSON ≠ 0.
Proof. repeat split; try (vm_compute; reflexivity). discriminate. Qed.

End ReportFacts.

(** ** The driver pass and its surroundings *)

Module DriverPassFacts.

Import Drivers DriverSpec HostSpec.

(** *** The variables the pass leaves alone *)

(** X10.  The driver pass writes into three values of the environment
    and no other: a variable that is none of [VK_DRIVERS_PATH],
    [VK_ICD_FILENAMES] and [LD_LIBRARY_PATH] has after the pass the
    value it had before. *)
Theorem PrintDriverInfo_frame sys env res env' rows name :
  PrintDriverInfo sys env = Some (res, env', rows) →
  ¬ tokenised_by_driver_pass name →
  env' !! name = env !! name.
Proof.
  unfold tokenised_by_driver_pass. intros Hrun Hname.
  assert (name ≠ "VK_DRIVERS_PATH" ∧ name ≠ "VK_ICD_FILENAMES"
          ∧ name ≠ "LD_LIBRARY_PATH") as (Hd & Hi & Hl) by tauto.
  revert Hrun. unfold PrintDriverInfo.
  pose proof (DriverFacts.driver_search_paths_other env name Hd) as Hpaths.
  destruct (driver_search_paths env) as [[index paths] env1].
  simpl in Hpaths.
  destruct (scan_folders sys index _ paths 0 _) as [st1|] eqn:Hscan; simpl;
    [|done].
  destruct (scan_icd_filenames sys st1) as [st2|] eqn:Hfiles; simpl; [|done].
  intros [= _ <- _].
  rewrite (DriverFacts.scan_icd_filenames_other _ _ _ name Hl Hi Hfiles).
  by rewrite (DriverFacts.scan_folders_other _ _ _ _ name Hl _ _ _ Hscan).
Qed.

Lemma PrintDriverInfo_frame_witness :
  ∃ res env' rows,
    PrintDriverInfo Examples.empty_system
      (<["HOME" := "/home/u"]> (<["VK_DRIVERS_PATH" := "/opt/a:/opt/b"]> ∅))
    = Some (res, env', rows) ∧
    env' !! "HOME" = Some "/home/u" ∧
    env' !! "VK_DRIVERS_PATH" = Some "/opt/a".
Proof.
  eexists _, _, _. split; [vm_compute; reflexivity|].
  split; [|vm_compute; reflexivity].
  etrans.
  - eapply (PrintDriverInfo_frame Examples.empty_system
             (<["HOME" := "/home/u"]>
                (<["VK_DRIVERS_PATH" := "/opt/a:/opt/b"]> ∅))
             MISSING_DRIVER_JSON _ _ "HOME").
    + vm_compute. reflexivity.
    + intros [H|[H|H]]; discriminate.
  - vm_compute. reflexivity.
Defined.

(** *** What [dlopen] answers plays no part *)

Lemma option_Forall2_bind {A B} (R : A → A → Prop) (S : B → B → Prop)
    (f g : A → option B) m1 m2 :
  option_Forall2 R m1 m2 →
  (∀ a b, R a b → option_Forall2 S (f a) (g b)) →
  option_Forall2 S (m1 ≫= f) (m2 ≫= g).
Proof. intros [a b Hab|] Hfg; simpl; [by apply Hfg|constructor]. Qed.

Lemma locate_library_dlopen sys answer env json driver_name found_lib :
  (locate_library (with_dlopen sys answer) env json driver_name
     found_lib).1.1.1.1
  = (locate_library sys env json driver_name found_lib).1.1.1.1 ∧
  (locate_library (with_dlopen sys answer) env json driver_name found_lib).1.2
  = (locate_library sys env json driver_name found_lib).1.2 ∧
  (locate_library (with_dlopen sys answer) env json driver_name found_lib).2
  = (locate_library sys env json driver_name found_lib).2.
Proof.
  unfold locate_library.
  destruct (PathResolver.GenerateLibraryPath _ _ _) as [full|]; [|done].
  cbn [access_R_OK with_dlopen].
  destruct (access_R_OK sys _).
  { by destruct (VerifyOpen _ _ _), (VerifyOpen _ _ _). }
  destruct (negb _); [|done].
  change (FindLinuxSystemObject (with_dlopen sys answer) env driver_name ""
            (CheckDriver (with_dlopen sys answer)) true)
    with (FindLinuxSystemObject sys env driver_name "" (CheckDriver sys) true).
  change (restarts_strtok (with_dlopen sys answer) env driver_name
            (CheckDriver (with_dlopen sys answer)) true)
    with (restarts_strtok sys env driver_name (CheckDriver sys) true).
  destruct (FindLinuxSystemObject sys env _ _ _ _) as [[found location] env'].
  destruct found; [|done].
  by destruct (VerifyOpen _ _ _), (VerifyOpen _ _ _).
Qed.

Lemma ldconfig_fallback_dlopen sys answer json driver_name found_lib
    could_load load_error could_load' load_error' :
  (ldconfig_fallback (with_dlopen sys answer) json driver_name found_lib
     could_load load_error).1
  = (ldconfig_fallback sys json driver_name found_lib could_load'
       load_error').1.
Proof. by rewrite !DriverFacts.ldconfig_fallback_found. Qed.

Lemma ReadDriverJson_dlopen sys answer env json found_lib :
  fst <$> ReadDriverJson (with_dlopen sys answer) env json found_lib
  = fst <$> ReadDriverJson sys env json found_lib.
Proof.
  unfold ReadDriverJson. cbn [json_file with_dlopen].
  destruct (json_file sys json) as [|messages|root]; [done..|].
  destruct (isNull root); [done|].
  destruct (member root "file_format_version") as [ffv|]; simpl; [|done].
  destruct (shown_or_missing ffv) as [version|]; simpl; [|done].
  destruct (member root "ICD") as [ICD|]; simpl; [|done].
  destruct (isNull ICD); [done|].
  destruct (member ICD "api_version") as [av|]; simpl; [|done].
  destruct (shown_or_missing av) as [api|]; simpl; [|done].
  destruct (member ICD "library_path") as [lp|]; simpl; [|done].
  destruct (isNull lp); simpl; [done|].
  destruct (asString lp) as [driver_name|]; simpl; [|done].
  destruct (locate_library_dlopen sys answer env json driver_name found_lib)
    as (Hfound & Henv & Hleft).
  destruct (locate_library (with_dlopen sys answer) env json driver_name
              found_lib) as [[[[f1 c1] l1] e1] r1],
           (locate_library sys env json driver_name found_lib)
    as [[[[f2 c2] l2] e2] r2].
  simpl in Hfound, Henv, Hleft. subst f2 e2 r2.
  pose proof (ldconfig_fallback_dlopen sys answer json driver_name f1
                c1 l1 c2 l2) as Hfb.
  destruct (ldconfig_fallback (with_dlopen sys answer) _ _ _ _ _)
    as [found1 rows1],
           (ldconfig_fallback sys _ _ _ _ _) as [found2 rows2].
  simpl in Hfb. subst found2. simpl.
  destruct (member ICD "device_extensions") as [de|]; simpl; [|done].
  destruct (extension_rows _ _ de) as [dr|]; simpl; [|done].
  destruct (member ICD "instance_extensions") as [ie|]; simpl; [|done].
  by destruct (extension_rows _ _ ie) as [ir|].
Qed.

Lemma add_rows_same_findings rows rows' st st' :
  same_findings st st' → same_findings (add_rows rows st) (add_rows rows' st').
Proof. by intros (? & ? & ? & ? & ?). Qed.

Lemma read_driver_dlopen sys answer json st st' :
  same_findings st st' →
  option_Forall2 same_findings
    (read_driver (with_dlopen sys answer) json st) (read_driver sys json st').
Proof.
  intros (Hj & Hl & Ht & He & Hs). unfold read_driver. rewrite He, Ht.
  pose proof (ReadDriverJson_dlopen sys answer (scan_env st') json
                (found_this_lib st')) as Hread.
  destruct (ReadDriverJson (with_dlopen sys answer) _ _ _)
    as [[[[[ok1 lib1] env1] left1] rows1]|],
           (ReadDriverJson sys _ _ _) as [[[[[ok2 lib2] env2] left2] rows2]|];
    simpl in Hread; try done; [|constructor].
  injection Hread as <- <- <- <-. constructor.
  unfold same_findings. simpl. by rewrite Hj, Hl, Hs.
Qed.

Lemma scan_entries_dlopen sys answer folder entries :
  ∀ i st st',
    same_findings st st' →
    option_Forall2 same_findings
      (scan_entries (with_dlopen sys answer) folder entries i st)
      (scan_entries sys folder entries i st').
Proof.
  induction entries as [|d_name rest IH]; intros i st st' Hst.
  { by constructor. }
  cbn [scan_entries].
  destruct (strstr (buf d_name) (buf ".json")); [|by apply IH].
  eapply option_Forall2_bind.
  - apply read_driver_dlopen. by apply add_rows_same_findings.
  - intros a b Hab. by apply IH.
Qed.

Lemma scan_folders_dlopen sys answer index shown folders :
  ∀ dir st st',
    same_findings st st' →
    option_Forall2 same_findings
      (scan_folders (with_dlopen sys answer) index shown folders dir st)
      (scan_folders sys index shown folders dir st').
Proof.
  induction folders as [|folder rest IH]; intros dir st st' Hst.
  { by constructor. }
  cbn [scan_folders readdir_all with_dlopen].
  eapply option_Forall2_bind; [|intros a b Hab; by apply IH].
  destruct (readdir_all sys folder) as [entries|].
  - apply scan_entries_dlopen. apply add_rows_same_findings.
    repeat case_bool_decide; by try apply add_rows_same_findings.
  - constructor. apply add_rows_same_findings.
    repeat case_bool_decide; by try apply add_rows_same_findings.
Qed.

Lemma scan_icd_files_dlopen sys answer toks :
  ∀ st st',
    same_findings st st' →
    option_Forall2 same_findings
      (scan_icd_files (with_dlopen sys answer) toks st)
      (scan_icd_files sys toks st').
Proof.
  induction toks as [|tok rest IH]; intros st st' Hst.
  { by constructor. }
  cbn [scan_icd_files].
  eapply option_Forall2_bind.
  - unfold scan_icd_file. cbn [access_R_OK with_dlopen].
    destruct (access_R_OK sys tok).
    + apply read_driver_dlopen. by apply add_rows_same_findings.
    + constructor. by apply add_rows_same_findings.
  - intros a b Hab. pose proof Hab as (_ & _ & _ & _ & ->).
    destruct (strtok_left b); [by constructor|by apply IH].
Qed.

Lemma scan_icd_filenames_dlopen sys answer st st' :
  same_findings st st' →
  option_Forall2 same_findings
    (scan_icd_filenames (with_dlopen sys answer) st)
    (scan_icd_filenames sys st').
Proof.
  intros Hst. unfold scan_icd_filenames.
  pose proof Hst as (Hj & Hl & Ht & He & Hs). rewrite He.
  cbn [add_rows scan_env].
  rewrite He.
  destruct (getenv (scan_env st') "VK_ICD_FILENAMES") as [value|];
    [|by constructor].
  destruct (strtok_env (scan_env st') "VK_ICD_FILENAMES" ":"%char)
    as [tokens env].
  apply scan_icd_files_dlopen. unfold same_findings. simpl. by rewrite Hj, Hl, Ht.
Qed.

(** X11.  What [dlopen] answers changes rows of the driver table and
    nothing else: on two hosts that differ in the answers of [dlopen]
    alone, the driver pass ends on both or on neither, with the same
    verdict and the same environment. *)
Theorem PrintDriverInfo_ignores_dlopen sys answer env :
  fst <$> PrintDriverInfo (with_dlopen sys answer) env
  = fst <$> PrintDriverInfo sys env.
Proof.
  unfold PrintDriverInfo.
  destruct (driver_search_paths env) as [[index paths] env1].
  set (st0 := {| found_json := false; found_lib := false;
                 found_this_lib := false; scan_env := env1;
                 strtok_left := false; scan_rows := [] |}).
  pose proof (scan_folders_dlopen sys answer index
                (default "" (to_string <$> getenv env1 "VK_DRIVERS_PATH"))
                paths 0%nat st0 st0
                (conj eq_refl (conj eq_refl (conj eq_refl
                   (conj eq_refl eq_refl))))) as Hscan.
  destruct Hscan as [st1 st1' Hst1|]; simpl; [|done].
  destruct (scan_icd_filenames_dlopen sys answer st1 st1' Hst1)
    as [st2 st2' (Hj & Hl & _ & He & _)|]; simpl; [|done].
  by rewrite Hj, Hl, He.
Qed.

End DriverPassFacts.

(** ** The order of explicit-layer discovery *)

Module LayerDiscoveryFacts.

Import Layers LayerDiscovery FolderSpec.

(** The rows of a manifest that names its layer begin with the row of
    that name. *)
Lemma layer_name_row sys path filename root rows name :
  json_file sys path = Document root →
  PrintExplicitLayerJsonInfo filename root = Some rows →
  layer_name sys path = Some name →
  ∃ rest, rows = [el ""; el ""; el "Name"; el name] :: rest.
Proof.
  unfold layer_name, PrintExplicitLayerJsonInfo. intros ->.
  destruct root as [| | | | | |members]; try done. simpl.
  destruct (find_member "layer" members) as [| | | | | |fields]; try done.
  simpl.
  destruct (find_member "name" fields) as [| | |shown| | |]; try done.
  simpl. intros Hrows [= <-].
  repeat (apply bind_Some in Hrows as (? & ? & Hrows)).
  injection Hrows as <-. by eexists.
Qed.

(** The rows that one round of the loop adds hold the rows of the
    manifests of the folder, in their order. *)
Lemma explicit_entries_rows sys folder entries :
  ∀ st st',
    explicit_entries sys folder entries st = Some st' →
    ∃ added,
      folder_rows st' = folder_rows st ++ added ∧
      concat (imap (λ k, manifest_report sys folder (folder_i st + k))
                (filter (λ d_name, strstr (buf d_name) (buf ".json") = true)
                   entries))
      `sublist_of` added.
Proof.
  induction entries as [|d_name rest IH]; intros st st'.
  { intros [= <-]. exists []. by rewrite app_nil_r. }
  cbn [explicit_entries]. rewrite filter_cons.
  destruct (strstr (buf d_name) (buf ".json")) eqn:Hjson.
  2:{ rewrite decide_False by done. apply IH. }
  rewrite decide_True by done. rewrite imap_cons. cbn [concat].
  rewrite Nat.add_0_r.
  intros (st1 & Hone & Hrest)%bind_Some.
  assert (∃ rows1,
            folder_i st1 = S (folder_i st) ∧
            folder_rows st1 = folder_rows st ++ rows1 ∧
            manifest_report sys folder (folder_i st) d_name `sublist_of` rows1)
    as (rows1 & Hi & Hrows & Hsub).
  { unfold manifest_report, reading_note.
    pose proof (layer_name_row sys (folder +:+ "/" +:+ d_name)
                  (c_str (folder +:+ "/" +:+ d_name))) as Hname.
    destruct (json_file sys (folder +:+ "/" +:+ d_name))
      as [|messages|root] eqn:Hfile.
    - injection Hone as <-. eexists. split; [done|]. split; [done|].
      unfold layer_name. by rewrite Hfile.
    - injection Hone as <-. eexists. split; [done|]. split; [done|].
      unfold layer_name. by rewrite Hfile.
    - destruct (isNull root) eqn:Hnull.
      + injection Hone as <-. eexists. split; [done|]. split; [done|].
        unfold layer_name. rewrite Hfile. by destruct root.
      + apply bind_Some in Hone as (rows & Hinfo & [= <-]).
        eexists. split; [done|]. split; [done|].
        apply sublist_skip.
        destruct (layer_name sys (folder +:+ "/" +:+ d_name)) as [name|];
          [|apply sublist_nil_l].
        destruct (Hname root rows name eq_refl Hinfo eq_refl) as [more ->].
        apply sublist_skip, sublist_nil_l. }
  destruct (IH _ _ Hrest) as (added & Hadded & Hmore).
  exists (rows1 ++ added). split.
  - by rewrite Hadded, Hrows, (assoc_L (++)).
  - apply sublist_app; [done|].
    rewrite Hi in Hmore.
    erewrite imap_ext; [exact Hmore|].
    intros k d_name' _. simpl. f_equal. lia.
Qed.

(** What [PrintExplicitLayersInFolder] returns is a report on the
    folder. *)
Lemma PrintExplicitLayersInFolder_reports sys id folder r report :
  PrintExplicitLayersInFolder sys id folder = Some (r, report) →
  reports_folder sys id folder report.
Proof.
  unfold PrintExplicitLayersInFolder, reports_folder, manifest_rows,
    manifests_of.
  destruct (readdir_all sys folder) as [entries|]; simpl.
  - intros (st & Hscan & [= <- <-])%bind_Some.
    apply explicit_entries_rows in Hscan as (added & Hrows & Hsub).
    simpl in Hrows, Hsub. rewrite Hrows. split.
    + destruct (folder_found_json st); by do 2 eexists.
    + destruct (folder_found_json st); apply sublist_cons;
        [done|by apply sublist_inserts_r].
  - intros [= <- <-]. split; [by do 2 eexists|apply sublist_nil_l].
Qed.

(** The rows of a run over folders are the reports on the folders, one
    after the other. *)
Lemma explicit_folders_reports sys folders :
  ∀ res res' rows,
    explicit_folders sys folders res = Some (res', rows) →
    ∃ reports,
      rows = concat reports ∧
      Forall2 (λ (folder : string * string) report,
                 reports_folder sys folder.1 folder.2 report)
        folders reports.
Proof.
  induction folders as [|[id folder_loc] rest IH]; intros res res' rows; simpl.
  { intros [= <- <-]. exists []. by split; [|constructor]. }
  destruct (PrintExplicitLayersInFolder sys id folder_loc) as [[r report]|]
    eqn:Hfolder; simpl; [|done].
  destruct (explicit_folders sys rest r) as [[r' more]|] eqn:Hrest; simpl;
    [|done].
  intros [= <- <-].
  destruct (IH _ _ _ Hrest) as (reports & -> & Hall).
  exists (report :: reports). split; [done|].
  constructor; [by eapply PrintExplicitLayersInFolder_reports | done].
Qed.

(** C9.  When the implicit layers have named override paths, the table
    of explicit layers begins with the "Override Paths" row and a
    report on each override folder, in the order the paths were
    collected; the "Standard Paths" row and the reports on the five
    well-known folders come after all of them.  The report on a folder
    begins with the row that names the folder and holds, for each
    manifest of the folder in the order of the directory, the row with
    its number, its name and what reading it gave, followed by the
    name of its layer when the manifest gives one. *)
Theorem override_folders_before_standard sys env st res env' rows :
  implicit_pass sys env = Some st →
  override_search_paths st ≠ [] →
  PrintLayerInfo sys env = Some (res, env', rows) →
  ∃ override_reports middle standard_reports,
    rows = implicit_rows st
           ++ override_header :: concat override_reports
           ++ middle
           ++ standard_header :: concat standard_reports ∧
    Forall2 (λ path report, reports_folder sys "Override" path report)
      (override_search_paths st) override_reports ∧
    Forall2 (λ (folder : string * string) report,
               reports_folder sys folder.1 folder.2 report)
      (standard_explicit_folders env') standard_reports.
Proof.
  intros Himplicit Hpaths. unfold PrintLayerInfo, explicit_pass.
  generalize standard_explicit_folders. intros standard.
  rewrite Himplicit. simpl.
  rewrite bool_decide_eq_true_2 by (by intros ?%nil_length_inv).
  destruct (explicit_folders sys (override_folders _) _)
    as [[r1 override_rows]|] eqn:Hover; simpl; [|done].
  apply explicit_folders_reports in Hover as (override_reports & -> & Hover).
  destruct (layer_path_pass sys env r1) as [[[r2 env2] middle]|]; simpl;
    [|done].
  destruct (explicit_folders sys (standard env2) r2)
    as [[r3 standard_rows]|] eqn:Hstd; simpl; [|done].
  apply explicit_folders_reports in Hstd as (standard_reports & -> & Hstd).
  intros [= <- <- <-].
  exists override_reports, middle, standard_reports.
  split; [done|]. split; [|done].
  unfold override_folders in Hover. by apply Forall2_fmap_l in Hover.
Qed.

Lemma override_folders_before_standard_witness :
  ∃ override_reports middle standard_reports,
    default [] ((λ r, r.2) <$> PrintLayerInfo Examples.override_system ∅)
    = default [] (implicit_rows <$> implicit_pass Examples.override_system ∅)
      ++ override_header :: concat override_reports
      ++ middle
      ++ standard_header :: concat standard_reports ∧
    Forall2 (λ path report,
               reports_folder Examples.override_system "Override" path report)
      ["/opt/layers"] override_reports ∧
    Forall2 (λ (folder : string * string) report,
               reports_folder Examples.override_system folder.1 folder.2
                 report)
      (standard_explicit_folders ∅) standard_reports ∧
    manifest_rows Examples.override_system "/opt/layers"
    = [ [el ""; el_right "[0]"; el "other.json"; el ""];
        [el ""; el ""; el "Name"; el "VK_LAYER_other"] ].
Proof.
  destruct (implicit_pass Examples.override_system ∅) as [st|] eqn:Hst;
    [|by vm_compute in Hst].
  destruct (PrintLayerInfo Examples.override_system ∅) as [[[res env'] rows]|]
    eqn:Hrun; [|by vm_compute in Hrun].
  assert (override_search_paths st = ["/opt/layers"]) as Hpaths
      by (vm_compute in Hst; by injection Hst as <-).
  assert (env' = ∅) as Henv
      by (vm_compute in Hrun; by injection Hrun as <- <- <-).
  destruct (override_folders_before_standard Examples.override_system ∅ st res
              env' rows Hst) as (o & m & s & H1 & H2 & H3);
    [by rewrite Hpaths | exact Hrun |].
  rewrite Hpaths in H2. rewrite Henv in H3.
  exists o, m, s.
  split; [exact H1|]. split; [exact H2|]. split; [exact H3|].
  vm_compute. reflexivity.
Defined.

End LayerDiscoveryFacts.

(** ** More on the PathResolver *)

Module ResolveFacts.

Import PathResolver.

(** X12.  A ["../"] (or ["..\"]) in front of a relative reference
    changes nothing: the reference resolves to the same path with it
    and without it. *)
Theorem parent_segment_is_dropped json_location library_info sep max_length :
  is_separator sep = true →
  is_separator (char_at library_info 0)
  || bool_decide (char_at library_info 1 = ":"%char) = false →
  GenerateLibraryPath (Some json_location)
    (Some ("."%char :: "."%char :: sep :: library_info)) max_length
  = GenerateLibraryPath (Some json_location) (Some library_info) max_length.
Proof.
  intros Hsep Hrel. unfold GenerateLibraryPath. rewrite Hrel.
  cbn [char_at nth skip_parent_segments].
  rewrite Hsep.
  change (is_separator "."%char || bool_decide ("."%char = ":"%char))
    with false.
  change (bool_decide ("."%char = "."%char)) with true.
  cbn [andb orb].
  by rewrite PathResolverFacts.terminate_idempotent.
Qed.

Lemma parent_segment_is_dropped_witness :
  GenerateLibraryPath (Some (buf "/a/b/c/m.json")) (Some (buf "../lib/x.so"))
    1024
  = GenerateLibraryPath (Some (buf "/a/b/c/m.json")) (Some (buf "lib/x.so"))
      1024.
Proof.
  apply (parent_segment_is_dropped (buf "/a/b/c/m.json") (buf "lib/x.so")
           "/"%char 1024); reflexivity.
Defined.

End ResolveFacts.

(** ** The expiration of an implicit layer *)

Module ExpirationFacts.

Import Layers.

Lemma strchr_app_dash field rest :
  strchr field "-"%char = None →
  strchr (field ++ "-"%char :: rest) "-"%char = Some (length field).
Proof.
  induction field as [|c field IH]; simpl; [done|].
  case_decide; [done|].
  destruct (strchr field "-"%char); [done|]. intros _. by rewrite IH.
Qed.

(** One round of the loop on a field that a dash ends. *)
Lemma parse_items_field rounds cur_item field rest e :
  (cur_item < 5)%nat →
  parse_items (S rounds) cur_item (field ++ "-"%char :: rest)
    (Some (length field)) e
  = parse_items rounds (S cur_item) rest (strchr rest "-"%char)
      (set_item cur_item (atoi field) e).
Proof.
  intros Hitem. cbn [parse_items].
  rewrite (proj2 (Nat.ltb_lt _ _) Hitem).
  unfold strlen. rewrite length_app. simpl.
  replace (0 <? length field + S (length rest))%nat with true
    by (symmetry; apply Nat.ltb_lt; lia).
  cbn [andb]. rewrite take_app_length.
  rewrite (cons_middle "-"%char field rest), (assoc_L (++)).
  rewrite (drop_app_length' (field ++ ["-"%char]) rest (S (length field)));
    [done|].
  rewrite length_app. simpl. lia.
Qed.

(** The rounds on the last field: it is read once for each item that
    is still to be set. *)
Lemma parse_items_last rounds cur_item field e :
  field ≠ [] → (cur_item + rounds = 5)%nat →
  parse_items rounds cur_item field None e
  = fold_left (λ e item, set_item item (atoi field) e)
      (seq cur_item rounds) e.
Proof.
  intros Hfield. revert cur_item e.
  induction rounds as [|rounds IH]; intros cur_item e Hsum; [done|].
  cbn [parse_items seq fold_left].
  replace (cur_item <? 5)%nat with true by (symmetry; apply Nat.ltb_lt; lia).
  replace (0 <? strlen field)%nat with true
    by (symmetry; apply Nat.ltb_lt; destruct field; [done|simpl; lia]).
  cbn [andb]. apply IH. lia.
Qed.

(** X13.  A timestamp of five fields between dashes is read field by
    field: the year is the first field as [atoi] reads it, narrowed to
    16 bits, and month, day, hour and minute are the next four,
    narrowed to 8 bits. *)
Theorem parse_expiration_five_fields f0 f1 f2 f3 f4 :
  strchr f0 "-"%char = None → strchr f1 "-"%char = None →
  strchr f2 "-"%char = None → strchr f3 "-"%char = None →
  strchr f4 "-"%char = None →
  parse_expiration
    (f0 ++ "-"%char :: f1 ++ "-"%char :: f2 ++ "-"%char :: f3
        ++ "-"%char :: f4)
  = {| year := wrap_unsigned 16 (atoi f0);
       month := wrap_unsigned 8 (atoi f1);
       day := wrap_unsigned 8 (atoi f2);
       hour := wrap_unsigned 8 (atoi f3);
       minute := wrap_unsigned 8 (atoi f4) |}.
Proof.
  intros H0 H1 H2 H3 H4. unfold parse_expiration.
  rewrite (strchr_app_dash f0 _ H0).
  rewrite parse_items_field, (strchr_app_dash f1 _ H1) by lia.
  rewrite parse_items_field, (strchr_app_dash f2 _ H2) by lia.
  rewrite parse_items_field, (strchr_app_dash f3 _ H3) by lia.
  rewrite parse_items_field, H4 by lia.
  destruct f4 as [|c f4]; [done|].
  by rewrite parse_items_last.
Qed.

Lemma parse_expiration_five_fields_witness :
  parse_expiration (buf "2024-06-15-12-30")
  = {| year := 2024; month := 6; day := 15; hour := 12; minute := 30 |}.
Proof.
  apply (parse_expiration_five_fields (buf "2024") (buf "06") (buf "15")
           (buf "12") (buf "30")); reflexivity.
Defined.

(** X14.  A timestamp of four fields gives its last field to the hour
    and to the minute: once no dash is left the loop reads the same
    text again for each item that remains. *)
Theorem parse_expiration_four_fields f0 f1 f2 f3 :
  strchr f0 "-"%char = None → strchr f1 "-"%char = None →
  strchr f2 "-"%char = None → strchr f3 "-"%char = None →
  parse_expiration (f0 ++ "-"%char :: f1 ++ "-"%char :: f2 ++ "-"%char :: f3)
  = {| year := wrap_unsigned 16 (atoi f0);
       month := wrap_unsigned 8 (atoi f1);
       day := wrap_unsigned 8 (atoi f2);
       hour := wrap_unsigned 8 (atoi f3);
       minute := wrap_unsigned 8 (atoi f3) |}.
Proof.
  intros H0 H1 H2 H3. unfold parse_expiration.
  rewrite (strchr_app_dash f0 _ H0).
  rewrite parse_items_field, (strchr_app_dash f1 _ H1) by lia.
  rewrite parse_items_field, (strchr_app_dash f2 _ H2) by lia.
  rewrite parse_items_field, H3 by lia.
  destruct f3 as [|c f3]; [done|].
  by rewrite parse_items_last.
Qed.

Lemma parse_expiration_four_fields_witness :
  parse_expiration (buf "2024-06-15-00012")
  = {| year := 2024; month := 6; day := 15; hour := 12; minute := 12 |}.
Proof.
  apply (parse_expiration_four_fields (buf "2024") (buf "06") (buf "15")
           (buf "00012")); reflexivity.
Defined.

(** X15.  A layer that the toggles leave enabled and whose expiration
    has 16 characters is shown as EXPIRED when [checkExpiration] finds
    the timestamp still valid and as DISABLED when it does not; it is
    never shown as ENABLED. *)
Theorem enabled_layer_never_shown_enabled env now root layer fl text :
  toggle_flags env root = Some fl →
  enabled fl = true →
  member root "layer" = Some layer →
  member layer "expiration" = Some (stringValue text) →
  strlen (c_str text) = 16%nat →
  ∃ fl' rows,
    evaluate env now root = Some (fl', rows) ∧
    enabled_state fl'
    = (if checkExpiration now (parse_expiration (strncpy (c_str text) 32))
       then "EXPIRED" else "DISABLED") ∧
    enabled_state fl' ≠ "ENABLED".
Proof.
  intros Hfl Hon Hl Hexp Hlen.
  pose proof (LayerFacts.toggle_flags_not_expired _ _ _ Hfl) as Hx.
  destruct (LayerFacts.enabled_layer_with_expiration now text fl Hon Hx Hlen)
    as (fl' & rows & Hblock & Hstate).
  exists fl', rows. unfold evaluate.
  rewrite Hfl. simpl. rewrite Hl. simpl. rewrite Hexp. simpl.
  split; [done|]. split; [done|]. rewrite Hstate.
  by destruct (checkExpiration _ _).
Qed.

Lemma enabled_layer_never_shown_enabled_witness :
  ∃ fl' rows,
    evaluate ∅ Examples.noon (Examples.expiring_layer "2024-06-15-12-45")
    = Some (fl', rows) ∧
    enabled_state fl'
    = (if checkExpiration Examples.noon
            (parse_expiration (strncpy (c_str "2024-06-15-12-45") 32))
       then "EXPIRED" else "DISABLED") ∧
    enabled_state fl' ≠ "ENABLED".
Proof.
  eapply (enabled_layer_never_shown_enabled ∅ Examples.noon
            (Examples.expiring_layer "2024-06-15-12-45"));
    vm_compute; reflexivity.
Defined.

End ExpirationFacts.

(** ** The extensions of a manifest *)

Module ManifestFacts.

Lemma extension_names_rows pad exts names :
  Forall2 (λ ext name, member ext "name" = Some (stringValue name)) exts names →
  mapM (λ ext : Value,
          ext_name ← member ext "name";
          if negb (isNull ext_name) then
            name ← asString ext_name;
            Some [pad ++ [el_right ("[" +:+ pretty 0%nat +:+ "]"); el name]]
          else Some [])
       exts
  = Some ((λ name, [pad ++ [el_right "[0]"; el name]]) <$> names).
Proof.
  induction 1 as [|ext name exts names Hname _ IH]; [done|].
  cbn [mapM]. rewrite Hname, IH. reflexivity.
Qed.

Lemma concat_singletons {A B} (f : A → B) l :
  concat ((λ x, [f x]) <$> l) = f <$> l.
Proof.
  induction l as [|x l IH]; [done|].
  rewrite fmap_cons. cbn [concat]. by rewrite IH.
Qed.

(** X16.  For an array of extensions that all have a name, the rows
    are the title with the size of the array and then one row for each
    extension, in the order of the array; every one of them carries
    the index [0], the counter of the loop being never incremented. *)
Theorem extension_rows_all_numbered_zero pad title exts names :
  Forall2 (λ ext name, member ext "name" = Some (stringValue name)) exts names →
  extension_rows pad title (arrayValue exts)
  = Some ((pad ++ [el title; el (pretty (length exts))])
          :: ((λ name, pad ++ [el_right "[0]"; el name]) <$> names)).
Proof.
  intros Hnames. unfold extension_rows. cbn [isNull isArray negb andb elements].
  rewrite (extension_names_rows pad exts names Hnames).
  cbn [mbind option_bind size]. do 2 f_equal.
  apply (concat_singletons (λ name, pad ++ [el_right "[0]"; el name])).
Qed.

Lemma extension_rows_all_numbered_zero_witness :
  extension_rows [el ""] "Device Extensions"
    (arrayValue
       [ objectValue [("name", stringValue "VK_KHR_swapchain");
                      ("spec_version", intValue 70)];
         objectValue [("name", stringValue "VK_KHR_maintenance1")] ])
  = Some [ [el ""; el "Device Extensions"; el "2"];
           [el ""; el_right "[0]"; el "VK_KHR_swapchain"];
           [el ""; el_right "[0]"; el "VK_KHR_maintenance1"] ].
Proof.
  etrans.
  - apply (extension_rows_all_numbered_zero [el ""] "Device Extensions"
             [ objectValue [("name", stringValue "VK_KHR_swapchain");
                            ("spec_version", intValue 70)];
               objectValue [("name", stringValue "VK_KHR_maintenance1")] ]
             ["VK_KHR_swapchain"; "VK_KHR_maintenance1"]).
    repeat constructor.
  - vm_compute. reflexivity.
Defined.

End ManifestFacts.

(** ** The result of the layer pass *)

Module LayerPassFacts.

Import Layers LayerDiscovery LayerSpec.

Lemma default_last_cons {A} (d x : A) l :
  default d (last (x :: l)) = default x (last l).
Proof. rewrite last_cons. by destruct (last l). Qed.

(** The result of the loop over a folder is the error of the last
    manifest that set one. *)
Lemma explicit_entries_res sys folder_loc entries :
  ∀ st st',
    explicit_entries sys folder_loc entries st = Some st' →
    folder_res st'
    = default (folder_res st)
        (last (omap (manifest_error sys folder_loc) entries)).
Proof.
  induction entries as [|d_name rest IH]; intros st st'.
  { by intros [= <-]. }
  cbn [explicit_entries omap list_omap]. unfold manifest_error at 1.
  destruct (strstr (buf d_name) (buf ".json")); [|by apply IH].
  destruct (json_file sys (folder_loc +:+ "/" +:+ d_name))
    as [|messages|root]; cbn [mbind option_bind].
  1,2: intros Hrest; by rewrite (IH _ _ Hrest), default_last_cons.
  destruct (isNull root).
  { intros Hrest. by rewrite (IH _ _ Hrest), default_last_cons. }
  destruct (PrintExplicitLayerJsonInfo _ root) as [rows|];
    cbn [mbind option_bind]; [|done].
  intros Hrest. by rewrite (IH _ _ Hrest).
Qed.

(** X17.  The result of [PrintExplicitLayersInFolder] is the error of
    the last manifest of the folder that cannot be opened or parsed:
    an earlier error is overwritten by a later one, a manifest that
    parses leaves the result as it is, and a folder without such a
    manifest, or one that cannot be opened, gives [SUCCESSFUL]. *)
Theorem folder_result_is_last_error sys id folder_loc res rows :
  PrintExplicitLayersInFolder sys id folder_loc = Some (res, rows) →
  res = default SUCCESSFUL (last (folder_errors sys folder_loc)).
Proof.
  unfold PrintExplicitLayersInFolder, folder_errors.
  destruct (readdir_all sys folder_loc) as [entries|]; [|by intros [= <- _]].
  destruct (explicit_entries sys folder_loc entries _) as [st|] eqn:Hscan;
    cbn [mbind option_bind]; [|done].
  intros [= <- _]. by rewrite (explicit_entries_res _ _ _ _ _ Hscan).
Qed.

Lemma folder_result_is_last_error_witness :
  MISSING_LAYER_JSON
  = default SUCCESSFUL
      (last (folder_errors Hosts.broken_layers_system
               "/etc/vulkan/explicit_layer.d")).
Proof.
  eapply (folder_result_is_last_error Hosts.broken_layers_system
            "/etc/vulkan" "/etc/vulkan/explicit_layer.d").
  vm_compute. reflexivity.
Defined.

(** The result of a run over folders is the result of the last of
    them. *)
Lemma explicit_folders_last sys folders id folder_loc :
  ∀ res0 res rows,
    explicit_folders sys (folders ++ [(id, folder_loc)]) res0
    = Some (res, rows) →
    ∃ report, PrintExplicitLayersInFolder sys id folder_loc = Some (res, report).
Proof.
  induction folders as [|[id' folder'] rest IH]; intros res0 res rows;
    cbn [app explicit_folders].
  - destruct (PrintExplicitLayersInFolder sys id folder_loc)
      as [[r report]|]; cbn [mbind option_bind]; [|done].
    intros [= <- _]. by exists report.
  - destruct (PrintExplicitLayersInFolder sys id' folder')
      as [[r report]|]; cbn [mbind option_bind]; [|done].
    destruct (explicit_folders sys (rest ++ _) r) as [[r' more]|] eqn:Hrest;
      cbn [mbind option_bind]; [|done].
    intros [= <- _]. by eapply IH.
Qed.

Lemma layer_path_pass_home sys env res0 res env' rows :
  layer_path_pass sys env res0 = Some (res, env', rows) →
  getenv env' "HOME" = getenv env "HOME".
Proof.
  unfold layer_path_pass.
  destruct (getenv env "VK_LAYER_PATH") as [value|] eqn:Hget;
    [|by intros [= _ <- _]].
  assert ((strtok_env env "VK_LAYER_PATH" ":"%char).2 !! "HOME"
          = env !! "HOME") as Hother
    by by apply SearchFacts.strtok_env_other.
  destruct (strtok_env env "VK_LAYER_PATH" ":"%char) as [tokens env1].
  simpl in Hother.
  destruct (explicit_folders sys _ res0) as [[r report]|];
    cbn [mbind option_bind]; [|done].
  intros [= _ <- _]. unfold getenv. by rewrite Hother.
Qed.

(** X18.  The result of the layer pass is the result of its last
    folder, the one of explicit layers under [$HOME]: what the
    implicit layers and the folders before it gave is overwritten. *)
Theorem PrintLayerInfo_result_of_home_folder sys env res env' rows :
  PrintLayerInfo sys env = Some (res, env', rows) →
  res = default SUCCESSFUL (last (folder_errors sys (home_explicit_folder env))).
Proof.
  unfold PrintLayerInfo.
  destruct (implicit_pass sys env) as [st|]; cbn [mbind option_bind]; [|done].
  unfold explicit_pass.
  destruct (if bool_decide (length (override_search_paths st) ≠ 0%nat)
            then _ else _) as [[r1 override_rows]|];
    cbn [mbind option_bind]; [|done].
  destruct (layer_path_pass sys env r1) as [[[r2 env2] path_rows]|] eqn:Hpath;
    cbn [mbind option_bind]; [|done].
  apply layer_path_pass_home in Hpath.
  destruct (explicit_folders sys (standard_explicit_folders env2) r2)
    as [[r3 standard_rows]|] eqn:Hstd; cbn [mbind option_bind]; [|done].
  intros [= <- _ _].
  change (standard_explicit_folders env2)
    with ([ ("/etc/vulkan", "/etc/vulkan/explicit_layer.d");
            ("/usr/share/vulkan", "/usr/share/vulkan/explicit_layer.d");
            ("/usr/local/etc/vulkan", "/usr/local/etc/vulkan/explicit_layer.d");
            ("/usr/local/share/vulkan",
             "/usr/local/share/vulkan/explicit_layer.d") ]
          ++ [("$HOME/.local/share/vulkan/explicit_layer.d",
               home_explicit_folder env2)]) in Hstd.
  apply explicit_folders_last in Hstd as [report Hhome].
  assert (home_explicit_folder env2 = home_explicit_folder env) as Hsame
    by (unfold home_explicit_folder; by rewrite Hpath).
  rewrite Hsame in Hhome. revert Hhome. clear.
  unfold PrintExplicitLayersInFolder, folder_errors.
  destruct (readdir_all sys (home_explicit_folder env)) as [entries|];
    [|by intros [= <- _]].
  destruct (explicit_entries sys _ entries _) as [st|] eqn:Hscan;
    cbn [mbind option_bind]; [|done].
  intros [= <- _]. by rewrite (explicit_entries_res _ _ _ _ _ Hscan).
Qed.

Lemma PrintLayerInfo_result_of_home_folder_witness :
  fst <$> (fst <$> PrintLayerInfo Hosts.broken_layers_system ∅)
  = Some SUCCESSFUL ∧
  SUCCESSFUL
  = default SUCCESSFUL
      (last (folder_errors Hosts.broken_layers_system (home_explicit_folder ∅))).
Proof.
  split; [vm_compute; reflexivity|].
  eapply (PrintLayerInfo_result_of_home_folder Hosts.broken_layers_system ∅).
  vm_compute. reflexivity.
Defined.

End LayerPassFacts.

(** ** The runtime libraries *)

Module RuntimeFacts.

Import Drivers HtmlWriter Runtimes RuntimeSpec.

Lemma runtime_entries_res sys folder_loc object_name entries :
  ∀ st,
    runtime_res (runtime_entries sys folder_loc object_name entries st)
    = if existsb (stat_fails sys folder_loc object_name) entries
      then SYSTEM_CALL_FAILURE else runtime_res st.
Proof.
  induction entries as [|d_name rest IH]; intros st; [done|].
  cbn [runtime_entries existsb]. unfold stat_fails at 1.
  destruct (is_runtime_entry object_name d_name); [|apply IH].
  destruct (popen_first_line sys (stat_command folder_loc d_name))
    as [[path|]|]; rewrite IH; cbn [runtime_res andb orb];
    try (rewrite bool_decide_eq_false_2 by done; done).
  rewrite bool_decide_eq_true_2 by done.
  by destruct (existsb _ rest).
Qed.

(** X19.  [PrintRuntimesInFolder] returns [SYSTEM_CALL_FAILURE] when
    the folder holds a runtime entry whose [stat] pipe cannot be
    opened, and [SUCCESSFUL] in every other case: for a folder that
    cannot be opened and for a folder without any runtime too. *)
Theorem PrintRuntimesInFolder_result sys folder_loc object_name print_header :
  (PrintRuntimesInFolder sys folder_loc object_name print_header).1
  = if existsb (stat_fails sys folder_loc object_name)
         (default [] (readdir_all sys folder_loc))
    then SYSTEM_CALL_FAILURE else SUCCESSFUL.
Proof.
  unfold PrintRuntimesInFolder.
  destruct (readdir_all sys folder_loc) as [entries|]; [|done].
  change (default [] (Some entries)) with entries.
  cbn [fst]. by rewrite runtime_entries_res.
Qed.

Lemma CheckRuntime_true sys folder_loc object_name :
  existsb (stat_fails sys folder_loc object_name)
    (default [] (readdir_all sys folder_loc)) = false →
  (CheckRuntime sys folder_loc object_name).1 = true.
Proof.
  intros Hnone. unfold CheckRuntime, PrintRuntimesInFolder.
  destruct (readdir_all sys folder_loc) as [entries|]; [|done].
  change (default [] (Some entries)) with entries in Hnone.
  cbn [fst]. apply bool_decide_eq_true_2.
  by rewrite runtime_entries_res, Hnone.
Qed.

Lemma found_in_system_folder sys env object_name location func b :
  existsb (λ p, func p object_name) (system_library_folders sys) = true →
  (FindLinuxSystemObject sys env object_name location func b).1.1 = true.
Proof.
  unfold FindLinuxSystemObject. generalize (system_library_folders sys).
  intros folders Hfound.
  destruct (SearchFacts.find_in_folders_spec func object_name b folders false
              location) as [Hone _].
  destruct (find_in_folders _ _ _ _ _ _) as [[found loc] early].
  cbn [fst] in Hone. rewrite Hfound in Hone. subst found.
  destruct early; [done|]. unfold strtok_env.
  destruct (getenv env "LD_LIBRARY_PATH") as [value|]; [|done].
  pose proof (SearchFacts.find_in_tokens_found func object_name _
                (SearchFacts.strtok_go_nonempty ":"%char value []) true loc)
    as Htok.
  unfold strtok_all. by destruct (find_in_tokens _ _ _ _ _).
Qed.

(** X20.  The search with which [PrintRunTimeInfo] begins finds a
    runtime as soon as one of the five system folders gives no failing
    [stat] pipe: a folder that does not exist, or that holds no
    runtime at all, counts as a find. *)
Theorem runtime_found_where_none_is sys env folder_loc :
  folder_loc ∈ system_library_folders sys →
  existsb (stat_fails sys folder_loc vulkan_so_prefix)
    (default [] (readdir_all sys folder_loc)) = false →
  (runtime_search sys env).1 = true.
Proof.
  intros Hin Hnone. unfold runtime_search.
  pose proof (found_in_system_folder sys env vulkan_so_prefix ""
                (λ folder_loc object_name,
                   (CheckRuntime sys folder_loc object_name).1) false)
    as Hfound.
  destruct (FindLinuxSystemObject _ _ _ _ _ _) as [[found loc] env'].
  cbn [fst] in *. apply Hfound.
  apply SearchFacts.existsb_exists_elem. exists folder_loc.
  split; [done|]. by apply CheckRuntime_true.
Qed.

Lemma runtime_found_where_none_is_witness :
  (runtime_search Examples.empty_system ∅).1 = true.
Proof.
  apply (runtime_found_where_none_is Examples.empty_system ∅ "/usr/lib").
  - by left.
  - reflexivity.
Defined.

End RuntimeFacts.

(** ** The external tests *)

Module TestFacts.

Import HtmlWriter Tests TestSpec.

(** What one pass of the loop does to the locals. *)
Lemma cube_pass_spec host sdk pass st :
  (is_system_install_sdk sdk = true → test_path st = "") →
  found_exe (cube_pass host sdk pass st)
  = found_exe st || first_run_passes host sdk pass ∧
  test_res (cube_pass host sdk pass st)
  = (if validation_fails host sdk pass then TEST_FAILED else test_res st) ∧
  tests_ran (cube_pass host sdk pass st)
  = tests_ran st || first_run_passes host sdk pass ∧
  test_path (cube_pass host sdk pass st) = test_directory sdk.
Proof.
  intros Hpath.
  assert ((if negb (is_system_install_sdk sdk)
           then sdk_path sdk +:+ "/../examples/build" else test_path st)
          = test_directory sdk) as Hdir.
  { unfold test_directory. destruct (is_system_install_sdk sdk); [|done].
    by apply Hpath. }
  unfold cube_pass, validation_fails, first_run_passes, run_result,
    validate_command, first_command.
  rewrite Hdir.
  destruct (RunTestInDirectory host (test_directory sdk) (cube_exe sdk pass)
              (cube_exe sdk pass +:+ " --c 100 --suppress_popups"))
    as [result1 cout1].
  cbn [fst]. case_bool_decide as H1.
  - subst result1. cbn [result_cell bool_decide decide_rel].
    destruct (RunTestInDirectory host (test_directory sdk) (cube_exe sdk pass)
                ((cube_exe sdk pass +:+ " --c 100 --suppress_popups")
                 +:+ " --validate"))
      as [result2 cout2].
    cbn [fst]. unfold result_cell.
    rewrite (bool_decide_eq_true_2 (0 = 0)) by done.
    repeat case_bool_decide; cbn; by rewrite ?orb_true_r.
  - cbn. by rewrite !orb_false_r.
Qed.

(** X21.  [PrintTestResults] returns [TEST_FAILED] when an SDK was
    found and neither [vkcube] nor [cube] ran with result 0, or when a
    run with [--validate] returned something other than 0 and 1; in
    every other case, and always when no SDK was found, it returns
    [SUCCESSFUL].  A first run that fails with another result than 0
    is not reported as a failure of its own. *)
Theorem PrintTestResults_result host sdk tests_ran_before :
  test_res (PrintTestResults host sdk tests_ran_before)
  = if sdk_found sdk
       && ((negb (first_run_passes host sdk 0)
            && negb (first_run_passes host sdk 1))
           || validation_fails host sdk 0 || validation_fails host sdk 1)
    then TEST_FAILED else SUCCESSFUL.
Proof.
  unfold PrintTestResults. destruct (sdk_found sdk); [|done].
  set (st0 := {| found_exe := false; test_res := SUCCESSFUL;
                 tests_ran := tests_ran_before; test_path := "";
                 test_ops := [OpBeginSection "External Tests"];
                 test_cout := [] |}).
  destruct (cube_pass_spec host sdk 0 st0) as (Hf0 & Hr0 & _ & Hp0); [done|].
  destruct (cube_pass_spec host sdk 1 (cube_pass host sdk 0 st0))
    as (Hf1 & Hr1 & _ & _).
  { intros Hsys. rewrite Hp0. unfold test_directory. by rewrite Hsys. }
  destruct (cube_pass host sdk 1 (cube_pass host sdk 0 st0))
    as [found res ran path ops cout].
  cbn [found_exe test_res] in *. subst found res. rewrite Hf0, Hr0.
  cbn [found_exe test_res orb andb].
  by destruct (first_run_passes host sdk 0), (first_run_passes host sdk 1),
    (validation_fails host sdk 0), (validation_fails host sdk 1).
Qed.

End TestFacts.

(** ** The command line and the exit status *)

Module CommandLineFacts.

Import CommandLine.

Lemma accepted_parses args :
  accepted args →
  ∀ generate_unique_file output_path,
    is_Some (parse_arguments args generate_unique_file output_path).
Proof.
  induction 1 as [|rest _ IH|value rest _ IH];
    intros generate_unique_file output_path; cbn [parse_arguments].
  - by eexists.
  - rewrite decide_True by done. apply IH.
  - rewrite decide_False by done. rewrite decide_True by done. apply IH.
Qed.

Lemma parses_accepted n :
  ∀ args generate_unique_file output_path,
    (length args ≤ n)%nat →
    is_Some (parse_arguments args generate_unique_file output_path) →
    accepted args.
Proof.
  induction n as [|n IH]; intros [|arg rest] generate_unique_file output_path
    Hlen; cbn [parse_arguments]; try (intros; by constructor).
  { simpl in Hlen. lia. }
  simpl in Hlen.
  case_decide as Hunique.
  { subst arg. intros Hrest. constructor. eapply IH; [lia|exact Hrest]. }
  case_decide as Hpath; [|by intros [? ?]].
  subst arg. destruct rest as [|value rest]; [by intros [? ?]|].
  intros Hrest. constructor. eapply IH; [|exact Hrest]. simpl in Hlen. lia.
Qed.

(** X22.  The loop over the arguments goes through exactly for the
    command lines made of [--unique_output] and of [--output_path]
    followed by a value, in any number and order; whatever follows
    [--output_path] is taken as its value. *)
Theorem parse_arguments_accepts args generate_unique_file output_path :
  is_Some (parse_arguments args generate_unique_file output_path)
  ↔ accepted args.
Proof.
  split.
  - by apply (parses_accepted (length args)).
  - intros Hargs. by apply accepted_parses.
Qed.

(** X23.  The exit status of a run that ends is -1 (for arguments
    that are not accepted), 0, or the result of the Vulkan calls or of
    the external tests: no verdict of the driver, runtime, SDK or
    layer passes is ever returned. *)
Theorem exit_status_cases host sys passes env args status :
  main host sys passes env args = Some status →
  status = -1 ∨ status = 0
  ∨ status = error_code (Report.PrintVulkanInfo passes)
  ∨ status = error_code (Report.PrintTestResults passes).
Proof.
  unfold main.
  destruct (parse_arguments args false None) as [[unique path]|];
    [|intros [= <-]; by left].
  destruct (html_file_name unique path (start_time host)) as [name|];
    cbn [mbind option_bind]; [|done].
  assert (Report.main sys passes env = Some status →
          status = -1 ∨ status = 0
          ∨ status = error_code (Report.PrintVulkanInfo passes)
          ∨ status = error_code (Report.PrintTestResults passes)) as Hreport.
  { intros ->%ReportFacts.main_status. case_bool_decide; auto. }
  destruct (can_open host name); [done|].
  destruct (can_open host _); [done|].
  intros [= <-]. right. by left.
Qed.

Lemma exit_status_cases_witness :
  main {| can_open := λ _, true; start_time := Examples.noon |}
    Examples.empty_system Examples.quiet_passes ∅ ["--unique_output"]
  = Some 0 ∧
  (0 = -1 ∨ 0 = 0
   ∨ 0 = error_code (Report.PrintVulkanInfo Examples.quiet_passes)
   ∨ 0 = error_code (Report.PrintTestResults Examples.quiet_passes)).
Proof.
  split; [vm_compute; reflexivity|].
  apply (exit_status_cases
           {| can_open := λ _, true; start_time := Examples.noon |}
           Examples.empty_system Examples.quiet_passes ∅ ["--unique_output"]).
  vm_compute. reflexivity.
Defined.

End CommandLineFacts.

(** ** The HTML writer *)

Module HtmlFacts.

Import HtmlWriter HtmlSpec Runtimes RuntimeSpec.

Lemma cells_written odd cells :
  ∀ text,
    run (((λ cell : Cell, OpTableElement cell.1 cell.2) <$> cells)
         ++ [OpEndTableRow])
      {| is_odd_row := odd; html_file_stream := text |}
    = {| is_odd_row := negb odd;
         html_file_stream :=
           text
           +:+ fold_right
                 (λ (cell : Cell) rest,
                    "            <td" +:+ align_str cell.2 +:+ class_str odd
                    +:+ ">" +:+ cell.1 +:+ "</td>" +:+ endl +:+ rest)
                 ("        </tr>" +:+ endl) cells |}.
Proof.
  unfold run. induction cells as [|cell cells IH]; intros text; [done|].
  rewrite fmap_cons. cbn [app fold_left fold_right exec].
  unfold PrintTableElement, write. cbn [is_odd_row html_file_stream].
  rewrite IH. f_equal. by rewrite !TextFacts.string_append_assoc.
Qed.

Lemma row_written row w :
  run (row_ops row) w
  = {| is_odd_row := negb (is_odd_row w);
       html_file_stream := html_file_stream w +:+ row_text (is_odd_row w) row |}.
Proof.
  destruct w as [odd text]. unfold row_ops, row_text.
  change (run (OpBeginTableRow :: ?ops) ?w)
    with (run ops (PrintBeginTableRow w)).
  unfold PrintBeginTableRow, write. cbn [is_odd_row html_file_stream].
  rewrite cells_written. f_equal. by rewrite !TextFacts.string_append_assoc.
Qed.

(** X24.  Rows written one after the other come out with their
    classes alternating, beginning with the parity the writer is in,
    and each row flips the parity once: the text added to the stream
    is that of the rows, and nothing else. *)
Theorem rows_written rows :
  ∀ w,
    run (rows_ops rows) w
    = {| is_odd_row := Nat.iter (length rows) negb (is_odd_row w);
         html_file_stream :=
           html_file_stream w +:+ rows_text (is_odd_row w) rows |}.
Proof.
  induction rows as [|row rows IH]; intros w.
  { destruct w as [odd text]. unfold run. simpl.
    by rewrite TextFacts.string_append_empty_r. }
  unfold rows_ops. rewrite bind_cons. fold (rows_ops rows).
  unfold run. rewrite fold_left_app. fold (run (row_ops row) w).
  fold (run (rows_ops rows) (run (row_ops row) w)).
  rewrite row_written, IH. cbn [is_odd_row html_file_stream rows_text length].
  rewrite Nat.iter_succ_r. f_equal.
  by rewrite TextFacts.string_append_assoc.
Qed.

(** *** Rows that are left open *)

Lemma rows_begun_app ops ops' :
  rows_begun (ops ++ ops') = (rows_begun ops + rows_begun ops')%nat.
Proof. unfold rows_begun. by rewrite List.filter_app, length_app. Qed.

Lemma rows_ended_app ops ops' :
  rows_ended (ops ++ ops') = (rows_ended ops + rows_ended ops')%nat.
Proof. unfold rows_ended. by rewrite List.filter_app, length_app. Qed.

Lemma row_ops_balanced row :
  rows_begun (row_ops row) = 1%nat ∧ rows_ended (row_ops row) = 1%nat.
Proof.
  unfold row_ops.
  change (OpBeginTableRow :: ?l) with ([OpBeginTableRow] ++ l).
  rewrite !rows_begun_app, !rows_ended_app.
  assert (rows_begun ((λ cell : Cell, OpTableElement cell.1 cell.2) <$> row)
          = 0%nat ∧
          rows_ended ((λ cell : Cell, OpTableElement cell.1 cell.2) <$> row)
          = 0%nat) as [-> ->]; [|done].
  induction row as [|cell row [IHb IHe]]; [done|].
  rewrite fmap_cons.
  change (OpTableElement ?a ?b :: ?l) with ([OpTableElement a b] ++ l).
  by rewrite rows_begun_app, rows_ended_app, IHb, IHe.
Qed.

Lemma link_cells_no_row path :
  rows_begun (link_cells path) = 0%nat ∧ rows_ended (link_cells path) = 0%nat.
Proof. unfold link_cells. by destruct (String.index 0 "->" path). Qed.

Lemma runtime_entries_rows sys folder_loc object_name entries :
  ∀ st,
    (rows_begun (runtime_ops (runtime_entries sys folder_loc object_name
                                entries st))
     + rows_ended (runtime_ops st)
     = rows_ended (runtime_ops (runtime_entries sys folder_loc object_name
                                  entries st))
       + rows_begun (runtime_ops st)
       + length (List.filter (stat_fails sys folder_loc object_name) entries))%nat.
Proof.
  induction entries as [|d_name rest IH]; intros st.
  { cbn [runtime_entries List.filter length]. lia. }
  cbn [runtime_entries List.filter].
  assert (stat_fails sys folder_loc object_name d_name
          = is_runtime_entry object_name d_name
            && bool_decide (popen_first_line sys
                              (stat_command folder_loc d_name) = None))
    as -> by done.
  destruct (is_runtime_entry object_name d_name); [|apply IH].
  destruct (popen_first_line sys (stat_command folder_loc d_name))
    as [[path|]|];
    match goal with
    | |- context [runtime_entries _ _ _ rest ?st'] =>
        pose proof (IH st') as Hrest
    end;
    cbn [runtime_ops] in Hrest;
    rewrite !rows_begun_app, !rows_ended_app in Hrest;
    try (destruct (link_cells_no_row path) as [Hlb Hle];
         rewrite Hlb, Hle in Hrest);
    cbn in Hrest |- *; lia.
Qed.

(** X25.  Among the calls of [PrintRuntimesInFolder], the rows begun
    exceed the rows ended by the number of runtime entries whose
    [stat] pipe could not be opened: each of them leaves its row
    without [PrintEndTableRow]. *)
Theorem PrintRuntimesInFolder_open_rows sys folder_loc object_name
    print_header :
  rows_begun (PrintRuntimesInFolder sys folder_loc object_name print_header).2
  = (rows_ended
       (PrintRuntimesInFolder sys folder_loc object_name print_header).2
     + length (List.filter (stat_fails sys folder_loc object_name)
                 (default [] (readdir_all sys folder_loc))))%nat.
Proof.
  unfold PrintRuntimesInFolder.
  destruct (readdir_all sys folder_loc) as [entries|].
  2: { cbn [snd]. by destruct (row_ops_balanced
                                 [el_right folder_loc; el "No such folder";
                                  el ""]) as [-> ->]. }
  change (default [] (Some entries)) with entries. cbn [snd].
  set (st0 := {| runtime_i := 0; runtime_res := SUCCESSFUL;
                 file_found := false; generic_str := "";
                 runtime_ops := if print_header then _ else [] |}).
  pose proof (runtime_entries_rows sys folder_loc object_name entries st0)
    as Hrows.
  assert (rows_begun (runtime_ops st0) = rows_ended (runtime_ops st0)) as Hst0.
  { unfold st0. cbn [runtime_ops]. destruct print_header; [|done].
    by destruct (row_ops_balanced [el_right folder_loc; el ""; el ""])
      as [-> ->]. }
  destruct (file_found _); [lia|].
  rewrite rows_begun_app, rows_ended_app.
  destruct (row_ops_balanced [el ""; el "No libvulkan.so files found"; el ""])
    as [-> ->].
  lia.
Qed.

End HtmlFacts.

(** ** The tables of the system *)

Module SystemTableFacts.

Import HtmlWriter HtmlSpec SystemTables.

Lemma strip_end_trailing tail :
  Forall (λ c, is_trailing c = true) tail → strip_end tail = [].
Proof.
  induction 1 as [|c tail Hc _ IH]; [done|].
  cbn [strip_end]. by rewrite IH, Hc.
Qed.

Lemma strip_end_app front back :
  strip_end back ≠ [] → strip_end (front ++ back) = front ++ strip_end back.
Proof.
  intros Hback. induction front as [|c front IH]; [done|].
  cbn [app strip_end]. rewrite IH.
  destruct (front ++ strip_end back) eqn:Happ; [|done].
  apply app_eq_nil in Happ as [_ ?]. done.
Qed.

Lemma strip_end_clean name tail :
  name ≠ [] → strip_end name = name →
  Forall (λ c, is_trailing c = true) tail →
  strip_end (name ++ tail) = name.
Proof.
  intros Hname Hclean Htail%strip_end_trailing.
  induction name as [|c name IH]; [done|].
  cbn [app strip_end]. cbn [strip_end] in Hclean.
  destruct (strip_end name) as [|e kept] eqn:Hkept.
  - assert (name = []) as -> by (by destruct (is_trailing c), name).
    cbn [app]. rewrite Htail. by destruct (is_trailing c).
  - injection Hclean as <-. rewrite IH by done. done.
Qed.

(** X26.  The name of the distribution is what stands from offset 13
    of the [PRETTY_NAME] line on, without the blanks, tabs, line ends
    and double quotes behind it: the 13 characters before it are
    dropped whatever they are, so a value without an opening quote
    loses its first character. *)
Theorem os_name_from_offset_13 front name tail :
  length front = 13%nat →
  name ≠ [] → strip_end name = name → skip_lead name = name →
  Forall (λ c, is_trailing c = true) tail →
  os_name (front ++ name ++ tail) = Some name.
Proof.
  intros Hfront Hname Hclean Hlead Htail. unfold os_name, strlen.
  rewrite length_app, Hfront.
  replace (13 + length (name ++ tail) <? 13)%nat with false
    by (symmetry; apply Nat.ltb_ge; lia).
  rewrite strip_end_app
    by (rewrite (strip_end_clean name tail Hname Hclean Htail); done).
  rewrite (strip_end_clean name tail Hname Hclean Htail).
  rewrite drop_app_length' by done. by rewrite Hlead.
Qed.

Lemma os_name_from_offset_13_witness :
  os_name (buf "PRETTY_NAME=Ubuntu 22.04 LTS" ++ ["010"%char])
  = Some (buf "buntu 22.04 LTS").
Proof.
  apply (os_name_from_offset_13 (buf "PRETTY_NAME=U") (buf "buntu 22.04 LTS")
           ["010"%char]).
  - reflexivity.
  - discriminate.
  - reflexivity.
  - reflexivity.
  - by repeat constructor.
Defined.

Lemma shiftr_pos (x n : Z) : 0 ≤ n → (0 <? Z.shiftr x n) = (2 ^ n <=? x).
Proof.
  intros Hn. rewrite Z.shiftr_div_pow2 by done.
  assert (0 < 2 ^ n) by (apply Z.pow_pos_nonneg; lia).
  destruct (Z.leb_spec (2 ^ n) x) as [Hle|Hlt].
  - apply Z.ltb_lt. apply Z.div_str_pos. lia.
  - apply Z.ltb_ge. destruct (Z.le_gt_cases 0 x).
    + rewrite Z.div_small by lia. done.
    + assert (x / 2 ^ n < 0) by (apply Z.div_lt_upper_bound; lia). lia.
Qed.

(** X27.  The amount of physical memory is shown in the largest of the
    units KB, MB, GB and TB that it reaches, rounded down: the figure
    is below 1024 for every unit but TB, and for TB it is the number
    of terabytes narrowed to 32 bits. *)
Theorem memory_amount_ranges memory :
  0 ≤ memory →
  memory_amount memory
  = if memory <? 2 ^ 10 then (memory, "KB")
    else if memory <? 2 ^ 20 then (memory / 2 ^ 10, "MB")
    else if memory <? 2 ^ 30 then (memory / 2 ^ 20, "GB")
    else (wrap_unsigned 32 (memory / 2 ^ 30), "TB").
Proof.
  intros Hpos. unfold memory_amount, amount, wrap_unsigned.
  rewrite !shiftr_pos by lia. rewrite !Z.shiftr_div_pow2 by lia.
  rewrite !Z.div_div by lia.
  change (2 ^ 10 * 2 ^ 20) with (2 ^ 30). change (2 ^ 10 * 2 ^ 10) with (2 ^ 20).
  change (2 ^ 32) with 4294967296. change (2 ^ 30) with 1073741824.
  change (2 ^ 20) with 1048576. change (2 ^ 10) with 1024.
  destruct (Z.leb_spec 1024 memory), (Z.ltb_spec memory 1024); try lia.
  2: { by rewrite Z.mod_small by lia. }
  destruct (Z.leb_spec 1048576 (memory / 1024)),
    (Z.ltb_spec memory 1073741824);
    try (Z.to_euclidean_division_equations; lia).
  - destruct (Z.ltb_spec memory 1048576); [lia|done].
  - destruct (Z.ltb_spec memory 1048576),
      (Z.leb_spec 1024 (memory / 1024));
      try (Z.to_euclidean_division_equations; lia);
      rewrite Z.mod_small; try done;
      Z.to_euclidean_division_equations; lia.
Qed.

Lemma memory_amount_ranges_witness :
  memory_amount 16384000 = (15, "GB").
Proof. apply (memory_amount_ranges 16384000). lia. Defined.

Lemma disk_row_rows a ended :
  rows_begun (disk_row a ended) = 1%nat ∧
  rows_ended (disk_row a ended) = if ended then 1%nat else 0%nat.
Proof. by destruct ended. Qed.

(** X28.  The row of the free disk space is left without its
    [PrintEndTableRow] exactly when the space is at least one GB and
    less than one TB; for every other amount the row is ended, and
    when [statvfs] fails no row is begun. *)
Theorem disk_space_row_left_open fs_stats :
  rows_begun (system_disk_space fs_stats)
  = (rows_ended (system_disk_space fs_stats)
     + match fs_stats with
       | Some (f_bsize, f_bavail) =>
           if (2 ^ 30 <=? wrap_unsigned 64 (f_bsize * f_bavail))%Z
              && (wrap_unsigned 64 (f_bsize * f_bavail) <? 2 ^ 40)%Z
           then 1 else 0
       | None => 0
       end)%nat.
Proof.
  destruct fs_stats as [[f_bsize f_bavail]|]; [|done].
  unfold system_disk_space.
  generalize (wrap_unsigned 64 (f_bsize * f_bavail)). intros bytes_total.
  rewrite !shiftr_pos by lia.
  change (2 ^ 40) with 1099511627776. change (2 ^ 30) with 1073741824.
  change (2 ^ 20) with 1048576. change (2 ^ 10) with 1024.
  destruct (Z.leb_spec 1099511627776 bytes_total),
    (Z.leb_spec 1073741824 bytes_total),
    (Z.ltb_spec bytes_total 1099511627776); try lia;
    cbn [andb];
    repeat match goal with
           | |- context [if ?b then disk_row _ _ else _] => destruct b
           end;
    match goal with
    | |- context [disk_row ?a ?e] =>
        destruct (disk_row_rows a e) as [-> ->]
    end; done.
Qed.

End SystemTableFacts.
